(** * Pulsar X2V2 Mini configuration tool: protocol codec and controller

    A shallow embedding of [pulsar.py].  Python integers are modelled as [Z],
    [bytes]/[bytearray] values as [list Z] whose construction checks that
    every element lies in [range(256)], dictionaries keyed by addresses as
    [gmap Z Z], and raised exceptions as an explicit outcome type.  The USB
    transport is a record holding the frames written so far and the frames
    the device is still going to deliver. *)

From Stdlib Require Import ZArith List Ascii String Lia Bool.
From stdpp Require Import base option list gmap.
Import ListNotations.

Local Open Scope Z_scope.

(** ** Exceptions and outcomes *)

(** The exceptions the modelled code can raise.  [ValueError] keeps the
    optional message, since the source distinguishes a bare [raise ValueError]
    from [raise ValueError('DPI must be multiple of 50')]. *)
Inductive exn : Type :=
| ValueError (msg : option string)
| KeyError
| IndexError
| AssertionError
| NotImplementedError
| AttributeError
| StructError.

(** Result of running a piece of code: a value, a raised exception, or a
    read that blocks forever because the device delivers nothing more. *)
Inductive outcome (A : Type) : Type :=
| Ok (a : A)
| Raise (e : exn)
| Blocked.
Arguments Ok {A} a.
Arguments Raise {A} e.
Arguments Blocked {A}.

Definition obind {A B} (o : outcome A) (k : A -> outcome B) : outcome B :=
  match o with
  | Ok a => k a
  | Raise e => Raise e
  | Blocked => Blocked
  end.

Notation "'try!' x := c 'in' k" := (obind c (fun x => k))
  (at level 10, x name, c at level 100, k at level 200).

Definition is_ok {A} (o : outcome A) : bool :=
  match o with Ok _ => true | _ => false end.

(** ** Constants *)

Definition PAYLOAD_HEADER : Z := 0x08.

Inductive Command : Type :=
| ACTIVE_PROFILE_GET
| ACTIVE_PROFILE_SET
| DEVICE_EVENT
| MEM_GET
| MEM_SET
| POWER
| RESTORE
| STATUS.

(** [Command] is an [IntEnum]: each member is used as its integer value. *)
Definition Command_value (c : Command) : Z :=
  match c with
  | ACTIVE_PROFILE_GET => 0x0e
  | ACTIVE_PROFILE_SET => 0x0f
  | DEVICE_EVENT => 0x0a
  | MEM_GET => 0x08
  | MEM_SET => 0x07
  | POWER => 0x04
  | RESTORE => 0x09
  | STATUS => 0x03
  end.
Coercion Command_value : Command >-> Z.

Inductive DeviceEvent : Type :=
| DeviceEvent_POWER
| DeviceEvent_DPI_MODE
| DeviceEvent_UNKNOWN_1.

Definition DeviceEvent_value (e : DeviceEvent) : Z :=
  match e with
  | DeviceEvent_POWER => 0x40
  | DeviceEvent_DPI_MODE => 0x01
  | DeviceEvent_UNKNOWN_1 => 0x04
  end.

Definition LED_BRIGHTNESS_MIN : Z := 0x00.
Definition LED_BRIGHTNESS_MAX : Z := 0xff.
Definition DPI_MODE_MIN : Z := 0x00.
Definition DPI_MODE_MAX : Z := 0x03.
Definition DPI_MIN : Z := 50.
Definition DPI_MAX : Z := 26000.

Definition ADDR_DPI_MODE : Z := 0x04.
Definition ADDR_DPI_MODE_CHECKSUM : Z := 0x05.
Definition ADDR_LED_BRIGHTNESS : Z := 0x4e.
Definition ADDR_LED_BRIGHTNESS_CHECKSUM : Z := 0x4f.

(** ** Bytes *)

Definition is_byte (v : Z) : bool := (0 <=? v) && (v <? 256).

(** [bytearray(iterable_of_ints)]: raises [ValueError] unless every element
    is in [range(256)]. *)
Definition bytearray (l : list Z) : outcome (list Z) :=
  if forallb is_byte l then Ok l else Raise (ValueError None).

(** [==] on [bytes]/[bytearray] values compares contents. *)
Definition bytes_eqb (a b : list Z) : bool := bool_decide (a = b).

(** [seq[i]] for a non-negative constant index. *)
Definition getitem (l : list Z) (i : nat) : outcome Z :=
  match l !! i with
  | Some v => Ok v
  | None => Raise IndexError
  end.

(** ** Checksum *)

Definition sum (values : list Z) : Z := fold_left Z.add values 0.

(** [ctypes.c_uint8(v).value]: no overflow check, the low eight bits of the
    two's complement representation of [v]. *)
Definition c_uint8 (v : Z) : Z := Z.land v 0xff.

Definition checksum (values : list Z) : Z := c_uint8 (0x55 - sum values).

(** ** Frame construction *)

(** The keyword arguments [index02] ... [index15] of [build_payload] are a
    dictionary from the index number to the value; an argument that is not
    passed takes its default [0x00]. *)
Definition kwarg (kw : gmap nat Z) (i : nat) : Z := default 0 (kw !! i).

Definition build_payload (command : Z) (kw : gmap nat Z) : outcome (list Z) :=
  let payload :=
    [ PAYLOAD_HEADER; command;
      kwarg kw 2; kwarg kw 3; kwarg kw 4; kwarg kw 5; kwarg kw 6; kwarg kw 7;
      kwarg kw 8; kwarg kw 9; kwarg kw 10; kwarg kw 11; kwarg kw 12;
      kwarg kw 13; kwarg kw 14; kwarg kw 15 ] in
  bytearray (payload ++ [checksum payload]).

(** ** DPI encoding *)

Definition dpi_int_to_raw (dpi : Z) : outcome (list Z) :=
  if negb ((DPI_MIN <=? dpi) && (dpi <=? DPI_MAX)) then Raise (ValueError None)
  else
    let quo := dpi / 50 in
    let rem := dpi mod 50 in
    if negb (rem =? 0) then
      Raise (ValueError (Some "DPI must be multiple of 50"%string))
    else
      let factor12800 := (quo - 1) / 256 in
      let factor50 := (quo - 1) mod 256 in
      let index2 := factor50 in
      let index3 := Z.lor (Z.shiftl factor12800 2) (Z.shiftl factor12800 6) in
      bytearray [index2; index2; index3].

Definition dpi_raw_to_int (raw : list Z) : outcome Z :=
  try! raw := bytearray raw in
  match raw with
  | [raw0; raw1; raw2] =>
      if negb (raw0 =? raw1) then Raise (ValueError None)
      else
        let factor50 := raw1 + 1 in
        let nib1 := Z.land raw2 0x0f in
        let nib2 := Z.shiftr raw2 4 in
        if negb (nib1 =? nib2) then Raise (ValueError None)
        else if negb (nib1 =? Z.land nib1 0x0c) then Raise (ValueError None)
        else
          let factor12800 := Z.shiftr nib1 2 in
          Ok (factor50 * 50 + factor12800 * 12800)
  | _ => Raise (ValueError None)
  end.

(** ** Payload classes *)

(** Instances of the [Payload] subclasses.  [SetActiveProfilePayload] and
    [CurrentActiveProfilePayload] store the frame built by [__init__] in
    [self.payload]; the other classes compute [payload] as a property.  The
    three [DeviceEventPayload] subclasses differ in [EVENT_FUNCTION] only. *)
Inductive Payload : Type :=
| RestorePayload
| RequestActiveProfilePayload
| SetActiveProfilePayload (payload : list Z)
| CurrentActiveProfilePayload (payload : list Z)
| DeviceEventPayload (EVENT_FUNCTION : DeviceEvent)
| RequestPowerDetailsPayload.

Definition Unknown1DeviceEventPayload : Payload :=
  DeviceEventPayload DeviceEvent_UNKNOWN_1.
Definition DPIModeDeviceEventPayload : Payload :=
  DeviceEventPayload DeviceEvent_DPI_MODE.
Definition PowerDeviceEventPayload : Payload :=
  DeviceEventPayload DeviceEvent_POWER.

(** [SetActiveProfilePayload(profile)] *)
Definition SetActiveProfilePayload_init (profile : Z) : outcome Payload :=
  try! payload :=
    build_payload ACTIVE_PROFILE_SET (<[5%nat := 0x01]> (<[6%nat := profile]> ∅)) in
  Ok (SetActiveProfilePayload payload).

(** [CurrentActiveProfilePayload(profile)] *)
Definition CurrentActiveProfilePayload_init (profile : Z) : outcome Payload :=
  try! payload :=
    build_payload ACTIVE_PROFILE_GET (<[5%nat := 0x01]> (<[6%nat := profile]> ∅)) in
  Ok (CurrentActiveProfilePayload payload).

(** [inst.payload] *)
Definition Payload_payload (inst : Payload) : outcome (list Z) :=
  match inst with
  | RestorePayload => build_payload RESTORE ∅
  | RequestActiveProfilePayload => build_payload ACTIVE_PROFILE_GET ∅
  | SetActiveProfilePayload payload => Ok payload
  | CurrentActiveProfilePayload payload => Ok payload
  | DeviceEventPayload EVENT_FUNCTION =>
      build_payload DEVICE_EVENT
        (<[5%nat := 0x0a]> (<[6%nat := DeviceEvent_value EVENT_FUNCTION]> ∅))
  | RequestPowerDetailsPayload => build_payload POWER ∅
  end.

(** [Payload.__bytes__] *)
Definition Payload_bytes (inst : Payload) : outcome (list Z) :=
  Payload_payload inst.

(** [Payload.__eq__]: the frames are compared, not the classes. *)
Definition Payload_eq (self other : Payload) : outcome bool :=
  try! a := Payload_payload self in
  try! b := Payload_payload other in
  Ok (bytes_eqb a b).

(** [inst.profile] of the two profile payloads. *)
Definition Payload_profile (inst : Payload) : outcome Z :=
  match inst with
  | SetActiveProfilePayload payload => getitem payload 6
  | CurrentActiveProfilePayload payload => getitem payload 6
  | _ => Raise AttributeError
  end.

Definition is_SetActiveProfilePayload (inst : Payload) : bool :=
  match inst with SetActiveProfilePayload _ => true | _ => false end.

Definition is_CurrentActiveProfilePayload (inst : Payload) : bool :=
  match inst with CurrentActiveProfilePayload _ => true | _ => false end.

(** [cls.from_payload(payload)] of the classes without constructor
    arguments: [inst = cls(); assert payload == inst.payload; return inst]. *)
Definition nullary_from_payload (inst : Payload) (payload : list Z)
  : outcome Payload :=
  try! expected := Payload_payload inst in
  if negb (bytes_eqb payload expected) then Raise AssertionError
  else Ok inst.

Definition SetActiveProfilePayload_from_payload (payload : list Z)
  : outcome Payload :=
  try! profile := getitem payload 6 in
  try! inst := SetActiveProfilePayload_init profile in
  try! built := Payload_payload inst in
  if negb (bytes_eqb built payload) then Raise AssertionError
  else Ok inst.

Definition CurrentActiveProfilePayload_from_payload (payload : list Z)
  : outcome Payload :=
  try! profile := getitem payload 6 in
  try! inst := CurrentActiveProfilePayload_init profile in
  try! built := Payload_payload inst in
  if negb (bytes_eqb built payload) then Raise AssertionError
  else Ok inst.

Definition DEVICE_EVENT_CLASSES : list DeviceEvent :=
  [ DeviceEvent_UNKNOWN_1; DeviceEvent_DPI_MODE; DeviceEvent_POWER ].

(** The module-level loop filling [DEVICE_EVENT_TYPES]; its assertion that
    no event function occurs twice holds for the three classes. *)
Definition DEVICE_EVENT_TYPES : gmap Z DeviceEvent :=
  foldl (fun types c => <[DeviceEvent_value c := c]> types) ∅
        DEVICE_EVENT_CLASSES.

(** The command dispatch of [from_payload], after its two assertions. *)
Definition dispatch (payload : list Z) : outcome Payload :=
  try! command := getitem payload 1 in
  if command =? POWER then
    try! request := Payload_payload RequestPowerDetailsPayload in
    if bytes_eqb payload request then Ok RequestPowerDetailsPayload
    else Raise NotImplementedError
  else if command =? RESTORE then Ok RestorePayload
  else if command =? STATUS then Raise NotImplementedError
  else if command =? DEVICE_EVENT then
    try! settings_type := getitem payload 6 in
    match DEVICE_EVENT_TYPES !! settings_type with
    | Some c => nullary_from_payload (DeviceEventPayload c) payload
    | None => Raise KeyError
    end
  else if command =? MEM_SET then Raise NotImplementedError
  else if command =? MEM_GET then Raise NotImplementedError
  else if command =? ACTIVE_PROFILE_SET then
    SetActiveProfilePayload_from_payload payload
  else if command =? ACTIVE_PROFILE_GET then
    try! request := Payload_payload RequestActiveProfilePayload in
    if bytes_eqb payload request then Ok RequestActiveProfilePayload
    else CurrentActiveProfilePayload_from_payload payload
  else Raise NotImplementedError.

Definition from_payload (payload : list Z) : outcome Payload :=
  if negb (length payload =? 17)%nat then Raise AssertionError
  else
    try! last := getitem payload 16 in
    if negb (last =? checksum (take 16 payload)) then Raise AssertionError
    else dispatch payload.

(** ** Power details *)

Record PowerDetails : Type := {
  battery_percentage : Z;
  battery_millivoltage : Z;
  power_connected : bool
}.

Definition bool_to_int (value : Z) : outcome bool :=
  if value =? 0 then Ok false
  else if value =? 1 then Ok true
  else Raise (ValueError None).

Definition int_to_bool (value : Z) : outcome bool :=
  if value =? 0 then Ok false
  else if value =? 1 then Ok true
  else Raise (ValueError None).

(** [struct.unpack('>H', data)[0]]: exactly two bytes, big-endian. *)
Definition unpack_H (data : list Z) : outcome Z :=
  match data with
  | [hi; lo] => Ok (hi * 256 + lo)
  | _ => Raise StructError
  end.

Definition parse_power_details (data : list Z) : outcome PowerDetails :=
  try! percentage := getitem data 6 in
  try! millivoltage := unpack_H (take 2 (drop 8 data)) in
  try! flag := getitem data 7 in
  try! connected := bool_to_int flag in
  Ok {| battery_percentage := percentage;
        battery_millivoltage := millivoltage;
        power_connected := connected |}.

(** ** Stateful code *)

(** Code that mutates an object of type [S]: the mutations made before an
    exception is raised persist, so the final state is returned in every
    case. *)
Definition M (S A : Type) : Type := S -> outcome A * S.

Definition ret {S A} (a : A) : M S A := fun s => (Ok a, s).

Definition raise {S A} (e : exn) : M S A := fun s => (Raise e, s).

Definition lift {S A} (o : outcome A) : M S A := fun s => (o, s).

Definition bind {S A B} (m : M S A) (k : A -> M S B) : M S B :=
  fun s =>
    match m s with
    | (Ok a, s') => k a s'
    | (Raise e, s') => (Raise e, s')
    | (Blocked, s') => (Blocked, s')
    end.

Notation "'do!' x := c 'in' k" := (bind c (fun x => k))
  (at level 10, x name, c at level 100, k at level 200).
Notation "'run!' c 'in' k" := (bind c (fun _ => k))
  (at level 10, c at level 100, k at level 200).

(** ** Transport *)

(** The USB device as the controller sees it: the frames written to it so
    far, oldest first, and the frames it will deliver to the coming reads.
    A read with nothing left to deliver never returns (the source reads with
    timeout [0]). *)
Record Device : Type := {
  written : list (list Z);
  incoming : list (list Z)
}.

(** [Device.write] of a [bytes] or [bytearray] value.  The control transfer
    is taken to send the whole payload, so that the assertion
    [res == len(payload)] of the source holds. *)
Definition Device_write (payload : list Z) : M Device unit :=
  fun d => (Ok tt, {| written := written d ++ [payload];
                      incoming := incoming d |}).

(** [Device.write] of a [Payload] object, converted with [bytes(payload)]. *)
Definition Device_write_payload (inst : Payload) : M Device unit :=
  do! payload := lift (Payload_bytes inst) in
  Device_write payload.

(** A [while True] loop around [Device._read]: [body] inspects each frame
    and either leaves the loop with a value ([Some]) or reads on ([None]). *)
Fixpoint read_loop {A} (body : list Z -> outcome (option A))
    (frames : list (list Z)) : outcome A * list (list Z) :=
  match frames with
  | [] => (Blocked, [])
  | resp :: rest =>
      match body resp with
      | Ok (Some a) => (Ok a, rest)
      | Ok None => read_loop body rest
      | Raise e => (Raise e, rest)
      | Blocked => (Blocked, rest)
      end
  end.

Definition Device_read_loop {A} (body : list Z -> outcome (option A))
  : M Device A :=
  fun d =>
    let (r, rest) := read_loop body (incoming d) in
    (r, {| written := written d; incoming := rest |}).

(** [Device.read()] with [expect=None]: the first frame, as it is. *)
Definition Device_read : M Device (list Z) :=
  Device_read_loop (fun resp => Ok (Some resp)).

(** [Device.read(expect)]: parse every frame and return the first instance
    of the class [expect]. *)
Definition Device_read_expect (expect : Payload -> bool) : M Device Payload :=
  Device_read_loop (fun resp =>
    try! inst := from_payload resp in
    Ok (if expect inst then Some inst else None)).

(** ** Controller *)

Record PulsarX2V2Mini : Type := {
  dev : Device;
  settings : gmap Z Z;
  _profile : option Z
}.

(** [PulsarX2V2Mini(dev)] *)
Definition PulsarX2V2Mini_init (dev : Device) : PulsarX2V2Mini :=
  {| dev := dev; settings := ∅; _profile := None |}.

(** Run transport code on [self.dev]. *)
Definition on_dev {A} (m : M Device A) : M PulsarX2V2Mini A :=
  fun self =>
    let (r, d) := m (dev self) in
    (r, {| dev := d; settings := settings self; _profile := _profile self |}).

Definition set_settings (f : gmap Z Z -> gmap Z Z) : M PulsarX2V2Mini unit :=
  fun self =>
    (Ok tt, {| dev := dev self; settings := f (settings self);
               _profile := _profile self |}).

Definition set__profile (value : option Z) : M PulsarX2V2Mini unit :=
  fun self =>
    (Ok tt, {| dev := dev self; settings := settings self;
               _profile := value |}).

(** [self.settings[address]] *)
Definition settings_getitem (address : Z) : M PulsarX2V2Mini Z :=
  fun self =>
    match settings self !! address with
    | Some v => (Ok v, self)
    | None => (Raise KeyError, self)
    end.

(** The loop shared by [get_power] and [is_on]: read until the command byte
    of the frame is [command]. *)
Definition read_command (command : Z) : M Device (list Z) :=
  Device_read_loop (fun resp =>
    try! c := getitem resp 1 in
    Ok (if c =? command then Some resp else None)).

Definition get_power : M PulsarX2V2Mini PowerDetails :=
  do! payload := lift (build_payload POWER ∅) in
  run! on_dev (Device_write payload) in
  do! resp := on_dev (read_command POWER) in
  lift (parse_power_details resp).

(** The [profile] setter. *)
Definition profile_set (value : Z) : M PulsarX2V2Mini unit :=
  do! inst := lift (SetActiveProfilePayload_init value) in
  run! on_dev (Device_write_payload inst) in
  do! resp := on_dev (Device_read_expect is_SetActiveProfilePayload) in
  do! resp_profile := lift (Payload_profile resp) in
  do! inst_profile := lift (Payload_profile inst) in
  if negb (resp_profile =? inst_profile) then raise AssertionError
  else set__profile (Some inst_profile).

Definition read_profile : M PulsarX2V2Mini unit :=
  run! on_dev (Device_write_payload RequestActiveProfilePayload) in
  do! resp := on_dev (Device_read_expect is_CurrentActiveProfilePayload) in
  do! profile := lift (Payload_profile resp) in
  profile_set profile.

Definition get__profile : M PulsarX2V2Mini (option Z) :=
  fun self => (Ok (_profile self), self).

(** The [profile] getter; it returns [self._profile], which holds a value
    after a successful [read_profile]. *)
Definition profile_get : M PulsarX2V2Mini (option Z) :=
  do! cached := get__profile in
  match cached with
  | None => run! read_profile in get__profile
  | Some _ => ret cached
  end.

Definition restore : M PulsarX2V2Mini unit :=
  do! payload := lift (build_payload RESTORE ∅) in
  run! on_dev (Device_write payload) in
  do! resp := on_dev Device_read in
  if negb (bytes_eqb resp payload) then raise AssertionError
  else set_settings (fun _ => ∅).

(** The [is_on] property. *)
Definition is_on : M PulsarX2V2Mini bool :=
  do! payload := lift (build_payload STATUS ∅) in
  run! on_dev (Device_write payload) in
  do! resp := on_dev (read_command STATUS) in
  lift (try! flag := getitem resp 6 in int_to_bool flag).

(** [min(addresses)] of a non-empty dictionary: its smallest key. *)
Definition min_key (addresses : gmap Z Z) : option Z :=
  match (map_to_list addresses).*1 with
  | [] => None
  | k :: ks => Some (foldl Z.min k ks)
  end.

(** [range(start, start + length)] *)
Definition range (start : Z) (length : nat) : list Z :=
  seqZ start (Z.of_nat length).

(** The [indexes] list of [_mem_set], by index number. *)
Definition indexes : list nat := [6; 7; 8; 9; 10; 11; 12; 13; 14; 15]%nat.

(** The loop of [_mem_set] filling [kwargs]; [addresses[address]] raises
    [KeyError] for a missing address. *)
Fixpoint fill_kwargs (addresses : gmap Z Z) (pairs : list (nat * Z))
    (kw : gmap nat Z) : outcome (gmap nat Z) :=
  match pairs with
  | [] => Ok kw
  | (index, address) :: rest =>
      match addresses !! address with
      | Some v => fill_kwargs addresses rest (<[index := v]> kw)
      | None => Raise KeyError
      end
  end.

Definition _mem_set (addresses : gmap Z Z) : M PulsarX2V2Mini unit :=
  let length := size addresses in
  if negb ((1 <=? length)%nat && (length <=? 10)%nat) then
    raise (ValueError (Some "must not be longer than 10"%string))
  else
    match min_key addresses with
    | None => raise (ValueError None)
    | Some start_address =>
        let kwargs :=
          <[5%nat := Z.of_nat length]> (<[4%nat := start_address]> ∅) in
        do! kwargs :=
          lift (fill_kwargs addresses
                  (zip indexes (range start_address length)) kwargs) in
        do! payload := lift (build_payload MEM_SET kwargs) in
        do! on := is_on in
        if negb on then raise AssertionError
        else
          run! on_dev (Device_write payload) in
          do! resp := on_dev Device_read in
          set_settings (fun settings => addresses ∪ settings)
    end.

(** The [dpi_mode] property. *)
Definition dpi_mode_get : M PulsarX2V2Mini Z := settings_getitem ADDR_DPI_MODE.

Definition dpi_mode_set (value : Z) : M PulsarX2V2Mini unit :=
  if negb ((DPI_MODE_MIN <=? value) && (value <=? DPI_MODE_MAX)) then
    raise (ValueError None)
  else
    _mem_set (<[ADDR_DPI_MODE := value]>
              (<[ADDR_DPI_MODE_CHECKSUM := checksum [value]]> ∅)).

(** The [led_brightness] property. *)
Definition led_brightness_get : M PulsarX2V2Mini Z :=
  settings_getitem ADDR_LED_BRIGHTNESS.

Definition led_brightness_set (value : Z) : M PulsarX2V2Mini unit :=
  if (LED_BRIGHTNESS_MIN <=? value) && (value <=? LED_BRIGHTNESS_MAX) then
    raise (ValueError None)
  else
    _mem_set (<[ADDR_LED_BRIGHTNESS := value]>
              (<[ADDR_LED_BRIGHTNESS_CHECKSUM := checksum [value]]> ∅)).

(** ** Further constants and tables *)

Definition LOD_MM_MIN : Z := 0x01.
Definition LOD_MM_MAX : Z := 0x02.

Definition ADDR_POLLING_RATE : Z := 0x00.
Definition ADDR_POLLING_RATE_CHECKSUM : Z := 0x01.
Definition ADDR_DPI_MODE_CT : Z := 0x02.
Definition ADDR_LOD_MM : Z := 0x0a.
Definition ADDR_LOD_MM_CHECKSUM : Z := 0x0b.
Definition ADDR_MODE0_DPI_INDEX1 : Z := 0x0c.
Definition ADDR_MODE0_DPI_INDEX2 : Z := 0x0d.
Definition ADDR_MODE0_DPI_INDEX3 : Z := 0x0e.
Definition ADDR_MODE0_DPI_CHECKSUM : Z := 0x0f.
Definition ADDR_MODE1_DPI_INDEX1 : Z := 0x10.
Definition ADDR_MODE1_DPI_INDEX2 : Z := 0x11.
Definition ADDR_MODE1_DPI_INDEX3 : Z := 0x12.
Definition ADDR_MODE1_DPI_CHECKSUM : Z := 0x13.
Definition ADDR_MODE2_DPI_INDEX1 : Z := 0x14.
Definition ADDR_MODE2_DPI_INDEX2 : Z := 0x15.
Definition ADDR_MODE2_DPI_INDEX3 : Z := 0x16.
Definition ADDR_MODE2_DPI_CHECKSUM : Z := 0x17.
Definition ADDR_MODE3_DPI_INDEX1 : Z := 0x18.
Definition ADDR_MODE3_DPI_INDEX2 : Z := 0x19.
Definition ADDR_MODE3_DPI_INDEX3 : Z := 0x1a.
Definition ADDR_MODE3_DPI_CHECKSUM : Z := 0x1b.
Definition ADDR_MODE0_LED_COLOR_R : Z := 0x2c.
Definition ADDR_MODE0_LED_COLOR_G : Z := 0x2d.
Definition ADDR_MODE0_LED_COLOR_B : Z := 0x2e.
Definition ADDR_MODE0_LED_COLOR_CHECKSUM : Z := 0x2f.
Definition ADDR_MODE1_LED_COLOR_R : Z := 0x30.
Definition ADDR_MODE1_LED_COLOR_G : Z := 0x31.
Definition ADDR_MODE1_LED_COLOR_B : Z := 0x32.
Definition ADDR_MODE1_LED_COLOR_CHECKSUM : Z := 0x33.
Definition ADDR_MODE2_LED_COLOR_R : Z := 0x34.
Definition ADDR_MODE2_LED_COLOR_G : Z := 0x35.
Definition ADDR_MODE2_LED_COLOR_B : Z := 0x36.
Definition ADDR_MODE2_LED_COLOR_CHECKSUM : Z := 0x37.
Definition ADDR_MODE3_LED_COLOR_R : Z := 0x38.
Definition ADDR_MODE3_LED_COLOR_G : Z := 0x39.
Definition ADDR_MODE3_LED_COLOR_B : Z := 0x3a.
Definition ADDR_MODE3_LED_COLOR_CHECKSUM : Z := 0x3b.
Definition ADDR_LED_EFFECT : Z := 0x4c.
Definition ADDR_LED_EFFECT_CHECKSUM : Z := 0x4d.
Definition ADDR_LED_BREATHE_SPEED : Z := 0x50.
Definition ADDR_LED_ENABLED : Z := 0x52.
Definition ADDR_LED_ENABLED_CHECKSUM : Z := 0x53.
Definition ADDR_DEBOUNCE_TIME : Z := 0xa9.
Definition ADDR_MOTION_SYNC : Z := 0xab.
Definition ADDR_MOTION_SYNC_CHECKSUM : Z := 0xac.
Definition ADDR_ANGLE_SNAPPING : Z := 0xaf.
Definition ADDR_ANGLE_SNAPPING_CHECKSUM : Z := 0xb0.
Definition ADDR_LOD_RIPPLE : Z := 0xb1.
Definition ADDR_LOD_RIPPLE_CHECKSUM : Z := 0xb2.
Definition ADDR_AUTOSLEEP_TIME : Z := 0xb7.

Record ModeAddresses : Type := {
  dpi_index1 : Z;
  dpi_index2 : Z;
  dpi_index3 : Z;
  dpi_checksum : Z;
  led_color_r : Z;
  led_color_g : Z;
  led_color_b : Z;
  led_color_checksum : Z
}.

Definition ADDR_MODE : list ModeAddresses :=
  [ Build_ModeAddresses
      ADDR_MODE0_DPI_INDEX1 ADDR_MODE0_DPI_INDEX2 ADDR_MODE0_DPI_INDEX3
      ADDR_MODE0_DPI_CHECKSUM ADDR_MODE0_LED_COLOR_R ADDR_MODE0_LED_COLOR_G
      ADDR_MODE0_LED_COLOR_B ADDR_MODE0_LED_COLOR_CHECKSUM;
    Build_ModeAddresses
      ADDR_MODE1_DPI_INDEX1 ADDR_MODE1_DPI_INDEX2 ADDR_MODE1_DPI_INDEX3
      ADDR_MODE1_DPI_CHECKSUM ADDR_MODE1_LED_COLOR_R ADDR_MODE1_LED_COLOR_G
      ADDR_MODE1_LED_COLOR_B ADDR_MODE1_LED_COLOR_CHECKSUM;
    Build_ModeAddresses
      ADDR_MODE2_DPI_INDEX1 ADDR_MODE2_DPI_INDEX2 ADDR_MODE2_DPI_INDEX3
      ADDR_MODE2_DPI_CHECKSUM ADDR_MODE2_LED_COLOR_R ADDR_MODE2_LED_COLOR_G
      ADDR_MODE2_LED_COLOR_B ADDR_MODE2_LED_COLOR_CHECKSUM;
    Build_ModeAddresses
      ADDR_MODE3_DPI_INDEX1 ADDR_MODE3_DPI_INDEX2 ADDR_MODE3_DPI_INDEX3
      ADDR_MODE3_DPI_CHECKSUM ADDR_MODE3_LED_COLOR_R ADDR_MODE3_LED_COLOR_G
      ADDR_MODE3_LED_COLOR_B ADDR_MODE3_LED_COLOR_CHECKSUM ].

(** [seq[i]] on a list for any integer index: a negative index counts
    from the end, an index outside [-len, len) raises [IndexError]. *)
Definition list_getitem {A} (l : list A) (i : Z) : outcome A :=
  let n := Z.of_nat (length l) in
  let j := if i <? 0 then i + n else i in
  if (0 <=? j) && (j <? n) then
    match l !! Z.to_nat j with
    | Some x => Ok x
    | None => Raise IndexError
    end
  else Raise IndexError.

(** ** Dictionaries in insertion order *)

(** [PollingRateHz] and the result of [inverse] are dictionaries whose
    order of insertion matters to [inverse]; they are lists of items with
    distinct keys. *)
Fixpoint dict_set (d : list (Z * Z)) (k v : Z) : list (Z * Z) :=
  match d with
  | [] => [(k, v)]
  | (k', v') :: d' =>
      if k' =? k then (k', v) :: d' else (k', v') :: dict_set d' k v
  end.

Fixpoint dict_get (d : list (Z * Z)) (k : Z) : outcome Z :=
  match d with
  | [] => Raise KeyError
  | (k', v') :: d' => if k' =? k then Ok v' else dict_get d' k
  end.

Definition PollingRateHz : list (Z * Z) :=
  [ (1000, 0x01); (500, 0x02); (250, 0x04); (125, 0x08) ].

(** [{v: k for k, v in dict_obj.items()}] *)
Definition inverse (dict_obj : list (Z * Z)) : list (Z * Z) :=
  foldl (fun d '(k, v) => dict_set d v k) [] dict_obj.

(** [Bool(enabled)]: the member with that value ([True] is [1], [False]
    is [0]), [ValueError] for any other value. *)
Definition Bool_call (enabled : Z) : outcome Z :=
  if enabled =? 0x01 then Ok 0x01
  else if enabled =? 0x00 then Ok 0x00
  else Raise (ValueError None).

(** [LEDEffect(value)] *)
Definition LEDEffect_call (value : Z) : outcome Z :=
  if value =? 0x02 then Ok 0x02
  else if value =? 0x01 then Ok 0x01
  else Raise (ValueError None).

(** [bool(value)] of an integer. *)
Definition bool_of_int (value : Z) : bool := negb (value =? 0).

(** ** Further controller code *)

(** The statements of one pass of the [while] loop of [read_settings]; the
    loop variable [settings] is local. *)
Definition read_settings_window (current : Z) (settings : gmap Z Z)
  : M PulsarX2V2Mini (gmap Z Z) :=
  let length := 10 in
  do! payload :=
    lift (build_payload MEM_GET
            (<[5%nat := length]> (<[4%nat := current]> ∅))) in
  run! on_dev (Device_write payload) in
  do! resp := on_dev Device_read in
  do! echoed_address := lift (getitem resp 4) in
  if negb (echoed_address =? current) then raise AssertionError
  else
    do! echoed_length := lift (getitem resp 5) in
    if negb (echoed_length =? length) then raise AssertionError
    else
      ret (foldl (fun settings '(k, v) => <[k := v]> settings) settings
                 (zip (seqZ current (Z.of_nat (List.length
                                       (take (Z.to_nat length) (drop 6 resp)))))
                      (take (Z.to_nat length) (drop 6 resp)))).

(** The [while current <= (max_addr + 10)] loop.  Every pass adds 10 to
    [current], so [fuel] passes are enough when [fuel] exceeds
    [max_addr + 10 - current]; a loop that has not ended by then does not
    return. *)
Fixpoint read_settings_loop (fuel : nat) (max_addr current : Z)
    (settings : gmap Z Z) : M PulsarX2V2Mini (gmap Z Z) :=
  if current <=? max_addr + 10 then
    match fuel with
    | O => fun self => (Blocked, self)
    | S fuel' =>
        do! settings := read_settings_window current settings in
        read_settings_loop fuel' max_addr (current + 10) settings
    end
  else ret settings.

Definition read_settings : M PulsarX2V2Mini unit :=
  let min_addr := 0x00 in
  let max_addr := 0xb8 in
  do! settings :=
    read_settings_loop (Z.to_nat (max_addr + 10 - min_addr + 1)) max_addr
                       min_addr ∅ in
  set_settings (fun _ => settings).

(** The [polling_rate] property. *)
Definition polling_rate_get : M PulsarX2V2Mini Z :=
  do! raw := settings_getitem ADDR_POLLING_RATE in
  lift (dict_get (inverse PollingRateHz) raw).

Definition polling_rate_set (rate : Z) : M PulsarX2V2Mini unit :=
  do! val := lift (dict_get PollingRateHz rate) in
  _mem_set (<[ADDR_POLLING_RATE_CHECKSUM := checksum [val]]>
            (<[ADDR_POLLING_RATE := val]> ∅)).

(** The [lod_mm] property. *)
Definition lod_mm_get : M PulsarX2V2Mini Z := settings_getitem ADDR_LOD_MM.

Definition lod_mm_set (value : Z) : M PulsarX2V2Mini unit :=
  if negb ((LOD_MM_MIN <=? value) && (value <=? LOD_MM_MAX)) then
    raise (ValueError None)
  else
    _mem_set (<[ADDR_LOD_MM_CHECKSUM := checksum [value]]>
              (<[ADDR_LOD_MM := value]> ∅)).

Definition debounce_time_get : M PulsarX2V2Mini Z :=
  settings_getitem ADDR_DEBOUNCE_TIME.

(** The setters that take a flag: [value = Bool(enabled)], then the pair
    of the value and its checksum goes to [_mem_set]. *)
Definition motion_sync_get : M PulsarX2V2Mini bool :=
  do! raw := settings_getitem ADDR_MOTION_SYNC in ret (bool_of_int raw).

Definition motion_sync_set (enabled : Z) : M PulsarX2V2Mini unit :=
  do! value := lift (Bool_call enabled) in
  _mem_set (<[ADDR_MOTION_SYNC_CHECKSUM := checksum [value]]>
            (<[ADDR_MOTION_SYNC := value]> ∅)).

Definition lod_ripple_get : M PulsarX2V2Mini bool :=
  do! raw := settings_getitem ADDR_LOD_RIPPLE in ret (bool_of_int raw).

Definition lod_ripple_set (enabled : Z) : M PulsarX2V2Mini unit :=
  do! value := lift (Bool_call enabled) in
  _mem_set (<[ADDR_LOD_RIPPLE_CHECKSUM := checksum [value]]>
            (<[ADDR_LOD_RIPPLE := value]> ∅)).

Definition angle_snapping_get : M PulsarX2V2Mini bool :=
  do! raw := settings_getitem ADDR_ANGLE_SNAPPING in ret (bool_of_int raw).

Definition angle_snapping_set (enabled : Z) : M PulsarX2V2Mini unit :=
  do! value := lift (Bool_call enabled) in
  _mem_set (<[ADDR_ANGLE_SNAPPING_CHECKSUM := checksum [value]]>
            (<[ADDR_ANGLE_SNAPPING := value]> ∅)).

Definition led_enabled_get : M PulsarX2V2Mini bool :=
  do! raw := settings_getitem ADDR_LED_ENABLED in ret (bool_of_int raw).

Definition led_enabled_set (enabled : Z) : M PulsarX2V2Mini unit :=
  do! value := lift (Bool_call enabled) in
  _mem_set (<[ADDR_LED_ENABLED_CHECKSUM := checksum [value]]>
            (<[ADDR_LED_ENABLED := value]> ∅)).

(** The [led_effect] property. *)
Definition led_effect_get : M PulsarX2V2Mini Z :=
  do! raw := settings_getitem ADDR_LED_EFFECT in lift (LEDEffect_call raw).

Definition led_effect_set (value : Z) : M PulsarX2V2Mini unit :=
  do! raw := lift (LEDEffect_call value) in
  _mem_set (<[ADDR_LED_EFFECT_CHECKSUM := checksum [raw]]>
            (<[ADDR_LED_EFFECT := raw]> ∅)).

Definition led_breathe_speed_get : M PulsarX2V2Mini Z :=
  settings_getitem ADDR_LED_BREATHE_SPEED.

Definition autosleep_time_get : M PulsarX2V2Mini Z :=
  do! raw := settings_getitem ADDR_AUTOSLEEP_TIME in ret (raw * 10).

Definition dpi_mode_count_get : M PulsarX2V2Mini Z :=
  settings_getitem ADDR_DPI_MODE_CT.

Definition get_dpi (mode : Z) : M PulsarX2V2Mini Z :=
  do! addrs := lift (list_getitem ADDR_MODE mode) in
  do! raw0 := settings_getitem (dpi_index1 addrs) in
  do! raw1 := settings_getitem (dpi_index2 addrs) in
  do! raw2 := settings_getitem (dpi_index3 addrs) in
  do! raw := lift (bytearray [raw0; raw1; raw2]) in
  lift (dpi_raw_to_int raw).

Definition set_dpi (mode dpi : Z) : M PulsarX2V2Mini unit :=
  do! raw := lift (dpi_int_to_raw dpi) in
  do! addrs := lift (list_getitem ADDR_MODE mode) in
  do! raw0 := lift (getitem raw 0) in
  do! raw1 := lift (getitem raw 1) in
  do! raw2 := lift (getitem raw 2) in
  _mem_set (<[dpi_checksum addrs := checksum raw]>
            (<[dpi_index3 addrs := raw2]>
             (<[dpi_index2 addrs := raw1]>
              (<[dpi_index1 addrs := raw0]> ∅)))).

(** The [dpi] property: the DPI of the active mode. *)
Definition dpi_get : M PulsarX2V2Mini Z :=
  do! mode := dpi_mode_get in get_dpi mode.

Definition dpi_set (value : Z) : M PulsarX2V2Mini unit :=
  do! mode := dpi_mode_get in set_dpi mode value.

(** ** Colour strings *)

Definition hex_digit (n : Z) : ascii :=
  nth (Z.to_nat n)
      [ "0"; "1"; "2"; "3"; "4"; "5"; "6"; "7"; "8"; "9";
        "a"; "b"; "c"; "d"; "e"; "f" ]%char "0"%char.

(** The hexadecimal digits of a non-negative integer, most significant
    first; [fuel] bounds the number of digits. *)
Fixpoint hex_digits (fuel : nat) (n : Z) (acc : string) : string :=
  match fuel with
  | O => acc
  | S fuel' =>
      let acc' := String (hex_digit (n mod 16)) acc in
      if n / 16 =? 0 then acc' else hex_digits fuel' (n / 16) acc'
  end.

(** [f'{value:02x}']: lower-case hexadecimal, a minus sign for a negative
    value, and zeros in front up to a width of two characters. *)
Definition format_02x (value : Z) : string :=
  let magnitude := Z.abs value in
  let digits :=
    hex_digits (S (Z.to_nat (Z.log2 magnitude))) magnitude EmptyString in
  if value <? 0 then String "-"%char digits
  else if (String.length digits <? 2)%nat then String "0"%char digits
  else digits.

Definition int_to_color (r g b : Z) : string :=
  String "#"%char (format_02x r ++ format_02x g ++ format_02x b)%string.

(** [get_led_color] hands the three colour addresses of the mode to
    [int_to_color]. *)
Definition get_led_color (mode : Z) : M PulsarX2V2Mini string :=
  do! addrs := lift (list_getitem ADDR_MODE mode) in
  ret (int_to_color (led_color_r addrs) (led_color_g addrs)
                    (led_color_b addrs)).

(** The [led_color] getter. *)
Definition led_color_get : M PulsarX2V2Mini string :=
  do! mode := dpi_mode_get in get_led_color mode.

(** ** Notions used in the statements *)

(** The sixteen bytes in front of the checksum. *)
Definition payload_body (command : Z) (kw : gmap nat Z) : list Z :=
  [ PAYLOAD_HEADER; command;
    kwarg kw 2; kwarg kw 3; kwarg kw 4; kwarg kw 5; kwarg kw 6; kwarg kw 7;
    kwarg kw 8; kwarg kw 9; kwarg kw 10; kwarg kw 11; kwarg kw 12;
    kwarg kw 13; kwarg kw 14; kwarg kw 15 ].

(** The arguments [index02] ... [index15] are all byte values. *)
Definition params_are_bytes (kw : gmap nat Z) : bool :=
  forallb (fun i => is_byte (kwarg kw i)) (seq 2 14).

(** The instances the constructors of the payload classes return. *)
Definition constructed (v : Payload) : Prop :=
  match v with
  | SetActiveProfilePayload _ =>
      exists profile, SetActiveProfilePayload_init profile = Ok v
  | CurrentActiveProfilePayload _ =>
      exists profile, CurrentActiveProfilePayload_init profile = Ok v
  | _ => True
  end.

(** The keys of [addresses] are a block of consecutive addresses that
    starts at the smallest key. *)
Definition contiguous_block (addresses : gmap Z Z) : Prop :=
  exists start,
    is_Some (addresses !! start) /\
    (forall k, is_Some (addresses !! k) -> start <= k) /\
    forall k, is_Some (addresses !! k)
              <-> start <= k < start + Z.of_nat (size addresses).

(** Every address and every value of [addresses] fits in a byte of the
    frame. *)
Definition encodable (addresses : gmap Z Z) : Prop :=
  forall k v, addresses !! k = Some v -> is_byte k = true /\ is_byte v = true.

(** In the frames of [new] no command byte is [command]. *)
Definition no_command (command : Command) (new : list (list Z)) : Prop :=
  Forall (fun f : list Z => f !! 1%nat <> Some (Command_value command)) new.

Definition STATUS_request : list Z :=
  [8; 3; 0; 0; 0; 0; 0; 0; 0; 0; 0; 0; 0; 0; 0; 0; 0x4a].

(** Code that only adds frames at the end of what was written. *)
Definition appends {A} (m : M PulsarX2V2Mini A) : Prop :=
  forall self, exists tail,
    written (dev (m self).2) = written (dev self) ++ tail.

Definition ACTIVE_PROFILE_GET_request : list Z :=
  [8; 14; 0; 0; 0; 0; 0; 0; 0; 0; 0; 0; 0; 0; 0; 0; 0x3f].

(** A frame as the device sends it: 17 bytes that add up to [0x55]
    modulo 256. *)
Definition valid_frame (frame : list Z) : Prop :=
  length frame = 17%nat /\ forallb is_byte frame = true /\
  sum frame mod 256 = 0x55.

Definition POWER_request : list Z :=
  [8; 4; 0; 0; 0; 0; 0; 0; 0; 0; 0; 0; 0; 0; 0; 0; 0x49].

Definition RESTORE_request : list Z :=
  [8; 9; 0; 0; 0; 0; 0; 0; 0; 0; 0; 0; 0; 0; 0; 0; 0x44].

(** The device answers the next status query with on, after frames [pre]
    of other commands, and then delivers [resp] and [rest]. *)
Definition device_on (self : PulsarX2V2Mini) (resp : list Z)
    (rest : list (list Z)) : Prop :=
  exists pre status,
    incoming (dev self) = pre ++ status :: resp :: rest /\
    Forall (fun f : list Z =>
              exists c : Z, f !! 1%nat = Some c /\ c <> STATUS) pre /\
    status !! 1%nat = Some (Command_value STATUS) /\
    status !! 6%nat = Some 1.

(** The [MEM_SET] frame for the block of [values] at [start]: header,
    command, two zero bytes, start address, length, the values, zero
    padding up to ten values, checksum. *)
Definition MEM_SET_request (start : Z) (values : list Z) : list Z :=
  let body :=
    [8; Command_value MEM_SET; 0; 0; start; Z.of_nat (length values)]
    ++ values ++ replicate (10 - length values) 0 in
  body ++ [checksum body].

(** The values of [addresses] at [n] consecutive addresses from [start]. *)
Definition block_values (addresses : gmap Z Z) (start : Z) (n : nat)
  : list Z :=
  (fun a => default 0 (addresses !! a)) <$> seqZ start (Z.of_nat n).

(** The state after a successful [_mem_set]: status request and [MEM_SET]
    frame written, the status reply, the frames before it and the response
    consumed, the mirror updated. *)
Definition after_mem_set (self : PulsarX2V2Mini) (request : list Z)
    (addresses : gmap Z Z) (rest : list (list Z)) : PulsarX2V2Mini :=
  {| dev := {| written := written (dev self) ++ [STATUS_request; request];
               incoming := rest |};
     settings := addresses ∪ settings self;
     _profile := _profile self |}.

(** The state after a setter has stored [value] at [address] and its
    checksum [0x55 - value] at the next address. *)
Definition after_pair_set (self : PulsarX2V2Mini) (address value : Z)
    (rest : list (list Z)) : PulsarX2V2Mini :=
  after_mem_set self (MEM_SET_request address [value; 0x55 - value])
    (<[address + 1 := 0x55 - value]> (<[address := value]> ∅)) rest.

(** The state after [set_dpi] has stored the raw DPI bytes and their
    checksum in the block of a mode, which starts at [base]. *)
Definition after_set_dpi (self : PulsarX2V2Mini) (base : Z) (raw : list Z)
    (rest : list (list Z)) : PulsarX2V2Mini :=
  after_mem_set self (MEM_SET_request base (raw ++ [checksum raw]))
    (list_to_map (zip (seqZ base 4) (raw ++ [checksum raw]))) rest.

(** The first DPI address of a mode; modes count from the end when
    negative, as list indices do. *)
Definition dpi_base (mode : Z) : Z := ADDR_MODE0_DPI_INDEX1 + 4 * (mode mod 4).

Definition led_color_base (mode : Z) : Z :=
  ADDR_MODE0_LED_COLOR_R + 4 * (mode mod 4).

(** The [MEM_GET] request for the ten bytes from [current] on. *)
Definition MEM_GET_request (current : Z) : list Z :=
  let body := [8; Command_value MEM_GET; 0; 0; current; 10;
               0; 0; 0; 0; 0; 0; 0; 0; 0; 0] in
  body ++ [checksum body].

(** The requests of [n] windows of ten addresses, from [current] on. *)
Fixpoint window_requests (current : Z) (n : nat) : list (list Z) :=
  match n with
  | O => []
  | S n' => MEM_GET_request current :: window_requests (current + 10) n'
  end.

(** The values of bytes 6 to 15 of each frame stored at ten consecutive
    addresses, the first frame from [current] on. *)
Fixpoint windows_map (current : Z) (frames : list (list Z))
    (settings : gmap Z Z) : gmap Z Z :=
  match frames with
  | [] => settings
  | f :: frames' =>
      windows_map (current + 10) frames'
        (foldl (fun settings '(k, v) => <[k := v]> settings) settings
               (zip (seqZ current (Z.of_nat (length (take 10 (drop 6 f)))))
                    (take 10 (drop 6 f))))
  end.

(** Code that leaves the mirror and the cached profile alone. *)
Definition keeps_mirror {A} (m : M PulsarX2V2Mini A) : Prop :=
  forall self, settings (m self).2 = settings self
               /\ _profile (m self).2 = _profile self.

(** * Properties *)

(** ** Checksum and frame construction *)

Lemma c_uint8_mod v : c_uint8 v = v mod 256.
Proof. unfold c_uint8. change 0xff with (Z.ones 8). by rewrite Z.land_ones. Qed.

Lemma c_uint8_is_byte v : is_byte (c_uint8 v) = true.
Proof.
  rewrite c_uint8_mod. unfold is_byte.
  pose proof (Z.mod_pos_bound v 256). apply andb_true_iff. split.
  - apply Z.leb_le. lia.
  - apply Z.ltb_lt. lia.
Qed.

Lemma checksum_is_byte values : is_byte (checksum values) = true.
Proof. apply c_uint8_is_byte. Qed.

Lemma is_byte_range v : is_byte v = true <-> 0 <= v < 256.
Proof. unfold is_byte. rewrite andb_true_iff, Z.leb_le, Z.ltb_lt. tauto. Qed.

Lemma build_payload_bytes command kw :
  is_byte command = true -> params_are_bytes kw = true ->
  build_payload command kw
  = Ok (payload_body command kw ++ [checksum (payload_body command kw)]).
Proof.
  intros Hc Hkw. unfold build_payload, bytearray.
  fold (payload_body command kw).
  assert (Hall : forallb is_byte
            (payload_body command kw ++ [checksum (payload_body command kw)])
          = true).
  { rewrite forallb_app. apply andb_true_iff. split.
    - unfold params_are_bytes in Hkw. cbn [seq forallb] in Hkw.
      unfold payload_body. cbn [forallb]. rewrite Hc. exact Hkw.
    - cbn [forallb]. by rewrite checksum_is_byte. }
  by rewrite Hall.
Qed.

Lemma from_payload_valid body :
  length body = 16%nat ->
  from_payload (body ++ [checksum body]) = dispatch (body ++ [checksum body]).
Proof.
  intros Hlen. unfold from_payload.
  rewrite length_app, Hlen. cbn [length Nat.add Nat.eqb negb].
  unfold getitem at 1.
  rewrite lookup_app_r by lia. rewrite Hlen. cbn [obind Nat.sub lookup list_lookup].
  rewrite take_app_length' by done.
  by rewrite Z.eqb_refl.
Qed.

(** Passing the two assertions is not yet a parsed payload: the frame
    built for the [STATUS] command passes both, and the command dispatch
    then raises [NotImplementedError], the reserved case of the parser. *)
Lemma from_payload_build_STATUS_fails :
  is_byte STATUS = true /\ params_are_bytes ∅ = true /\
  exists frame,
    build_payload STATUS ∅ = Ok frame /\
    from_payload frame = Raise NotImplementedError.
Proof. repeat split. eexists. split; reflexivity. Qed.

(** C9: the checksum of any sequence is [(0x55 - sum) mod 256]; for every
    command byte and parameter bytes [build_payload] returns a frame of
    exactly 17 bytes whose last byte is the checksum of the first 16, and
    on that frame [from_payload] succeeds in the sense of the claim: the
    frame passes the length and the checksum assertion, so that the result
    of the parser is that of its command dispatch. *)
Theorem checksum_build_payload_valid (values : list Z) (command : Z)
    (kw : gmap nat Z) :
  is_byte command = true -> params_are_bytes kw = true ->
  checksum values = (0x55 - sum values) mod 256 /\
  exists frame,
    build_payload command kw = Ok frame /\
    length frame = 17%nat /\
    frame !! 16%nat = Some (checksum (take 16 frame)) /\
    from_payload frame = dispatch frame.
Proof.
  intros Hc Hkw. split; [apply c_uint8_mod |].
  eexists. split; [by apply build_payload_bytes |].
  assert (Hlen : length (payload_body command kw) = 16%nat) by reflexivity.
  split; [by rewrite length_app, Hlen |]. split.
  - rewrite take_app_length' by done.
    rewrite lookup_app_r by (rewrite Hlen; lia). by rewrite Hlen.
  - by apply from_payload_valid.
Qed.

Lemma checksum_build_payload_valid_witness :
  checksum [1; 2; 3] = (0x55 - sum [1; 2; 3]) mod 256 /\
  exists frame,
    build_payload RESTORE ∅ = Ok frame /\
    length frame = 17%nat /\
    frame !! 16%nat = Some (checksum (take 16 frame)) /\
    from_payload frame = dispatch frame.
Proof.
  apply (checksum_build_payload_valid [1; 2; 3] RESTORE ∅); reflexivity.
Defined.

(** ** DPI encoding *)

Lemma dpi_raw_to_int_packed r f :
  0 <= r < 256 -> 0 <= f <= 3 ->
  dpi_raw_to_int [r; r; Z.lor (Z.shiftl f 2) (Z.shiftl f 6)]
  = Ok ((r + 1) * 50 + f * 12800).
Proof.
  intros Hr Hf. apply is_byte_range in Hr.
  assert (Hcases : f = 0 \/ f = 1 \/ f = 2 \/ f = 3) by lia.
  unfold dpi_raw_to_int, bytearray.
  destruct Hcases as [-> | [-> | [-> | ->]]];
    match goal with
    | |- context [Z.lor ?a ?b] =>
        let v := eval vm_compute in (Z.lor a b) in change (Z.lor a b) with v
    end;
    cbn [forallb]; rewrite Hr;
    match goal with
    | |- context [is_byte ?c && true] => change (is_byte c && true) with true
    end;
    cbn [andb obind]; rewrite Z.eqb_refl; reflexivity.
Qed.

Lemma dpi_int_to_raw_packed d :
  50 <= d <= 26000 -> d mod 50 = 0 ->
  dpi_int_to_raw d
  = Ok [ (d / 50 - 1) mod 256; (d / 50 - 1) mod 256;
         Z.lor (Z.shiftl ((d / 50 - 1) / 256) 2)
               (Z.shiftl ((d / 50 - 1) / 256) 6) ].
Proof.
  intros Hd Hrem. unfold dpi_int_to_raw, DPI_MIN, DPI_MAX.
  replace ((50 <=? d) && (d <=? 26000)) with true
    by (symmetry; apply andb_true_iff; split; apply Z.leb_le; lia).
  rewrite Hrem. cbn [negb Z.eqb].
  assert (Hr : is_byte ((d / 50 - 1) mod 256) = true)
    by (apply is_byte_range; Z.div_mod_to_equations; lia).
  assert (Hf : (d / 50 - 1) / 256 = 0 \/ (d / 50 - 1) / 256 = 1
               \/ (d / 50 - 1) / 256 = 2)
    by (Z.div_mod_to_equations; lia).
  unfold bytearray. cbn [forallb]. rewrite Hr.
  destruct Hf as [Hf | [Hf | Hf]]; rewrite Hf; reflexivity.
Qed.

(** C2: on every multiple of 50 between 50 and 26000 the encoder returns
    the three bytes [factor50, factor50, (factor12800<<2)|(factor12800<<6)]
    with [q = d/50 - 1], [factor12800 = q div 256], [factor50 = q mod 256],
    and decoding them gives the value back. *)
Theorem dpi_roundtrip (d : Z) :
  50 <= d <= 26000 -> d mod 50 = 0 ->
  let q := d / 50 - 1 in
  let factor12800 := q / 256 in
  let factor50 := q mod 256 in
  dpi_int_to_raw d
  = Ok [ factor50; factor50;
         Z.lor (Z.shiftl factor12800 2) (Z.shiftl factor12800 6) ]
  /\ (try! raw := dpi_int_to_raw d in dpi_raw_to_int raw) = Ok d.
Proof.
  intros Hd Hrem q factor12800 factor50.
  rewrite dpi_int_to_raw_packed by done. split; [done |].
  cbn [obind].
  rewrite dpi_raw_to_int_packed by (Z.div_mod_to_equations; lia).
  f_equal. Z.div_mod_to_equations. lia.
Qed.

Lemma dpi_roundtrip_witness :
  dpi_int_to_raw 12850 = Ok [0; 0; 0x44]
  /\ (try! raw := dpi_int_to_raw 12850 in dpi_raw_to_int raw) = Ok 12850.
Proof. apply (dpi_roundtrip 12850); [lia | reflexivity]. Defined.

(** C7: the encoder raises the bare [ValueError] (out of range) below 50
    and above 26000, the [ValueError] with the multiple-of-50 message on
    every value in range that 50 does not divide, and returns on every
    multiple of 50 in range; the four boundary cases of the spec. *)
Theorem dpi_int_to_raw_domain (dpi : Z) :
  (dpi < 50 \/ 26000 < dpi -> dpi_int_to_raw dpi = Raise (ValueError None))
  /\ (50 <= dpi <= 26000 -> dpi mod 50 <> 0 ->
      dpi_int_to_raw dpi
      = Raise (ValueError (Some "DPI must be multiple of 50"%string)))
  /\ (50 <= dpi <= 26000 -> dpi mod 50 = 0 ->
      exists raw, dpi_int_to_raw dpi = Ok raw)
  /\ dpi_int_to_raw 50 = Ok [0x00; 0x00; 0x00]
  /\ (exists raw, dpi_int_to_raw 26000 = Ok raw)
  /\ dpi_int_to_raw 49 = Raise (ValueError None)
  /\ dpi_int_to_raw 75
     = Raise (ValueError (Some "DPI must be multiple of 50"%string)).
Proof.
  split; [| split; [| split]].
  - intros Hout. unfold dpi_int_to_raw, DPI_MIN, DPI_MAX.
    replace ((50 <=? dpi) && (dpi <=? 26000)) with false; [done |].
    symmetry. apply andb_false_iff.
    destruct Hout; [left; apply Z.leb_gt | right; apply Z.leb_gt]; lia.
  - intros Hin Hrem. unfold dpi_int_to_raw, DPI_MIN, DPI_MAX.
    replace ((50 <=? dpi) && (dpi <=? 26000)) with true
      by (symmetry; apply andb_true_iff; split; apply Z.leb_le; lia).
    apply Z.eqb_neq in Hrem. by rewrite Hrem.
  - intros Hin Hrem. eexists. by apply dpi_int_to_raw_packed.
  - repeat split; try reflexivity. by eexists.
Qed.

(** C10: the decoder accepts [0xff, 0xff, 0xcc] and returns 51200, above
    the upper bound of the encoder, so encoding the decoded value raises
    the out-of-range [ValueError] instead of giving the raw bytes back. *)
Theorem dpi_raw_to_int_unbounded :
  dpi_raw_to_int [0xff; 0xff; 0xcc] = Ok 51200
  /\ DPI_MAX < 51200
  /\ dpi_int_to_raw 51200 = Raise (ValueError None)
  /\ exists raw d,
       dpi_raw_to_int raw = Ok d /\ DPI_MAX < d
       /\ (try! d' := dpi_raw_to_int raw in dpi_int_to_raw d')
          = Raise (ValueError None).
Proof.
  repeat split.
  exists [0xff; 0xff; 0xcc], 51200. repeat split.
Qed.

(** ** Payload classes and the parser *)

Lemma bytes_eqb_refl a : bytes_eqb a a = true.
Proof. unfold bytes_eqb. by apply bool_decide_eq_true_2. Qed.

Lemma bytes_eqb_neq a b : a <> b -> bytes_eqb a b = false.
Proof. unfold bytes_eqb. apply bool_decide_eq_false_2. Qed.

Lemma build_payload_cases command kw :
  build_payload command kw
  = if is_byte command && params_are_bytes kw
    then Ok (payload_body command kw ++ [checksum (payload_body command kw)])
    else Raise (ValueError None).
Proof.
  unfold build_payload, bytearray. fold (payload_body command kw).
  rewrite forallb_app. cbn [forallb]. rewrite checksum_is_byte.
  rewrite !andb_true_r. reflexivity.
Qed.

(** Frames with [index05=0x01] and [index06=profile], as the two profile
    payloads build them. *)
Lemma params_profile (P : Z -> bool) profile :
  P 0 = true -> P 1 = true ->
  forallb (fun i => P (kwarg (<[5%nat := 0x01]> (<[6%nat := profile]> ∅)) i))
          (seq 2 14) = P profile.
Proof.
  intros H0 H1. vm_compute. rewrite ?H0, ?H1. by destruct (P profile).
Qed.

Lemma build_payload_profile (command : Command) profile :
  build_payload command (<[5%nat := 0x01]> (<[6%nat := profile]> ∅))
  = if is_byte profile
    then
      let body :=
        [8; Command_value command; 0; 0; 0; 1; profile;
         0; 0; 0; 0; 0; 0; 0; 0; 0] in
      Ok (body ++ [checksum body])
    else Raise (ValueError None).
Proof.
  rewrite build_payload_cases. unfold params_are_bytes.
  rewrite params_profile by done.
  replace (is_byte command) with true by (by destruct command).
  reflexivity.
Qed.

(** Decide the comparisons of a known command byte in [dispatch]. *)
Ltac decide_command :=
  repeat match goal with
  | |- context [Z.eqb ?a (Command_value ?c)] =>
      let v := eval vm_compute in (Z.eqb a (Command_value c)) in
      change (Z.eqb a (Command_value c)) with v; cbv iota
  end.

(** Replace [from_payload] on a frame that ends in its own checksum by the
    command dispatch. *)
Ltac pass_assertions :=
  match goal with
  | |- context [checksum ?b] =>
      etrans; [exact (from_payload_valid b eq_refl) |]
  end.

Lemma SetActiveProfilePayload_roundtrip profile frame :
  SetActiveProfilePayload_init profile = Ok (SetActiveProfilePayload frame) ->
  length frame = 17%nat /\
  from_payload frame = Ok (SetActiveProfilePayload frame).
Proof.
  intros Hinit. pose proof Hinit as Hframe. revert Hframe.
  unfold SetActiveProfilePayload_init at 1. rewrite build_payload_profile.
  destruct (is_byte profile); cbn [obind]; [| done].
  intros [= <-]. split; [done |].
  pass_assertions. unfold dispatch. cbn [getitem app lookup list_lookup obind].
  decide_command.
  unfold SetActiveProfilePayload_from_payload.
  cbn [getitem lookup list_lookup obind].
  rewrite Hinit. cbn [obind Payload_payload].
  by rewrite bytes_eqb_refl.
Qed.

Lemma CurrentActiveProfilePayload_roundtrip profile frame :
  CurrentActiveProfilePayload_init profile
  = Ok (CurrentActiveProfilePayload frame) ->
  length frame = 17%nat /\
  from_payload frame = Ok (CurrentActiveProfilePayload frame).
Proof.
  intros Hinit. pose proof Hinit as Hframe. revert Hframe.
  unfold CurrentActiveProfilePayload_init at 1. rewrite build_payload_profile.
  destruct (is_byte profile); cbn [obind]; [| done].
  intros [= <-]. split; [done |].
  pass_assertions. unfold dispatch. cbn [getitem app lookup list_lookup obind].
  decide_command.
  change (Payload_payload RequestActiveProfilePayload)
    with (Ok [8; 14; 0; 0; 0; 0; 0; 0; 0; 0; 0; 0; 0; 0; 0; 0; 0x3f]).
  cbn [obind]. rewrite bytes_eqb_neq by discriminate.
  unfold CurrentActiveProfilePayload_from_payload.
  cbn [getitem lookup list_lookup obind].
  rewrite Hinit. cbn [obind Payload_payload].
  by rewrite bytes_eqb_refl.
Qed.

(** C8: every instance of a payload class serializes to a frame of 17
    bytes that the generic parser turns back into an equal instance; the
    [SetActiveProfilePayload] of profile 3 serializes to
    [08 0f 00 00 00 01 03 00 ... 00 checksum] and parses back to an instance
    with profile 3. *)
Theorem payload_roundtrip (v : Payload) :
  constructed v ->
  (exists frame v',
     Payload_bytes v = Ok frame /\ length frame = 17%nat /\
     from_payload frame = Ok v' /\ v' = v /\ Payload_eq v' v = Ok true)
  /\ (exists frame v3,
        SetActiveProfilePayload_init 3 = Ok v3 /\
        Payload_bytes v3 = Ok frame /\
        frame = [0x08; 0x0f; 0; 0; 0; 1; 3; 0; 0; 0; 0; 0; 0; 0; 0; 0;
                 checksum [0x08; 0x0f; 0; 0; 0; 1; 3; 0; 0; 0; 0; 0; 0; 0;
                           0; 0]] /\
        from_payload frame = Ok v3 /\ Payload_profile v3 = Ok 3).
Proof.
  intros Hv. split.
  - destruct v as [| | frame | frame | [] |]; cbn in Hv.
    + eexists _, _. repeat split.
    + eexists _, _. repeat split.
    + destruct Hv as [profile Hinit].
      destruct (SetActiveProfilePayload_roundtrip _ _ Hinit) as [Hlen Hparse].
      exists frame, (SetActiveProfilePayload frame).
      repeat split; try done.
      unfold Payload_eq. cbn [Payload_payload obind].
      by rewrite bytes_eqb_refl.
    + destruct Hv as [profile Hinit].
      destruct (CurrentActiveProfilePayload_roundtrip _ _ Hinit)
        as [Hlen Hparse].
      exists frame, (CurrentActiveProfilePayload frame).
      repeat split; try done.
      unfold Payload_eq. cbn [Payload_payload obind].
      by rewrite bytes_eqb_refl.
    + eexists _, _. repeat split.
    + eexists _, _. repeat split.
    + eexists _, _. repeat split.
    + eexists _, _. repeat split.
  - eexists _, _. repeat split.
Qed.

Lemma payload_roundtrip_witness :
  exists frame v',
    Payload_bytes
      (SetActiveProfilePayload
         [8; 15; 0; 0; 0; 1; 3; 0; 0; 0; 0; 0; 0; 0; 0; 0; 58]) = Ok frame /\
    length frame = 17%nat /\ from_payload frame = Ok v' /\
    v' = SetActiveProfilePayload
           [8; 15; 0; 0; 0; 1; 3; 0; 0; 0; 0; 0; 0; 0; 0; 0; 58] /\
    Payload_eq v'
      (SetActiveProfilePayload
         [8; 15; 0; 0; 0; 1; 3; 0; 0; 0; 0; 0; 0; 0; 0; 0; 58]) = Ok true.
Proof.
  apply (payload_roundtrip
           (SetActiveProfilePayload
              [8; 15; 0; 0; 0; 1; 3; 0; 0; 0; 0; 0; 0; 0; 0; 0; 58])).
  exists 3. reflexivity.
Defined.

(** ** Reading replies *)

Lemma read_loop_skip {A} (body : list Z -> outcome (option A)) pre frames :
  Forall (fun f => body f = Ok None) pre ->
  read_loop body (pre ++ frames) = read_loop body frames.
Proof.
  induction 1 as [| f pre Hf _ IH]; [done |].
  cbn [app read_loop]. by rewrite Hf.
Qed.

Lemma read_command_skips command self pre reply rest :
  incoming (dev self) = pre ++ reply :: rest ->
  Forall (fun f => exists c, f !! 1%nat = Some c /\ c <> command) pre ->
  reply !! 1%nat = Some command ->
  on_dev (read_command command) self
  = (Ok reply,
     {| dev := {| written := written (dev self); incoming := rest |};
        settings := settings self; _profile := _profile self |}).
Proof.
  intros Hin Hpre Hreply.
  unfold on_dev, read_command, Device_read_loop. rewrite Hin.
  rewrite read_loop_skip.
  - cbn [read_loop]. unfold getitem. rewrite Hreply. cbn [obind].
    by rewrite Z.eqb_refl.
  - eapply Forall_impl; [exact Hpre |].
    intros f (c & Hc & Hne). unfold getitem. rewrite Hc. cbn [obind].
    apply Z.eqb_neq in Hne. by rewrite Hne.
Qed.

Lemma parse_power_details_fields data percentage flag hi lo :
  data !! 6%nat = Some percentage -> data !! 7%nat = Some flag ->
  data !! 8%nat = Some hi -> data !! 9%nat = Some lo ->
  parse_power_details data
  = try! connected := bool_to_int flag in
    Ok {| battery_percentage := percentage;
          battery_millivoltage := hi * 256 + lo;
          power_connected := connected |}.
Proof.
  intros H6 H7 H8 H9. unfold parse_power_details, getitem.
  rewrite H6, H7. cbn [obind].
  do 10 (destruct data as [| ? data]; [done |]).
  cbn in H8, H9. injection H8 as ->. injection H9 as ->.
  reflexivity.
Qed.

(** C6 (as stated, refuted): the only frame of the stream is a [POWER]
    frame whose byte 7 is 2; [get_power] raises [ValueError] instead of
    returning power details. *)
Lemma get_power_flag_2_raises :
  let reply := [8; 4; 0; 0; 0; 0; 87; 2; 0x0f; 0xa0; 0; 0; 0; 0; 0; 0; 0x41] in
  let self := PulsarX2V2Mini_init {| written := []; incoming := [reply] |} in
  length reply = 17%nat /\
  reply !! 16%nat = Some (checksum (take 16 reply)) /\
  reply !! 1%nat = Some (Command_value POWER) /\
  fst (get_power self) = Raise (ValueError None).
Proof. cbv zeta. repeat split; reflexivity. Qed.

(** C6 (amended): when the first frame with command byte [POWER] comes
    after finitely many frames with other command bytes, [get_power] drops
    those frames and its result is that of parsing the [POWER] frame: for
    a 17-byte frame whose byte 7 is 0 or 1, the power details with the
    percentage from byte 6, the connected flag from byte 7 and the
    millivoltage from bytes 8 and 9 in big-endian order; for any other
    byte 7, [ValueError]. *)
Theorem get_power_discards (self : PulsarX2V2Mini)
    (pre : list (list Z)) (reply : list Z) (rest : list (list Z)) :
  incoming (dev self) = pre ++ reply :: rest ->
  Forall (fun f => exists c : Z, f !! 1%nat = Some c /\ c <> POWER) pre ->
  reply !! 1%nat = Some (Command_value POWER) ->
  length reply = 17%nat ->
  exists request percentage flag hi lo,
    build_payload POWER ∅ = Ok request /\
    reply !! 6%nat = Some percentage /\ reply !! 7%nat = Some flag /\
    reply !! 8%nat = Some hi /\ reply !! 9%nat = Some lo /\
    get_power self
    = (if bool_decide (flag = 0 \/ flag = 1) then
         Ok {| battery_percentage := percentage;
               battery_millivoltage := hi * 256 + lo;
               power_connected := bool_decide (flag = 1) |}
       else Raise (ValueError None),
       {| dev := {| written := written (dev self) ++ [request];
                    incoming := rest |};
          settings := settings self; _profile := _profile self |}).
Proof.
  intros Hin Hpre Hreply Hlen.
  destruct (lookup_lt_is_Some_2 reply 6) as [percentage H6]; [lia |].
  destruct (lookup_lt_is_Some_2 reply 7) as [flag H7]; [lia |].
  destruct (lookup_lt_is_Some_2 reply 8) as [hi H8]; [lia |].
  destruct (lookup_lt_is_Some_2 reply 9) as [lo H9]; [lia |].
  eexists _, percentage, flag, hi, lo.
  split; [reflexivity |]. do 4 (split; [done |]).
  unfold get_power.
  change (build_payload POWER ∅)
    with (Ok [8; 4; 0; 0; 0; 0; 0; 0; 0; 0; 0; 0; 0; 0; 0; 0; 0x49]).
  unfold bind at 1. cbn [lift]. unfold bind at 1.
  cbn [on_dev Device_write dev settings _profile].
  unfold bind.
  erewrite read_command_skips; [| exact Hin | exact Hpre | exact Hreply].
  cbn [lift dev settings _profile written incoming].
  rewrite (parse_power_details_fields _ _ _ _ _ H6 H7 H8 H9).
  unfold bool_to_int. f_equal.
  destruct (Z.eqb_spec flag 0) as [-> | H0]; [done |].
  destruct (Z.eqb_spec flag 1) as [-> | H1]; [done |].
  rewrite bool_decide_eq_false_2 by lia. done.
Qed.

Lemma get_power_discards_witness :
  let event := [8; 10; 0; 0; 0; 10; 4; 0; 0; 0; 0; 0; 0; 0; 0; 0; 0x35] in
  let reply := [8; 4; 0; 0; 0; 0; 87; 1; 0x0f; 0xa0; 0; 0; 0; 0; 0; 0; 0x42] in
  let self :=
    PulsarX2V2Mini_init {| written := []; incoming := [event; reply] |} in
  exists request percentage flag hi lo,
    build_payload POWER ∅ = Ok request /\
    reply !! 6%nat = Some percentage /\ reply !! 7%nat = Some flag /\
    reply !! 8%nat = Some hi /\ reply !! 9%nat = Some lo /\
    get_power self
    = (if bool_decide (flag = 0 \/ flag = 1) then
         Ok {| battery_percentage := percentage;
               battery_millivoltage := hi * 256 + lo;
               power_connected := bool_decide (flag = 1) |}
       else Raise (ValueError None),
       {| dev := {| written := written (dev self) ++ [request];
                    incoming := [] |};
          settings := settings self; _profile := _profile self |}).
Proof.
  intros event reply self.
  apply (get_power_discards self [event] reply []).
  - reflexivity.
  - repeat constructor. exists 10. split; [reflexivity | discriminate].
  - reflexivity.
  - reflexivity.
Defined.

(** ** Frames written by the profile accessors *)

Lemma appends_bind {A B} (m : M PulsarX2V2Mini A) (k : A -> M PulsarX2V2Mini B) :
  appends m -> (forall a, appends (k a)) -> appends (bind m k).
Proof.
  intros Hm Hk self. unfold bind. destruct (Hm self) as [tail1 H1].
  destruct (m self) as [[a | e |] self1]; cbn [snd] in *; [| by eauto..].
  destruct (Hk a self1) as [tail2 H2]. exists (tail1 ++ tail2).
  by rewrite H2, H1, app_assoc.
Qed.

Lemma appends_lift {A} (o : outcome A) : appends (lift o).
Proof. intros self. exists []. by rewrite app_nil_r. Qed.

Lemma appends_raise {A} e : appends (@raise PulsarX2V2Mini A e).
Proof. intros self. exists []. by rewrite app_nil_r. Qed.

Lemma appends_set__profile value : appends (set__profile value).
Proof. intros self. exists []. by rewrite app_nil_r. Qed.

Lemma appends_get__profile : appends get__profile.
Proof. intros self. exists []. by rewrite app_nil_r. Qed.

Lemma appends_write payload : appends (on_dev (Device_write payload)).
Proof. intros self. by exists [payload]. Qed.

Lemma appends_write_payload inst : appends (on_dev (Device_write_payload inst)).
Proof.
  intros self. unfold on_dev, Device_write_payload, bind, lift.
  destruct (Payload_bytes inst) as [payload | e |].
  - by exists [payload].
  - exists []. by rewrite app_nil_r.
  - exists []. by rewrite app_nil_r.
Qed.

Lemma appends_read_loop {A} (body : list Z -> outcome (option A)) :
  appends (on_dev (Device_read_loop body)).
Proof.
  intros self. unfold on_dev, Device_read_loop.
  destruct (read_loop body (incoming (dev self))) as [r rest].
  exists []. by rewrite app_nil_r.
Qed.

Lemma appends_profile_set value : appends (profile_set value).
Proof.
  unfold profile_set.
  apply appends_bind; [apply appends_lift | intros inst].
  apply appends_bind; [apply appends_write_payload | intros _].
  apply appends_bind; [apply appends_read_loop | intros resp].
  apply appends_bind; [apply appends_lift | intros resp_profile].
  apply appends_bind; [apply appends_lift | intros inst_profile].
  destruct (negb _); [apply appends_raise | apply appends_set__profile].
Qed.

(** [read_profile] starts by writing the [ACTIVE_PROFILE_GET] request. *)
Lemma read_profile_writes_request self :
  exists r self' tail,
    (run! read_profile in get__profile) self = (r, self') /\
    written (dev self')
    = written (dev self) ++ ACTIVE_PROFILE_GET_request :: tail.
Proof.
  pose (k := do! resp := on_dev (Device_read_expect is_CurrentActiveProfilePayload) in
             do! profile := lift (Payload_profile resp) in
             profile_set profile).
  assert (Hk : appends (run! k in get__profile)).
  { apply appends_bind; [| intros _; apply appends_get__profile].
    apply appends_bind; [apply appends_read_loop | intros resp].
    apply appends_bind; [apply appends_lift | intros profile].
    apply appends_profile_set. }
  pose (self1 := {| dev := {| written := written (dev self)
                                         ++ [ACTIVE_PROFILE_GET_request];
                              incoming := incoming (dev self) |};
                    settings := settings self; _profile := _profile self |}).
  assert (Hstep : (run! read_profile in get__profile) self
                  = (run! k in get__profile) self1) by reflexivity.
  destruct (Hk self1) as [tail Htail].
  destruct ((run! k in get__profile) self1) as [r self'] eqn:Hrun.
  exists r, self', tail. split; [by rewrite Hstep |].
  cbn [snd] in Htail. rewrite Htail. cbn [self1 dev written].
  by rewrite <- app_assoc.
Qed.

(** ** Restore *)

(** C1 (as stated, refuted): the device echoes the [RESTORE] request and
    [restore] succeeds, but the cached profile 2 is still cached: the next
    profile access returns it without any frame being written, and the next
    settings access raises [KeyError], again without any frame written. *)
Lemma restore_keeps_cached_profile :
  let request := [8; 9; 0; 0; 0; 0; 0; 0; 0; 0; 0; 0; 0; 0; 0; 0; 0x44] in
  let self := {| dev := {| written := []; incoming := [request] |};
                 settings := {[ ADDR_DPI_MODE := 1 ]};
                 _profile := Some 2 |} in
  build_payload RESTORE ∅ = Ok request /\
  exists self',
    restore self = (Ok tt, self') /\
    _profile self' = Some 2 /\ _profile self' <> None /\
    profile_get self' = (Ok (Some 2), self') /\
    dpi_mode_get self' = (Raise KeyError, self') /\
    written (dev self') = [request].
Proof.
  cbv zeta. split; [reflexivity |].
  eexists. split; [reflexivity |]. repeat split. discriminate.
Qed.

(** C1 (amended): when the device echoes the [RESTORE] request, [restore]
    succeeds, empties the settings mirror and leaves the cached profile as
    it was.  Afterwards every getter that looks a value up in the mirror
    ([polling_rate], [dpi_mode], [lod_mm], [debounce_time], [motion_sync],
    [lod_ripple], [angle_snapping], [led_effect], [led_brightness],
    [led_breathe_speed], [autosleep_time], [led_enabled],
    [dpi_mode_count], [dpi], [led_color], and [get_dpi] for a mode from -4
    to 3) raises [KeyError] without touching the device, and
    [get_led_color], which does not look at the mirror, returns without
    touching the device.  The profile getter returns a cached profile
    without touching the device; it reads the profile from the device only
    when none was cached before the restore. *)
Theorem restore_clears_settings (self : PulsarX2V2Mini)
    (request : list Z) (rest : list (list Z)) :
  build_payload RESTORE ∅ = Ok request ->
  incoming (dev self) = request :: rest ->
  let self' := {| dev := {| written := written (dev self) ++ [request];
                            incoming := rest |};
                  settings := ∅;
                  _profile := _profile self |} in
  restore self = (Ok tt, self') /\
  dpi_mode_get self' = (Raise KeyError, self') /\
  led_brightness_get self' = (Raise KeyError, self') /\
  (forall p, _profile self = Some p ->
             profile_get self' = (Ok (Some p), self')) /\
  (_profile self = None ->
   exists r self'' tail,
     profile_get self' = (r, self'') /\
     written (dev self'')
     = written (dev self') ++ ACTIVE_PROFILE_GET_request :: tail) /\
  polling_rate_get self' = (Raise KeyError, self') /\
  lod_mm_get self' = (Raise KeyError, self') /\
  debounce_time_get self' = (Raise KeyError, self') /\
  motion_sync_get self' = (Raise KeyError, self') /\
  lod_ripple_get self' = (Raise KeyError, self') /\
  angle_snapping_get self' = (Raise KeyError, self') /\
  led_effect_get self' = (Raise KeyError, self') /\
  led_breathe_speed_get self' = (Raise KeyError, self') /\
  autosleep_time_get self' = (Raise KeyError, self') /\
  led_enabled_get self' = (Raise KeyError, self') /\
  dpi_mode_count_get self' = (Raise KeyError, self') /\
  dpi_get self' = (Raise KeyError, self') /\
  led_color_get self' = (Raise KeyError, self') /\
  (forall mode, -4 <= mode < 4 ->
     get_dpi mode self' = (Raise KeyError, self') /\
     exists color, get_led_color mode self' = (Ok color, self')).
Proof.
  intros Hreq Hin self'. split; [| split; [| split; [| split; [| split]]]].
  - unfold restore. rewrite Hreq.
    unfold bind at 1. cbn [lift]. unfold bind at 1.
    cbn [on_dev Device_write dev settings _profile].
    unfold bind, on_dev, Device_read, Device_read_loop.
    cbn [dev written incoming settings _profile]. rewrite Hin.
    cbn [read_loop]. by rewrite bytes_eqb_refl.
  - reflexivity.
  - reflexivity.
  - intros p Hp. unfold profile_get, bind, get__profile.
    subst self'. cbn [_profile]. by rewrite Hp.
  - intros Hp.
    destruct (read_profile_writes_request self') as (r & self'' & tail & Hrun & Hw).
    exists r, self'', tail. split; [| done]. rewrite <- Hrun.
    unfold profile_get. unfold bind at 1. unfold get__profile at 1.
    subst self'. cbn [_profile]. by rewrite Hp.
  - do 13 (split; [reflexivity |]).
    intros mode Hmode.
    assert (Hcases : mode = -4 \/ mode = -3 \/ mode = -2 \/ mode = -1
                     \/ mode = 0 \/ mode = 1 \/ mode = 2 \/ mode = 3) by lia.
    repeat (destruct Hcases as [-> | Hcases];
            [split; [reflexivity | eexists; reflexivity] |]).
    subst mode. split; [reflexivity | eexists; reflexivity].
Qed.

Lemma restore_clears_settings_witness :
  let request := [8; 9; 0; 0; 0; 0; 0; 0; 0; 0; 0; 0; 0; 0; 0; 0; 0x44] in
  let self := {| dev := {| written := []; incoming := [request] |};
                 settings := {[ ADDR_DPI_MODE := 1 ]};
                 _profile := Some 2 |} in
  restore self
  = (Ok tt, {| dev := {| written := [request]; incoming := [] |};
               settings := ∅; _profile := Some 2 |}).
Proof.
  intros request self.
  apply (restore_clears_settings self request []); reflexivity.
Defined.

(** ** LED brightness *)

(** C3: the setter raises [ValueError] on every value inside
    [LED_BRIGHTNESS_MIN, LED_BRIGHTNESS_MAX], before [_mem_set] is reached:
    nothing is written and the mirror keeps its value. *)
Theorem led_brightness_set_rejects_in_range (value : Z)
    (self : PulsarX2V2Mini) :
  LED_BRIGHTNESS_MIN <= value <= LED_BRIGHTNESS_MAX ->
  led_brightness_set value self = (Raise (ValueError None), self).
Proof.
  intros [Hmin Hmax]. unfold led_brightness_set.
  apply Z.leb_le in Hmin, Hmax. by rewrite Hmin, Hmax.
Qed.

Lemma led_brightness_set_rejects_in_range_witness :
  let self := PulsarX2V2Mini_init {| written := []; incoming := [] |} in
  led_brightness_set 0x80 self = (Raise (ValueError None), self).
Proof.
  intros self. apply (led_brightness_set_rejects_in_range 0x80 self).
  unfold LED_BRIGHTNESS_MIN, LED_BRIGHTNESS_MAX. lia.
Defined.

(** The sibling setter of [dpi_mode] has the range check the other way
    round: values outside its range are the ones rejected. *)
Lemma dpi_mode_set_rejects_out_of_range value self :
  value < DPI_MODE_MIN \/ DPI_MODE_MAX < value ->
  dpi_mode_set value self = (Raise (ValueError None), self).
Proof.
  intros Hout. unfold dpi_mode_set.
  replace ((DPI_MODE_MIN <=? value) && (value <=? DPI_MODE_MAX)) with false;
    [done |].
  symmetry. apply andb_false_iff.
  destruct Hout; [left | right]; apply Z.leb_gt; lia.
Qed.

(** ** Writing settings *)

Lemma foldl_min_elem k ks : foldl Z.min k ks ∈ k :: ks.
Proof.
  revert k. induction ks as [| a ks IH]; intros k; cbn [foldl].
  - by left.
  - pose proof (IH (Z.min k a)) as Hin.
    apply elem_of_cons in Hin as [Hin | Hin]; rewrite ?Hin.
    + destruct (Z.min_spec k a) as [[_ ->] | [_ ->]]; set_solver.
    + set_solver.
Qed.

Lemma foldl_min_le_init k ks : foldl Z.min k ks <= k.
Proof.
  revert k. induction ks as [| a ks IH]; intros k; cbn [foldl]; [lia |].
  specialize (IH (Z.min k a)). lia.
Qed.

Lemma foldl_min_le k ks x : x ∈ k :: ks -> foldl Z.min k ks <= x.
Proof.
  revert k. induction ks as [| a ks IH]; intros k Hx; cbn [foldl].
  - apply list_elem_of_singleton in Hx. lia.
  - pose proof (foldl_min_le_init (Z.min k a) ks).
    apply elem_of_cons in Hx as [-> | Hx]; [lia |].
    apply elem_of_cons in Hx as [-> | Hx]; [lia |].
    apply IH. by right.
Qed.

Lemma elem_of_keys (m : gmap Z Z) k :
  k ∈ (map_to_list m).*1 <-> is_Some (m !! k).
Proof.
  rewrite list_elem_of_fmap. split.
  - intros ([k' v] & -> & Hkv). apply elem_of_map_to_list in Hkv. by exists v.
  - intros [v Hv]. exists (k, v). split; [done |].
    by apply elem_of_map_to_list.
Qed.

Lemma min_key_spec (m : gmap Z Z) s :
  min_key m = Some s ->
  is_Some (m !! s) /\ forall k, is_Some (m !! k) -> s <= k.
Proof.
  unfold min_key. intros Hmin.
  destruct ((map_to_list m).*1) as [| k ks] eqn:Hkeys; [done |].
  injection Hmin as <-. split.
  - apply elem_of_keys. rewrite Hkeys. apply foldl_min_elem.
  - intros k' Hk'. apply foldl_min_le. rewrite <- Hkeys. by apply elem_of_keys.
Qed.

Lemma min_key_is_Some (m : gmap Z Z) :
  size m <> 0%nat -> is_Some (min_key m).
Proof.
  intros Hsize. unfold min_key.
  destruct ((map_to_list m).*1) as [| k ks] eqn:Hkeys; [| by eexists].
  apply (f_equal length) in Hkeys.
  rewrite length_fmap, length_map_to_list in Hkeys. done.
Qed.

Lemma fill_kwargs_cases addresses pairs kw :
  (exists kw', fill_kwargs addresses pairs kw = Ok kw'
               /\ Forall (fun p => is_Some (addresses !! p.2)) pairs)
  \/ (fill_kwargs addresses pairs kw = Raise KeyError
      /\ Exists (fun p => addresses !! p.2 = None) pairs).
Proof.
  revert kw. induction pairs as [| [index address] pairs IH]; intros kw.
  - left. by exists kw.
  - cbn [fill_kwargs]. destruct (addresses !! address) as [v |] eqn:Hv.
    + destruct (IH (<[index := v]> kw)) as [(kw' & Hkw' & Hall) | [Hraise Hex]].
      * left. exists kw'. split; [done |]. constructor; [by eexists | done].
      * right. split; [done |]. by right.
    + right. split; [done |]. by left.
Qed.

Lemma fill_kwargs_bytes (addresses : gmap Z Z) pairs kw kw' :
  (forall k v, addresses !! k = Some v -> is_byte v = true) ->
  (forall i, is_byte (kwarg kw i) = true) ->
  fill_kwargs addresses pairs kw = Ok kw' ->
  forall i, is_byte (kwarg kw' i) = true.
Proof.
  intros Hvalues. revert kw.
  induction pairs as [| [index address] pairs IH]; intros kw Hkw Hfill.
  - by injection Hfill as <-.
  - cbn [fill_kwargs] in Hfill.
    destruct (addresses !! address) as [v |] eqn:Hv; [| done].
    apply (IH (<[index := v]> kw)); [| done].
    intros i. unfold kwarg. destruct (decide (index = i)) as [-> | Hne].
    + rewrite lookup_insert_eq. cbn. by eapply Hvalues.
    + rewrite lookup_insert_ne by done. apply Hkw.
Qed.

Lemma params_are_bytes_intro kw :
  (forall i, is_byte (kwarg kw i) = true) -> params_are_bytes kw = true.
Proof. intros Hkw. unfold params_are_bytes. apply forallb_forall. auto. Qed.

(** The keys of a map of [n <= 10] entries of which every address of
    [range s n] is one are exactly those addresses. *)
Lemma keys_are_range (addresses : gmap Z Z) s :
  (size addresses <= 10)%nat ->
  Forall (fun p : nat * Z => is_Some (addresses !! p.2))
         (zip indexes (range s (size addresses))) ->
  forall k, is_Some (addresses !! k) <-> s <= k < s + Z.of_nat (size addresses).
Proof.
  intros Hsize Hall.
  assert (Hrange : Forall (fun a => is_Some (addresses !! a))
                          (range s (size addresses))).
  { rewrite <- (snd_zip indexes (range s (size addresses))).
    - by apply Forall_fmap.
    - unfold range. rewrite length_seqZ. cbn [indexes length]. lia. }
  assert (Heq : list_to_set (range s (size addresses)) = dom addresses).
  { apply set_subseteq_size_eq.
    - intros a Ha. apply elem_of_list_to_set in Ha. apply elem_of_dom.
      by eapply Forall_forall in Hrange.
    - rewrite size_dom, size_list_to_set by apply NoDup_seqZ.
      unfold range. rewrite length_seqZ. lia. }
  intros k. rewrite <- elem_of_dom, <- Heq, elem_of_list_to_set.
  unfold range. rewrite elem_of_seqZ. lia.
Qed.

Lemma range_keys_present (addresses : gmap Z Z) s :
  (forall k, is_Some (addresses !! k) <-> s <= k < s + Z.of_nat (size addresses)) ->
  Forall (fun p : nat * Z => is_Some (addresses !! p.2))
         (zip indexes (range s (size addresses))).
Proof.
  intros Hkeys. apply Forall_forall. intros [index a] Hin.
  apply elem_of_zip_r in Hin. cbn. apply Hkeys.
  unfold range in Hin. apply elem_of_seqZ in Hin. lia.
Qed.

Lemma is_on_effect self :
  exists r rest,
    is_on self
    = (r, {| dev := {| written := written (dev self) ++ [STATUS_request];
                       incoming := rest |};
             settings := settings self; _profile := _profile self |}).
Proof.
  unfold is_on.
  change (build_payload STATUS ∅) with (Ok STATUS_request).
  unfold bind at 1. cbn [lift]. unfold bind at 1.
  cbn [on_dev Device_write dev settings _profile].
  unfold bind, on_dev, read_command, Device_read_loop.
  cbn [dev written incoming settings _profile].
  destruct (read_loop _ (incoming (dev self))) as [[resp | e |] rest];
    cbn [lift]; eauto.
Qed.

(** [_mem_set] after its length check, step by step. *)
Lemma _mem_set_steps addresses self s :
  (1 <= size addresses <= 10)%nat -> min_key addresses = Some s ->
  _mem_set addresses self
  = match fill_kwargs addresses (zip indexes (range s (size addresses)))
            (<[5%nat := Z.of_nat (size addresses)]> (<[4%nat := s]> ∅)) with
    | Ok kwargs =>
        match build_payload MEM_SET kwargs with
        | Ok payload =>
            match is_on self with
            | (Ok true, self1) =>
                match incoming (dev self1) with
                | resp :: rest =>
                    (Ok tt,
                     {| dev := {| written := written (dev self1) ++ [payload];
                                  incoming := rest |};
                        settings := addresses ∪ settings self1;
                        _profile := _profile self1 |})
                | [] =>
                    (Blocked,
                     {| dev := {| written := written (dev self1) ++ [payload];
                                  incoming := [] |};
                        settings := settings self1;
                        _profile := _profile self1 |})
                end
            | (Ok false, self1) => (Raise AssertionError, self1)
            | (Raise e, self1) => (Raise e, self1)
            | (Blocked, self1) => (Blocked, self1)
            end
        | Raise e => (Raise e, self)
        | Blocked => (Blocked, self)
        end
    | Raise e => (Raise e, self)
    | Blocked => (Blocked, self)
    end.
Proof.
  intros [Hmin Hmax] Hs. unfold _mem_set. rewrite Hs.
  apply Nat.leb_le in Hmin, Hmax. rewrite Hmin, Hmax. cbn [andb negb].
  unfold bind at 1. cbn [lift].
  destruct (fill_kwargs _ _ _) as [kwargs | e |]; [| done | done].
  unfold bind at 1. cbn [lift].
  destruct (build_payload MEM_SET kwargs) as [payload | e |]; [| done | done].
  unfold bind at 1.
  destruct (is_on self) as [[[] | e |] self1]; [| done | done | done].
  cbn [negb]. unfold bind, on_dev, Device_write, Device_read, Device_read_loop.
  cbn [dev written incoming settings _profile].
  by destruct (incoming (dev self1)).
Qed.

Lemma build_payload_command command kw payload :
  build_payload command kw = Ok payload -> payload !! 1%nat = Some command.
Proof.
  rewrite build_payload_cases.
  destruct (is_byte command && params_are_bytes kw); [| done].
  by intros [= <-].
Qed.

Lemma _mem_set_size_error addresses self :
  ~ (1 <= size addresses <= 10)%nat ->
  _mem_set addresses self
  = (Raise (ValueError (Some "must not be longer than 10"%string)), self).
Proof.
  intros Hsize. unfold _mem_set.
  replace ((1 <=? size addresses)%nat && (size addresses <=? 10)%nat)
    with false; [done |].
  symmetry. apply andb_false_iff.
  destruct (Nat.leb_spec 1 (size addresses)); [| by left].
  right. apply Nat.leb_gt. lia.
Qed.

Lemma fill_kwargs_gap addresses s kw :
  (1 <= size addresses <= 10)%nat -> min_key addresses = Some s ->
  ~ contiguous_block addresses ->
  fill_kwargs addresses (zip indexes (range s (size addresses))) kw
  = Raise KeyError.
Proof.
  intros Hsize Hs Hgap.
  destruct (fill_kwargs_cases addresses
              (zip indexes (range s (size addresses))) kw)
    as [(kw' & _ & Hall) | [Hraise _]]; [| done].
  destruct Hgap. exists s.
  destruct (min_key_spec _ _ Hs) as [Hkey Hleast].
  split; [done |]. split; [done |]. apply keys_are_range; [lia | done].
Qed.

Lemma fill_kwargs_contiguous addresses s kw :
  min_key addresses = Some s -> contiguous_block addresses ->
  exists kw',
    fill_kwargs addresses (zip indexes (range s (size addresses))) kw = Ok kw'.
Proof.
  intros Hs (start & Hkey & Hleast & Hblock).
  destruct (min_key_spec _ _ Hs) as [Hkey_s Hleast_s].
  assert (start = s) as ->
    by (specialize (Hleast _ Hkey_s); specialize (Hleast_s _ Hkey); lia).
  apply range_keys_present in Hblock.
  destruct (fill_kwargs_cases addresses
              (zip indexes (range s (size addresses))) kw)
    as [(kw' & Hfill & _) | [_ Hex]]; [by exists kw' |].
  apply Exists_exists in Hex as (p & Hp & Hnone).
  eapply Forall_forall in Hblock; [| exact Hp].
  rewrite Hnone in Hblock. by destruct Hblock.
Qed.

Lemma build_MEM_SET_encodable addresses s pairs kw' :
  (size addresses <= 10)%nat -> min_key addresses = Some s ->
  encodable addresses ->
  fill_kwargs addresses pairs
    (<[5%nat := Z.of_nat (size addresses)]> (<[4%nat := s]> ∅)) = Ok kw' ->
  exists payload, build_payload MEM_SET kw' = Ok payload.
Proof.
  intros Hsize Hs Henc Hfill. rewrite build_payload_cases.
  rewrite params_are_bytes_intro; [by eexists |].
  eapply fill_kwargs_bytes; [| | exact Hfill].
  - intros k v Hkv. by apply (Henc k v).
  - intros i. unfold kwarg.
    destruct (decide (i = 5%nat)) as [-> | H5];
      [rewrite lookup_insert_eq; cbn; apply is_byte_range; lia |].
    rewrite lookup_insert_ne by done.
    destruct (decide (i = 4%nat)) as [-> | H4];
      [| by rewrite lookup_insert_ne, lookup_empty].
    rewrite lookup_insert_eq. cbn.
    destruct (min_key_spec _ _ Hs) as [[v Hv] _]. by apply (Henc s v).
Qed.

(** Nothing written, nothing changed. *)
Lemma untouched (command : Command) self :
  settings self = settings self /\
  written (dev self) = written (dev self) ++ [] /\
  no_command command [].
Proof. split; [done |]. split; [by rewrite app_nil_r | constructor]. Qed.

(** C4: [_mem_set] raises [ValueError] for a map of fewer than 1 or more
    than 10 entries and [KeyError] for a map whose keys are not a
    contiguous block from the smallest one, in both cases with the device
    and the mirror untouched; when the status query reports off it fails,
    with [AssertionError] whenever the map passed the checks before, and
    then no [MEM_SET] frame has been written and the mirror is unchanged. *)
Theorem _mem_set_preconditions (addresses : gmap Z Z)
    (self : PulsarX2V2Mini) :
  (~ (1 <= size addresses <= 10)%nat ->
   _mem_set addresses self
   = (Raise (ValueError (Some "must not be longer than 10"%string)), self))
  /\ ((1 <= size addresses <= 10)%nat -> ~ contiguous_block addresses ->
      _mem_set addresses self = (Raise KeyError, self))
  /\ (forall self1, is_on self = (Ok false, self1) ->
      exists e self' new,
        _mem_set addresses self = (Raise e, self') /\
        settings self' = settings self /\
        written (dev self') = written (dev self) ++ new /\
        no_command MEM_SET new /\
        ((1 <= size addresses <= 10)%nat -> contiguous_block addresses ->
         encodable addresses -> e = AssertionError /\ self' = self1)).
Proof.
  split; [apply _mem_set_size_error | split].
  - intros Hsize Hgap.
    destruct (min_key_is_Some addresses) as [s Hs]; [lia |].
    rewrite (_mem_set_steps _ _ s) by done.
    by rewrite fill_kwargs_gap.
  - intros self1 Hoff.
    destruct (is_on_effect self) as (r & rest & Hon).
    rewrite Hoff in Hon. injection Hon as <- ->.
    destruct (untouched MEM_SET self) as (Hu1 & Hu2 & Hu3).
    destruct (decide (1 <= size addresses <= 10)%nat) as [Hsize | Hsize].
    2: { exists (ValueError (Some "must not be longer than 10"%string)),
                self, [].
         split; [by apply _mem_set_size_error |]. done. }
    destruct (min_key_is_Some addresses) as [s Hs]; [lia |].
    rewrite (_mem_set_steps _ _ s) by done.
    destruct (fill_kwargs_cases addresses
                (zip indexes (range s (size addresses)))
                (<[5%nat := Z.of_nat (size addresses)]> (<[4%nat := s]> ∅)))
      as [(kw' & Hfill & _) | [Hfill _]]; rewrite Hfill.
    2: { exists KeyError, self, []. split; [done |].
         split; [done |]. split; [done |]. split; [done |].
         intros _ Hblock _.
         destruct (fill_kwargs_contiguous addresses s
                     (<[5%nat := Z.of_nat (size addresses)]>
                        (<[4%nat := s]> ∅)) Hs Hblock) as [kw' Hok].
         congruence. }
    destruct (build_payload MEM_SET kw') as [payload | e |] eqn:Hbuild.
    + rewrite Hoff. exists AssertionError. eexists _, [STATUS_request].
      split; [done |]. split; [done |]. split; [done |].
      split; [| done]. repeat constructor. discriminate.
    + exists e, self, []. split; [done |].
      split; [done |]. split; [done |]. split; [done |].
      intros _ _ Henc.
      edestruct (build_MEM_SET_encodable addresses s) as [payload Hp];
        [| exact Hs | exact Henc | exact Hfill |]; [lia | congruence].
    + rewrite build_payload_cases in Hbuild.
      by destruct (is_byte MEM_SET && params_are_bytes kw').
Qed.

(** [_mem_set] returns whenever the map passes the checks, the device
    reports on and one more frame arrives after the status reply. *)
Lemma _mem_set_succeeds addresses self self1 resp rest :
  (1 <= size addresses <= 10)%nat -> contiguous_block addresses ->
  encodable addresses ->
  is_on self = (Ok true, self1) -> incoming (dev self1) = resp :: rest ->
  exists payload,
    payload !! 1%nat = Some (Command_value MEM_SET) /\
    _mem_set addresses self
    = (Ok tt, {| dev := {| written := written (dev self1) ++ [payload];
                           incoming := rest |};
                 settings := addresses ∪ settings self1;
                 _profile := _profile self1 |}).
Proof.
  intros Hsize Hblock Henc Hon Hin.
  destruct (min_key_is_Some addresses) as [s Hs]; [lia |].
  rewrite (_mem_set_steps _ _ s) by done.
  destruct (fill_kwargs_contiguous addresses s
              (<[5%nat := Z.of_nat (size addresses)]> (<[4%nat := s]> ∅)))
    as [kw' Hfill]; [done | done |]. rewrite Hfill.
  edestruct (build_MEM_SET_encodable addresses s) as [payload Hp];
    [| exact Hs | exact Henc | exact Hfill |]; [lia |].
  rewrite Hp, Hon, Hin. exists payload. split; [| done].
  by eapply build_payload_command.
Qed.

(** C5: after a successful [_mem_set] the mirror is the old mirror updated
    with the entries of [addresses]: a written address holds the written
    value, every other address holds what it held before; the frames
    written during the call are the status request and the [MEM_SET] frame,
    none of them a [MEM_GET]. *)
Theorem _mem_set_updates_mirror (addresses : gmap Z Z)
    (self self' : PulsarX2V2Mini) :
  _mem_set addresses self = (Ok tt, self') ->
  settings self' = addresses ∪ settings self /\
  (forall k v, addresses !! k = Some v -> settings self' !! k = Some v) /\
  (forall k, addresses !! k = None ->
             settings self' !! k = settings self !! k) /\
  exists request,
    request !! 1%nat = Some (Command_value MEM_SET) /\
    written (dev self') = written (dev self) ++ [STATUS_request; request] /\
    no_command MEM_GET [STATUS_request; request].
Proof.
  intros Hok.
  destruct (decide (1 <= size addresses <= 10)%nat) as [Hsize | Hsize];
    [| by rewrite _mem_set_size_error in Hok].
  destruct (min_key_is_Some addresses) as [s Hs]; [lia |].
  rewrite (_mem_set_steps _ _ s) in Hok by done.
  destruct (fill_kwargs _ _ _) as [kw' | |]; [| done | done].
  destruct (build_payload MEM_SET kw') as [payload | |] eqn:Hbuild;
    [| done | done].
  destruct (is_on_effect self) as (r & rest & Hon). rewrite Hon in Hok.
  destruct r as [[] | |]; [| done | done | done].
  cbn [dev incoming written settings _profile] in Hok.
  destruct rest as [| resp rest]; [done |].
  injection Hok as <-. cbn [dev written settings].
  apply build_payload_command in Hbuild.
  split; [done |]. split; [| split].
  - intros k v Hkv. by apply lookup_union_Some_l.
  - intros k Hk. by apply lookup_union_r.
  - exists payload. split; [done |]. split; [by rewrite <- app_assoc |].
    repeat constructor; [discriminate |]. rewrite Hbuild. discriminate.
Qed.

Lemma _mem_set_updates_mirror_witness :
  let reply := [8; 3; 0; 0; 0; 0; 1; 0; 0; 0; 0; 0; 0; 0; 0; 0; 0x49] in
  let echo := [8; 7; 0; 0; 4; 2; 0; 0; 0; 0; 0; 0; 0; 0; 0; 0; 0x40] in
  let request := [8; 7; 0; 0; 4; 2; 2; 0x53; 0; 0; 0; 0; 0; 0; 0; 0; 0xeb] in
  let addresses : gmap Z Z :=
    <[ADDR_DPI_MODE := 2]> (<[ADDR_DPI_MODE_CHECKSUM := 0x53]> ∅) in
  let self := {| dev := {| written := []; incoming := [reply; echo] |};
                 settings := {[ ADDR_DPI_MODE := 0; 0x0a := 1 ]};
                 _profile := None |} in
  let self' := {| dev := {| written := [STATUS_request; request];
                            incoming := [] |};
                  settings := addresses ∪ {[ ADDR_DPI_MODE := 0; 0x0a := 1 ]};
                  _profile := None |} in
  _mem_set addresses self = (Ok tt, self') /\
  settings self' = addresses ∪ settings self.
Proof.
  intros reply echo request addresses self self'.
  assert (Hrun : _mem_set addresses self = (Ok tt, self'))
    by (vm_compute; reflexivity).
  split; [exact Hrun |].
  apply (_mem_set_updates_mirror addresses self self' Hrun).
Defined.

Lemma _mem_set_preconditions_witness :
  let off := [8; 3; 0; 0; 0; 0; 0; 0; 0; 0; 0; 0; 0; 0; 0; 0; 0x4a] in
  let self := {| dev := {| written := []; incoming := [off] |};
                 settings := {[ ADDR_DPI_MODE := 0 ]};
                 _profile := None |} in
  let self1 := {| dev := {| written := [STATUS_request]; incoming := [] |};
                  settings := {[ ADDR_DPI_MODE := 0 ]};
                  _profile := None |} in
  let gap : gmap Z Z := {[ 0x10 := 1; 0x12 := 2 ]} in
  let block : gmap Z Z :=
    <[ADDR_DPI_MODE := 2]> (<[ADDR_DPI_MODE_CHECKSUM := 0x53]> ∅) in
  _mem_set ∅ self
  = (Raise (ValueError (Some "must not be longer than 10"%string)), self)
  /\ _mem_set gap self = (Raise KeyError, self)
  /\ is_on self = (Ok false, self1)
  /\ exists e self' new,
       _mem_set block self = (Raise e, self') /\
       settings self' = settings self /\
       written (dev self') = written (dev self) ++ new /\
       no_command MEM_SET new /\
       ((1 <= size block <= 10)%nat -> contiguous_block block ->
        encodable block -> e = AssertionError /\ self' = self1).
Proof.
  intros off self self1 gap block. split; [| split; [| split]].
  - apply (_mem_set_preconditions ∅ self). vm_compute. lia.
  - apply (_mem_set_preconditions gap self).
    + vm_compute. lia.
    + intros (start & _ & _ & Hblock).
      pose proof (proj1 (Hblock 0x10) ltac:(by eexists)) as H10.
      pose proof (proj1 (Hblock 0x12) ltac:(by eexists)) as H12.
      change (size gap) with 2%nat in H10, H12. lia.
  - reflexivity.
  - apply (_mem_set_preconditions block self). reflexivity.
Defined.

(** The frame arguments [_mem_set] builds for the two entries of the
    [led_brightness] setter. *)
Lemma led_brightness_kwargs (P : Z -> bool) value c :
  P 0 = true -> P 2 = true -> P ADDR_LED_BRIGHTNESS = true ->
  exists kw,
    fill_kwargs
      (<[ADDR_LED_BRIGHTNESS := value]>
         (<[ADDR_LED_BRIGHTNESS_CHECKSUM := c]> ∅))
      (zip indexes (range ADDR_LED_BRIGHTNESS 2))
      (<[5%nat := 2]> (<[4%nat := ADDR_LED_BRIGHTNESS]> ∅)) = Ok kw
    /\ forallb (fun i => P (kwarg kw i)) (seq 2 14) = P value && P c.
Proof.
  intros H0 H2 Haddr. eexists. split; [vm_compute; reflexivity |].
  vm_compute. vm_compute in Haddr. rewrite H0, H2, Haddr.
  by destruct (P value), (P c).
Qed.

(** Values outside the range pass the inverted check and reach [_mem_set],
    where building the frame raises [ValueError], since the value is not a
    byte: with the lemma for the values inside the range, the setter never
    writes anything. *)
Lemma led_brightness_set_out_of_range value self :
  value < LED_BRIGHTNESS_MIN \/ LED_BRIGHTNESS_MAX < value ->
  led_brightness_set value self
  = _mem_set (<[ADDR_LED_BRIGHTNESS := value]>
              (<[ADDR_LED_BRIGHTNESS_CHECKSUM := checksum [value]]> ∅)) self
  /\ led_brightness_set value self = (Raise (ValueError None), self).
Proof.
  intros Hout.
  assert (Hcheck : (LED_BRIGHTNESS_MIN <=? value)
                   && (value <=? LED_BRIGHTNESS_MAX) = false).
  { apply andb_false_iff.
    destruct Hout; [left | right]; apply Z.leb_gt; lia. }
  assert (Hbyte : is_byte value = false).
  { unfold is_byte. apply andb_false_iff.
    unfold LED_BRIGHTNESS_MIN, LED_BRIGHTNESS_MAX in Hout.
    destruct Hout; [left; apply Z.leb_gt | right; apply Z.ltb_ge]; lia. }
  unfold led_brightness_set. rewrite Hcheck. split; [done |].
  generalize (checksum [value]). intros c.
  rewrite (_mem_set_steps _ _ ADDR_LED_BRIGHTNESS);
    [| by vm_compute; lia | reflexivity].
  destruct (led_brightness_kwargs is_byte value c) as (kw & Hfill & Hkw);
    [done | done | done |].
  change (size _) with 2%nat. change (Z.of_nat 2) with 2.
  rewrite Hfill, build_payload_cases.
  unfold params_are_bytes. rewrite Hkw, Hbyte. done.
Qed.

(** ** Checks against values written in the source *)

(** The frame quoted next to [DeviceEvent.UNKNOWN_1],
    [08:0a:00:00:00:0a:04:00:...:00:35], parses as that event. *)
Example from_payload_unknown_1_event :
  from_payload [8; 0x0a; 0; 0; 0; 0x0a; 4; 0; 0; 0; 0; 0; 0; 0; 0; 0; 0x35]
  = Ok Unknown1DeviceEventPayload.
Proof. reflexivity. Qed.

(** The three scale factors of the docstring of [dpi_int_to_raw]:
    [00] up to 12750, [44] from 12850, [88] from 25650. *)
Example dpi_int_to_raw_factors :
  dpi_int_to_raw 12750 = Ok [0xfe; 0xfe; 0x00] /\
  dpi_int_to_raw 12850 = Ok [0x00; 0x00; 0x44] /\
  dpi_int_to_raw 25600 = Ok [0xff; 0xff; 0x44] /\
  dpi_int_to_raw 25650 = Ok [0x00; 0x00; 0x88] /\
  dpi_int_to_raw 26000 = Ok [0x07; 0x07; 0x88].
Proof. repeat split. Qed.

(** A frame of the wrong length or with a wrong checksum fails the
    assertions of the parser. *)
Example from_payload_malformed :
  from_payload [8; 9; 0] = Raise AssertionError /\
  from_payload [8; 9; 0; 0; 0; 0; 0; 0; 0; 0; 0; 0; 0; 0; 0; 0; 0x45]
  = Raise AssertionError.
Proof. split; reflexivity. Qed.

(** * Further properties *)

(** ** Checksum and parser *)

Lemma sum_from_acc values acc :
  fold_left Z.add values acc = acc + fold_left Z.add values 0.
Proof.
  revert acc. induction values as [| v values IH]; intros acc; cbn [fold_left].
  - lia.
  - rewrite (IH (acc + v)), (IH (0 + v)). lia.
Qed.

Lemma sum_cons v values : sum (v :: values) = v + sum values.
Proof. unfold sum. cbn [fold_left]. rewrite sum_from_acc. lia. Qed.

Lemma sum_app l1 l2 : sum (l1 ++ l2) = sum l1 + sum l2.
Proof.
  induction l1 as [| v l1 IH]; [done |].
  cbn [app]. rewrite !sum_cons, IH. lia.
Qed.

Lemma sum_Permutation l1 l2 : Permutation l1 l2 -> sum l1 = sum l2.
Proof.
  induction 1 as [| v l1 l2 _ IH | v w l | l1 l2 l3 _ IH1 _ IH2].
  - done.
  - by rewrite !sum_cons, IH.
  - rewrite !sum_cons. lia.
  - congruence.
Qed.

(** X1: the checksum is blind to the order of the bytes: a frame with two
    parameter bytes exchanged carries the same checksum. *)
Theorem checksum_Permutation (l1 l2 : list Z) :
  Permutation l1 l2 -> checksum l1 = checksum l2.
Proof. intros Hperm. unfold checksum. by rewrite (sum_Permutation l1 l2). Qed.

Lemma checksum_Permutation_witness :
  checksum [8; 7; 0; 0; 4; 2; 2; 0x53] = checksum [8; 7; 0; 0; 2; 4; 0x53; 2].
Proof.
  apply (checksum_Permutation [8; 7; 0; 0; 4; 2; 2; 0x53]
                              [8; 7; 0; 0; 2; 4; 0x53; 2]).
  apply (Permutation_app_head [8; 7; 0; 0]).
  etrans; [apply Permutation_swap |].
  apply (Permutation_app_head [2; 4]). apply Permutation_swap.
Defined.

Lemma split_last_17 (frame : list Z) :
  length frame = 17%nat ->
  exists body last, frame = body ++ [last] /\ length body = 16%nat.
Proof.
  intros Hlen. exists (take 16 frame), (default 0 (frame !! 16%nat)).
  split; [| rewrite length_take; lia].
  do 17 (destruct frame as [| ? frame]; [done |]).
  by destruct frame.
Qed.

Lemma from_payload_sum (frame : list Z) :
  length frame = 17%nat -> forallb is_byte frame = true ->
  from_payload frame
  = if sum frame mod 256 =? 0x55 then dispatch frame
    else Raise AssertionError.
Proof.
  intros Hlen Hbytes.
  destruct (split_last_17 frame Hlen) as (body & last & -> & Hbody).
  unfold from_payload. rewrite Hlen. cbn [Nat.eqb negb].
  unfold getitem at 1. rewrite lookup_app_r by lia.
  rewrite Hbody. cbn [Nat.sub lookup list_lookup obind].
  rewrite take_app_length' by done.
  rewrite forallb_app in Hbytes. apply andb_true_iff in Hbytes as [_ Hlast].
  cbn [forallb] in Hlast. rewrite andb_true_r in Hlast.
  apply is_byte_range in Hlast.
  rewrite sum_app, sum_cons. unfold checksum, sum at 3. cbn [fold_left].
  rewrite c_uint8_mod.
  destruct (Z.eqb_spec last ((85 - sum body) mod 256)) as [Heq | Hne];
    cbn [negb].
  - replace ((sum body + (last + 0)) mod 256) with 85; [done |].
    rewrite Heq. Z.div_mod_to_equations. lia.
  - destruct (Z.eqb_spec ((sum body + (last + 0)) mod 256) 85)
      as [Hsum | Hsum]; [| done].
    destruct Hne. Z.div_mod_to_equations. lia.
Qed.

Lemma from_payload_valid_frame frame :
  valid_frame frame -> from_payload frame = dispatch frame.
Proof.
  intros (Hlen & Hbytes & Hsum).
  rewrite from_payload_sum by done. by rewrite Hsum.
Qed.

(** X2: the two assertions of [from_payload]: a frame that is not 17
    bytes long is rejected, and a frame of 17 bytes is passed on to the command
    dispatch exactly when its 17 bytes add up to [0x55] modulo 256. *)
Theorem from_payload_validation (frame : list Z) :
  (length frame <> 17%nat -> from_payload frame = Raise AssertionError)
  /\ (length frame = 17%nat -> forallb is_byte frame = true ->
      from_payload frame
      = if sum frame mod 256 =? 0x55 then dispatch frame
        else Raise AssertionError).
Proof.
  split; [| apply from_payload_sum].
  intros Hlen. unfold from_payload.
  apply Nat.eqb_neq in Hlen. by rewrite Hlen.
Qed.

Lemma from_payload_validation_witness :
  from_payload [8; 9; 0; 0; 0; 0; 0; 0; 0; 0; 0; 0; 0; 0; 0; 0; 0x45]
  = if sum [8; 9; 0; 0; 0; 0; 0; 0; 0; 0; 0; 0; 0; 0; 0; 0; 0x45] mod 256
       =? 0x55
    then dispatch [8; 9; 0; 0; 0; 0; 0; 0; 0; 0; 0; 0; 0; 0; 0; 0; 0x45]
    else Raise AssertionError.
Proof.
  apply (from_payload_validation
           [8; 9; 0; 0; 0; 0; 0; 0; 0; 0; 0; 0; 0; 0; 0; 0; 0x45]);
    reflexivity.
Defined.

(** X3: whatever [from_payload] returns, other than a [RestorePayload],
    serializes back to the very frame that was parsed. *)
Theorem from_payload_reserializes (frame : list Z) (v : Payload) :
  from_payload frame = Ok v -> v <> RestorePayload ->
  Payload_bytes v = Ok frame.
Proof.
  unfold from_payload.
  destruct (negb (length frame =? 17)%nat); [done |].
  destruct (getitem frame 16) as [last | |]; cbn [obind]; [| done | done].
  destruct (negb (last =? checksum (take 16 frame))); [done |].
  unfold dispatch.
  destruct (getitem frame 1) as [command | |]; cbn [obind]; [| done | done].
  destruct (command =? POWER).
  { change (Payload_payload RequestPowerDetailsPayload) with (Ok POWER_request).
    cbn [obind]. unfold bytes_eqb. case_bool_decide; [| done].
    subst frame. by intros [= <-]. }
  destruct (command =? RESTORE); [by intros [= <-] |].
  destruct (command =? STATUS); [done |].
  destruct (command =? DEVICE_EVENT).
  { destruct (getitem frame 6) as [kind | |]; cbn [obind]; [| done | done].
    destruct (DEVICE_EVENT_TYPES !! kind) as [c |]; [| done].
    unfold nullary_from_payload, Payload_bytes.
    destruct (Payload_payload (DeviceEventPayload c)) as [expected | |]
      eqn:Hexpected; cbn [obind]; [| done | done].
    unfold bytes_eqb. case_bool_decide; [| done].
    subst frame. cbn [negb]. by intros [= <-]. }
  destruct (command =? MEM_SET); [done |].
  destruct (command =? MEM_GET); [done |].
  destruct (command =? ACTIVE_PROFILE_SET).
  { unfold SetActiveProfilePayload_from_payload, SetActiveProfilePayload_init.
    destruct (getitem frame 6) as [profile | |]; cbn [obind]; [| done | done].
    destruct (build_payload _ _) as [built | |]; cbn [obind Payload_payload];
      [| done | done].
    unfold bytes_eqb. case_bool_decide; [| done].
    subst frame. cbn [negb]. by intros [= <-]. }
  destruct (command =? ACTIVE_PROFILE_GET); [| done].
  change (Payload_payload RequestActiveProfilePayload)
    with (Ok ACTIVE_PROFILE_GET_request).
  cbn [obind]. unfold bytes_eqb at 1. case_bool_decide.
  { subst frame. by intros [= <-]. }
  unfold CurrentActiveProfilePayload_from_payload,
    CurrentActiveProfilePayload_init.
  destruct (getitem frame 6) as [profile | |]; cbn [obind]; [| done | done].
  destruct (build_payload _ _) as [built | |]; cbn [obind Payload_payload];
    [| done | done].
  unfold bytes_eqb. case_bool_decide; [| done].
  subst frame. cbn [negb]. by intros [= <-].
Qed.

Lemma from_payload_reserializes_witness :
  Payload_bytes DPIModeDeviceEventPayload
  = Ok [8; 0x0a; 0; 0; 0; 0x0a; 1; 0; 0; 0; 0; 0; 0; 0; 0; 0; 0x38].
Proof.
  apply (from_payload_reserializes
           [8; 0x0a; 0; 0; 0; 0x0a; 1; 0; 0; 0; 0; 0; 0; 0; 0; 0; 0x38]
           DPIModeDeviceEventPayload); [reflexivity | discriminate].
Defined.

(** X4: a [RESTORE] frame is parsed without a look at its parameters: every
    valid frame with command byte [RESTORE] gives a [RestorePayload], whose
    serialization is the bare request, so for a frame with a parameter set
    the parser does not give the frame back. *)
Theorem from_payload_RESTORE_any_parameters (frame : list Z) :
  valid_frame frame -> frame !! 1%nat = Some (Command_value RESTORE) ->
  from_payload frame = Ok RestorePayload /\
  Payload_bytes RestorePayload = Ok RESTORE_request /\
  (frame <> RESTORE_request ->
   exists v, from_payload frame = Ok v /\ Payload_bytes v <> Ok frame).
Proof.
  intros Hvalid Hcommand.
  assert (Hparse : from_payload frame = Ok RestorePayload).
  { rewrite from_payload_valid_frame by done.
    unfold dispatch, getitem. rewrite Hcommand. cbn [obind].
    by decide_command. }
  split; [done |]. split; [done |].
  intros Hne. exists RestorePayload. split; [done |].
  change (Payload_bytes RestorePayload) with (Ok RESTORE_request).
  congruence.
Qed.

Lemma from_payload_RESTORE_any_parameters_witness :
  let frame := [8; 9; 0; 0; 0; 0; 7; 0; 0; 0; 0; 0; 0; 0; 0; 0; 0x3d] in
  from_payload frame = Ok RestorePayload /\
  Payload_bytes RestorePayload = Ok RESTORE_request /\
  (frame <> RESTORE_request ->
   exists v, from_payload frame = Ok v /\ Payload_bytes v <> Ok frame).
Proof.
  intros frame. apply (from_payload_RESTORE_any_parameters frame).
  - repeat split.
  - reflexivity.
Defined.

(** X5: the generic parser has no result for status frames, for memory read
    and write frames, for any command byte outside the eight commands, and
    for any [POWER] frame other than the bare request, hence for every
    power reply: it raises [NotImplementedError]. *)
Theorem from_payload_not_implemented (frame : list Z) (command : Z) :
  valid_frame frame -> frame !! 1%nat = Some command ->
  command = STATUS \/ command = MEM_SET \/ command = MEM_GET
  \/ (command = POWER /\ frame <> POWER_request)
  \/ (command <> POWER /\ command <> RESTORE /\ command <> DEVICE_EVENT
      /\ command <> ACTIVE_PROFILE_SET /\ command <> ACTIVE_PROFILE_GET) ->
  from_payload frame = Raise NotImplementedError.
Proof.
  intros Hvalid Hcommand Hcases.
  rewrite from_payload_valid_frame by done.
  unfold dispatch, getitem. rewrite Hcommand. cbn [obind].
  destruct Hcases as [-> | [-> | [-> | [[-> Hne] | Hother]]]];
    [by decide_command | by decide_command | by decide_command | |].
  - decide_command.
    change (Payload_payload RequestPowerDetailsPayload) with (Ok POWER_request).
    cbn [obind]. by rewrite bytes_eqb_neq.
  - destruct Hother as (H1 & H2 & H3 & H4 & H5).
    apply Z.eqb_neq in H1, H2, H3, H4, H5. rewrite H1, H2, H3, H4, H5.
    by repeat destruct (command =? _).
Qed.

Lemma from_payload_not_implemented_witness :
  from_payload [8; 4; 0; 0; 0; 0; 87; 1; 0x0f; 0xa0; 0; 0; 0; 0; 0; 0; 0x42]
  = Raise NotImplementedError.
Proof.
  apply (from_payload_not_implemented
           [8; 4; 0; 0; 0; 0; 87; 1; 0x0f; 0xa0; 0; 0; 0; 0; 0; 0; 0x42] 4).
  - repeat split.
  - reflexivity.
  - right. right. right. left. split; [reflexivity | discriminate].
Defined.

(** X6: [build_payload] returns exactly when the command and the fourteen
    arguments are all byte values; otherwise it raises [ValueError]: no
    argument is ever truncated to fit. *)
Theorem build_payload_bytes_only (command : Z) (kw : gmap nat Z) :
  (is_byte command && params_are_bytes kw = true ->
   exists frame, build_payload command kw = Ok frame /\
                 valid_frame frame /\ frame !! 1%nat = Some command)
  /\ (is_byte command && params_are_bytes kw = false ->
      build_payload command kw = Raise (ValueError None)).
Proof.
  rewrite build_payload_cases. split; intros Hbytes; rewrite Hbytes; [| done].
  eexists. split; [done |].
  apply andb_true_iff in Hbytes as [Hc Hkw]. split; [| done].
  split; [done |]. split.
  - rewrite forallb_app. cbn [forallb]. rewrite checksum_is_byte.
    unfold params_are_bytes in Hkw. cbn [seq forallb] in Hkw.
    unfold payload_body. cbn [forallb]. by rewrite Hc, Hkw.
  - rewrite sum_app, sum_cons. unfold checksum, sum at 3. cbn [fold_left].
    rewrite c_uint8_mod. Z.div_mod_to_equations. lia.
Qed.

Lemma build_payload_bytes_only_witness :
  exists frame,
    build_payload MEM_GET (<[5%nat := 10]> (<[4%nat := 190]> ∅)) = Ok frame /\
    valid_frame frame /\ frame !! 1%nat = Some (Command_value MEM_GET).
Proof.
  apply (build_payload_bytes_only MEM_GET (<[5%nat := 10]> (<[4%nat := 190]> ∅))).
  reflexivity.
Defined.

(** ** DPI decoding *)

(** The third byte passes the two nibble checks only if it is one of
    [0x00], [0x44], [0x88], [0xcc]. *)
Lemma packed_byte_cases c :
  0 <= c < 256 ->
  Z.land c 0x0f = Z.shiftr c 4 ->
  Z.land c 0x0f = Z.land (Z.land c 0x0f) 0x0c ->
  exists f, 0 <= f <= 3 /\ c = Z.lor (Z.shiftl f 2) (Z.shiftl f 6)
            /\ Z.shiftr (Z.land c 0x0f) 2 = f.
Proof.
  intros Hc H1 H2.
  assert (Hall : forallb (fun c =>
            implb ((Z.land c 0x0f =? Z.shiftr c 4)
                   && (Z.land c 0x0f =? Z.land (Z.land c 0x0f) 0x0c))
                  ((c =? 0x00) || (c =? 0x44) || (c =? 0x88) || (c =? 0xcc)))
            (seqZ 0 256) = true) by (vm_compute; reflexivity).
  rewrite forallb_forall in Hall.
  specialize (Hall c). rewrite <- list_elem_of_In, elem_of_seqZ in Hall.
  specialize (Hall ltac:(lia)).
  apply Z.eqb_eq in H1, H2. rewrite H1, H2 in Hall. cbn [andb implb] in Hall.
  repeat (apply orb_true_iff in Hall as [Hall | Hall]);
    apply Z.eqb_eq in Hall; subst c;
    [exists 0 | exists 1 | exists 2 | exists 3]; repeat split; lia.
Qed.

Lemma dpi_raw_to_int_inv raw d :
  dpi_raw_to_int raw = Ok d ->
  exists a f, 0 <= a < 256 /\ 0 <= f <= 3 /\
              raw = [a; a; Z.lor (Z.shiftl f 2) (Z.shiftl f 6)] /\
              d = (a + 1) * 50 + f * 12800.
Proof.
  unfold dpi_raw_to_int, bytearray.
  destruct (forallb is_byte raw) eqn:Hbytes; cbn [obind]; [| done].
  destruct raw as [| a [| a' [| c [| ? ?]]]]; try done.
  cbn [forallb] in Hbytes.
  apply andb_true_iff in Hbytes as [Ha Hbytes].
  apply andb_true_iff in Hbytes as [_ Hbytes].
  apply andb_true_iff in Hbytes as [Hc _].
  apply is_byte_range in Ha, Hc.
  destruct (Z.eqb_spec a a') as [<- | ?]; cbn [negb]; [| done].
  destruct (Z.eqb_spec (Z.land c 15) (Z.shiftr c 4)) as [H1 | ?];
    cbn [negb]; [| done].
  destruct (Z.eqb_spec (Z.land c 15) (Z.land (Z.land c 15) 12)) as [H2 | ?];
    cbn [negb]; [| done].
  intros [= <-].
  destruct (packed_byte_cases c Hc H1 H2) as (f & Hf & Hcf & Hshift).
  exists a, f. rewrite Hshift. by rewrite <- Hcf.
Qed.

(** X7: the decoder accepts exactly the triples [a, a, c] of bytes with [c] one
    of [0x00], [0x44], [0x88], [0xcc] (the factor [f = 0..3] in both
    nibbles), with result [(a+1)*50 + f*12800]; on anything else it raises
    [ValueError]. *)
Theorem dpi_raw_to_int_accepts (raw : list Z) :
  (forall d, dpi_raw_to_int raw = Ok d <->
     exists a f, 0 <= a < 256 /\ 0 <= f <= 3 /\
                 raw = [a; a; Z.lor (Z.shiftl f 2) (Z.shiftl f 6)] /\
                 d = (a + 1) * 50 + f * 12800)
  /\ ((forall d, dpi_raw_to_int raw <> Ok d) ->
      dpi_raw_to_int raw = Raise (ValueError None)).
Proof.
  split.
  - intros d. split; [apply dpi_raw_to_int_inv |].
    intros (a & f & Ha & Hf & -> & ->). by apply dpi_raw_to_int_packed.
  - intros Hnone. destruct (dpi_raw_to_int raw) as [d | e |] eqn:Hrun.
    + by destruct (Hnone d).
    + revert Hrun. unfold dpi_raw_to_int, bytearray.
      destruct (forallb is_byte raw); cbn [obind]; [| by intros [= <-]].
      destruct raw as [| a [| a' [| c [| ? ?]]]]; try by intros [= <-].
      repeat (destruct (negb _); [by intros [= <-] |]). done.
    + revert Hrun. unfold dpi_raw_to_int, bytearray.
      destruct (forallb is_byte raw); cbn [obind]; [| done].
      destruct raw as [| a [| a' [| c [| ? ?]]]]; try done.
      by repeat (destruct (negb _); [done |]).
Qed.

(** X8: two raw triples that decode to the same DPI are the same triple. *)
Theorem dpi_raw_to_int_injective (raw1 raw2 : list Z) (d : Z) :
  dpi_raw_to_int raw1 = Ok d -> dpi_raw_to_int raw2 = Ok d -> raw1 = raw2.
Proof.
  intros H1 H2.
  apply dpi_raw_to_int_inv in H1 as (a1 & f1 & Ha1 & Hf1 & -> & Hd1).
  apply dpi_raw_to_int_inv in H2 as (a2 & f2 & Ha2 & Hf2 & -> & Hd2).
  assert (f1 = f2) as -> by lia. assert (a1 = a2) as -> by lia. done.
Qed.

Lemma dpi_raw_to_int_injective_witness :
  [0xff; 0xff; 0x00] = [0xff; 0xff; 0x00].
Proof.
  apply (dpi_raw_to_int_injective [0xff; 0xff; 0x00] [0xff; 0xff; 0x00] 12800);
    reflexivity.
Defined.

(** X9: encoding undoes decoding wherever the decoded value is in the range of
    the encoder: a raw triple that decodes to at most 26000 is what the
    encoder returns for the decoded value. *)
Theorem dpi_decode_encode (raw : list Z) (d : Z) :
  dpi_raw_to_int raw = Ok d -> d <= DPI_MAX -> dpi_int_to_raw d = Ok raw.
Proof.
  intros Hraw Hmax.
  apply dpi_raw_to_int_inv in Hraw as (a & f & Ha & Hf & -> & ->).
  unfold DPI_MAX in Hmax.
  rewrite dpi_int_to_raw_packed; [| lia | Z.div_mod_to_equations; lia].
  assert (Hq : ((a + 1) * 50 + f * 12800) / 50 - 1 = f * 256 + a)
    by (Z.div_mod_to_equations; lia).
  rewrite Hq.
  assert (Hf' : (f * 256 + a) / 256 = f) by (Z.div_mod_to_equations; lia).
  assert (Ha' : (f * 256 + a) mod 256 = a) by (Z.div_mod_to_equations; lia).
  by rewrite Hf', Ha'.
Qed.

Lemma dpi_decode_encode_witness :
  dpi_int_to_raw 26000 = Ok [0x07; 0x07; 0x88].
Proof.
  apply (dpi_decode_encode [0x07; 0x07; 0x88] 26000); [reflexivity |].
  unfold DPI_MAX. lia.
Defined.

(** ** Waiting for a reply *)

Lemma read_loop_all_skipped {A} (body : list Z -> outcome (option A)) frames :
  Forall (fun f => body f = Ok None) frames ->
  read_loop body frames = (Blocked, []).
Proof.
  induction 1 as [| f frames Hf _ IH]; [done |].
  cbn [read_loop]. by rewrite Hf.
Qed.

Lemma expect_skips expect pre :
  Forall (fun f => exists v, from_payload f = Ok v /\ expect v = false) pre ->
  Forall (fun f => (try! inst := from_payload f in
                    Ok (if expect inst then Some inst else None)) = Ok None)
         pre.
Proof.
  intros Hpre. eapply Forall_impl; [exact Hpre |].
  intros f (v & Hv & Hexpect).
  rewrite Hv. cbn [obind]. by rewrite Hexpect.
Qed.

(** X10: [Device.read(expect)] drops the frames that parse to an instance of
    another class and returns the first instance of [expect]; a frame the
    parser raises on ends the read with that exception, whatever comes
    after it. *)
Theorem Device_read_expect_first (expect : Payload -> bool) (d : Device)
    (pre : list (list Z)) (frame : list Z) (rest : list (list Z)) :
  incoming d = pre ++ frame :: rest ->
  Forall (fun f => exists v, from_payload f = Ok v /\ expect v = false) pre ->
  (forall inst, from_payload frame = Ok inst -> expect inst = true ->
     Device_read_expect expect d
     = (Ok inst, {| written := written d; incoming := rest |}))
  /\ (forall e, from_payload frame = Raise e ->
        Device_read_expect expect d
        = (Raise e, {| written := written d; incoming := rest |})).
Proof.
  intros Hin Hpre.
  split; [intros inst Hinst Hexpect | intros e He];
    unfold Device_read_expect, Device_read_loop; rewrite Hin;
    rewrite read_loop_skip by (by apply expect_skips);
    cbn [read_loop].
  - rewrite Hinst. cbn [obind]. by rewrite Hexpect.
  - by rewrite He.
Qed.

Lemma Device_read_expect_first_witness :
  let event := [8; 10; 0; 0; 0; 10; 4; 0; 0; 0; 0; 0; 0; 0; 0; 0; 0x35] in
  let power := [8; 4; 0; 0; 0; 0; 87; 1; 0x0f; 0xa0; 0; 0; 0; 0; 0; 0; 0x42] in
  let current := [8; 14; 0; 0; 0; 1; 2; 0; 0; 0; 0; 0; 0; 0; 0; 0; 0x3c] in
  Device_read_expect is_CurrentActiveProfilePayload
    {| written := []; incoming := [event; power; current] |}
  = (Raise NotImplementedError, {| written := []; incoming := [current] |}).
Proof.
  intros event power current.
  apply (Device_read_expect_first is_CurrentActiveProfilePayload
           {| written := []; incoming := [event; power; current] |}
           [event] power [current]).
  - reflexivity.
  - repeat constructor. by eexists.
  - reflexivity.
Defined.

(** X11: without a frame of the awaited command in the stream the read loop of
    [get_power] never returns: the request is written, every frame is
    consumed, and the call blocks. *)
Theorem get_power_blocks (self : PulsarX2V2Mini) :
  Forall (fun f => exists c : Z, f !! 1%nat = Some c /\ c <> POWER)
         (incoming (dev self)) ->
  get_power self
  = (Blocked,
     {| dev := {| written := written (dev self) ++ [POWER_request];
                  incoming := [] |};
        settings := settings self; _profile := _profile self |}).
Proof.
  intros Hall. unfold get_power.
  change (build_payload POWER ∅) with (Ok POWER_request).
  unfold bind at 1. cbn [lift]. unfold bind at 1.
  cbn [on_dev Device_write dev settings _profile].
  unfold bind, on_dev, read_command, Device_read_loop.
  cbn [dev written incoming settings _profile].
  rewrite read_loop_all_skipped; [done |].
  eapply Forall_impl; [exact Hall |].
  intros f (c & Hc & Hne). unfold getitem. rewrite Hc. cbn [obind].
  apply Z.eqb_neq in Hne. by rewrite Hne.
Qed.

Lemma get_power_blocks_witness :
  let event := [8; 10; 0; 0; 0; 10; 4; 0; 0; 0; 0; 0; 0; 0; 0; 0; 0x35] in
  let self := PulsarX2V2Mini_init {| written := []; incoming := [event] |} in
  get_power self
  = (Blocked,
     {| dev := {| written := [POWER_request]; incoming := [] |};
        settings := ∅; _profile := None |}).
Proof.
  intros event self. apply (get_power_blocks self).
  repeat constructor. exists 10. split; [reflexivity | discriminate].
Defined.

Lemma is_on_stream (self : PulsarX2V2Mini) (pre : list (list Z))
    (reply : list Z) (rest : list (list Z)) (flag : Z) :
  incoming (dev self) = pre ++ reply :: rest ->
  Forall (fun f => exists c : Z, f !! 1%nat = Some c /\ c <> STATUS) pre ->
  reply !! 1%nat = Some (Command_value STATUS) ->
  reply !! 6%nat = Some flag ->
  is_on self
  = (if flag =? 0 then Ok false
     else if flag =? 1 then Ok true else Raise (ValueError None),
     {| dev := {| written := written (dev self) ++ [STATUS_request];
                  incoming := rest |};
        settings := settings self; _profile := _profile self |}).
Proof.
  intros Hin Hpre Hreply Hflag. unfold is_on.
  change (build_payload STATUS ∅) with (Ok STATUS_request).
  unfold bind at 1. cbn [lift]. unfold bind at 1.
  cbn [on_dev Device_write dev settings _profile].
  unfold bind.
  erewrite read_command_skips; [| exact Hin | exact Hpre | exact Hreply].
  cbn [lift dev settings _profile written incoming].
  unfold getitem. rewrite Hflag. done.
Qed.

(** X12: [is_on] drops the frames that come before the first [STATUS] frame and
    reads byte 6 of that frame: 1 is on, 0 is off, anything else raises
    [ValueError]. *)
Theorem is_on_reads_status (self : PulsarX2V2Mini) (pre : list (list Z))
    (reply : list Z) (rest : list (list Z)) (flag : Z) :
  incoming (dev self) = pre ++ reply :: rest ->
  Forall (fun f => exists c : Z, f !! 1%nat = Some c /\ c <> STATUS) pre ->
  reply !! 1%nat = Some (Command_value STATUS) ->
  reply !! 6%nat = Some flag ->
  is_on self
  = (if flag =? 0 then Ok false
     else if flag =? 1 then Ok true else Raise (ValueError None),
     {| dev := {| written := written (dev self) ++ [STATUS_request];
                  incoming := rest |};
        settings := settings self; _profile := _profile self |}).
Proof. apply is_on_stream. Qed.

Lemma is_on_reads_status_witness :
  let event := [8; 10; 0; 0; 0; 10; 1; 0; 0; 0; 0; 0; 0; 0; 0; 0; 0x38] in
  let reply := [8; 3; 0; 0; 0; 0; 1; 0; 0; 0; 0; 0; 0; 0; 0; 0; 0x49] in
  let self :=
    PulsarX2V2Mini_init {| written := []; incoming := [event; reply] |} in
  is_on self
  = (Ok true,
     {| dev := {| written := [STATUS_request]; incoming := [] |};
        settings := ∅; _profile := None |}).
Proof.
  intros event reply self.
  apply (is_on_reads_status self [event] reply [] 1).
  - reflexivity.
  - repeat constructor. exists 10. split; [reflexivity | discriminate].
  - reflexivity.
  - reflexivity.
Defined.

(** ** The frame written by [_mem_set] *)

Lemma fill_kwargs_values addresses idxs addrs values kw :
  Forall2 (fun a v => addresses !! a = Some v) addrs values ->
  fill_kwargs addresses (zip idxs addrs) kw
  = Ok (foldl (fun kw '(i, v) => <[i := v]> kw) kw (zip idxs values)).
Proof.
  intros Hvalues. revert idxs kw.
  induction Hvalues as [| a v addrs values Hav _ IH]; intros idxs kw.
  - by destruct idxs.
  - destruct idxs as [| i idxs]; [done |].
    cbn [zip zip_with fill_kwargs foldl]. by rewrite Hav.
Qed.

Lemma block_values_present (addresses : gmap Z Z) s :
  (forall k, is_Some (addresses !! k)
             <-> s <= k < s + Z.of_nat (size addresses)) ->
  Forall2 (fun a v => addresses !! a = Some v)
          (range s (size addresses))
          (block_values addresses s (size addresses)).
Proof.
  intros Hkeys. unfold block_values, range.
  apply Forall2_fmap_r, Forall_Forall2_diag, Forall_forall.
  intros a Ha. apply elem_of_seqZ in Ha.
  destruct (proj2 (Hkeys a) ltac:(lia)) as [v Hv]. cbn. by rewrite Hv.
Qed.

Lemma filled_params s values :
  (1 <= length values <= 10)%nat ->
  payload_body MEM_SET
    (foldl (fun kw '(i, v) => <[i := v]> kw)
           (<[5%nat := Z.of_nat (length values)]> (<[4%nat := s]> ∅))
           (zip indexes values))
  = [8; Command_value MEM_SET; 0; 0; s; Z.of_nat (length values)]
    ++ values ++ replicate (10 - length values) 0.
Proof.
  intros Hlen.
  do 11 (destruct values as [| ? values]; [cbn in Hlen; try lia; reflexivity |]).
  cbn in Hlen. lia.
Qed.

Lemma length_block_values addresses s n :
  length (block_values addresses s n) = n.
Proof. unfold block_values. rewrite length_fmap, length_seqZ. lia. Qed.

Lemma forallb_is_byte_replicate n : forallb is_byte (replicate n 0) = true.
Proof. induction n as [| n IH]; [done |]. cbn. exact IH. Qed.

Lemma _mem_set_on addresses self resp rest s :
  device_on self resp rest ->
  (1 <= size addresses <= 10)%nat -> min_key addresses = Some s ->
  (forall k, is_Some (addresses !! k)
             <-> s <= k < s + Z.of_nat (size addresses)) ->
  encodable addresses ->
  _mem_set addresses self
  = (Ok tt,
     after_mem_set self
       (MEM_SET_request s (block_values addresses s (size addresses)))
       addresses rest).
Proof.
  intros (pre & status & Hin & Hpre & Hstatus & Hflag) Hsize Hs Hkeys Henc.
  rewrite (_mem_set_steps _ _ s) by done.
  rewrite (fill_kwargs_values addresses indexes _ _ _
             (block_values_present addresses s Hkeys)).
  rewrite build_payload_cases.
  pose proof (length_block_values addresses s (size addresses)) as Hlen.
  assert (Hbody :
    payload_body MEM_SET
      (foldl (fun kw '(i, v) => <[i := v]> kw)
             (<[5%nat := Z.of_nat (size addresses)]> (<[4%nat := s]> ∅))
             (zip indexes (block_values addresses s (size addresses))))
    = [8; Command_value MEM_SET; 0; 0; s; Z.of_nat (size addresses)]
      ++ block_values addresses s (size addresses)
      ++ replicate (10 - size addresses) 0).
  { pose proof (filled_params s (block_values addresses s (size addresses)))
      as Hfilled.
    rewrite Hlen in Hfilled. apply Hfilled. lia. }
  assert (Hvalues : forallb is_byte
                      (block_values addresses s (size addresses)) = true).
  { apply forallb_forall. intros v Hv. apply list_elem_of_In in Hv.
    unfold block_values in Hv. apply list_elem_of_fmap in Hv as (a & -> & Ha).
    apply elem_of_seqZ in Ha.
    destruct (proj2 (Hkeys a) ltac:(lia)) as [v Hv]. rewrite Hv. cbn.
    by apply (Henc a v). }
  assert (Hstart : is_byte s = true).
  { destruct (proj2 (Hkeys s) ltac:(lia)) as [v Hv]. by apply (Henc s v). }
  assert (Hparams :
    params_are_bytes
      (foldl (fun kw '(i, v) => <[i := v]> kw)
             (<[5%nat := Z.of_nat (size addresses)]> (<[4%nat := s]> ∅))
             (zip indexes (block_values addresses s (size addresses))))
    = true).
  { assert (Hall : forallb is_byte
              ([8; Command_value MEM_SET; 0; 0; s; Z.of_nat (size addresses)]
               ++ block_values addresses s (size addresses)
               ++ replicate (10 - size addresses) 0) = true).
    { rewrite !forallb_app, Hvalues, forallb_is_byte_replicate.
      cbn [forallb]. rewrite Hstart.
      replace (is_byte (Z.of_nat (size addresses))) with true; [done |].
      symmetry. apply is_byte_range. lia. }
    rewrite <- Hbody in Hall. unfold payload_body in Hall.
    cbn [forallb] in Hall.
    apply andb_true_iff in Hall as [_ Hall].
    apply andb_true_iff in Hall as [_ Hall]. exact Hall. }
  rewrite Hparams. change (is_byte MEM_SET) with true. cbn [andb].
  rewrite (is_on_stream self pre status (resp :: rest) 1) by done.
  change (1 =? 0) with false. change (1 =? 1) with true. cbv iota.
  cbn [dev incoming written settings _profile].
  unfold after_mem_set, MEM_SET_request. rewrite Hbody, Hlen.
  by rewrite <- app_assoc.
Qed.

Lemma contiguous_block_min addresses :
  (size addresses <> 0)%nat -> contiguous_block addresses ->
  exists s, min_key addresses = Some s /\
            forall k, is_Some (addresses !! k)
                      <-> s <= k < s + Z.of_nat (size addresses).
Proof.
  intros Hsize (start & Hkey & Hleast & Hblock).
  destruct (min_key_is_Some addresses Hsize) as [s Hs].
  destruct (min_key_spec _ _ Hs) as [Hkey_s Hleast_s].
  assert (start = s) as ->
    by (specialize (Hleast _ Hkey_s); specialize (Hleast_s _ Hkey); lia).
  by exists s.
Qed.

(** X13: [_mem_set] on a block of 1 to 10 consecutive byte addresses with byte
    values, with the device on: it writes the status request and then one
    [MEM_SET] frame holding the start address, the length, the values in
    address order and zero padding, consumes the next frame without a look
    at its content, and stores the entries in the mirror. *)
Theorem _mem_set_writes_block (addresses : gmap Z Z)
    (self : PulsarX2V2Mini) (resp : list Z) (rest : list (list Z)) :
  device_on self resp rest ->
  (1 <= size addresses <= 10)%nat -> contiguous_block addresses ->
  encodable addresses ->
  exists start,
    min_key addresses = Some start /\
    _mem_set addresses self
    = (Ok tt,
       after_mem_set self
         (MEM_SET_request start
            (block_values addresses start (size addresses)))
         addresses rest).
Proof.
  intros Hon Hsize Hblock Henc.
  destruct (contiguous_block_min addresses) as (s & Hs & Hkeys);
    [lia | done |].
  exists s. split; [done |]. by apply (_mem_set_on _ _ resp).
Qed.

Lemma _mem_set_writes_block_witness :
  let status := [8; 3; 0; 0; 0; 0; 1; 0; 0; 0; 0; 0; 0; 0; 0; 0; 0x49] in
  let resp := [1; 2; 3] in
  let addresses : gmap Z Z :=
    <[0x0c := 15]> (<[0x0d := 15]> (<[0x0e := 0]> ∅)) in
  let self := PulsarX2V2Mini_init
                {| written := []; incoming := [status; resp] |} in
  exists start,
    min_key addresses = Some start /\
    _mem_set addresses self
    = (Ok tt,
       after_mem_set self
         (MEM_SET_request start
            (block_values addresses start (size addresses)))
         addresses []).
Proof.
  intros status resp addresses self.
  apply (_mem_set_writes_block addresses self resp []).
  - exists [], status. repeat split. constructor.
  - vm_compute. lia.
  - exists 0x0c. split; [by eexists |]. split.
    + intros k [v Hv]. unfold addresses in Hv.
      repeat (apply lookup_insert_Some in Hv as [[<- _] | [_ Hv]]; [lia |]).
      by rewrite lookup_empty in Hv.
    + intros k. change (size addresses) with 3%nat. split.
      * intros [v Hv]. unfold addresses in Hv.
        repeat (apply lookup_insert_Some in Hv as [[<- _] | [_ Hv]]; [lia |]).
        by rewrite lookup_empty in Hv.
      * intros Hk.
        assert (k = 0x0c \/ k = 0x0d \/ k = 0x0e) as [-> | [-> | ->]] by lia;
          by eexists.
  - intros k v Hv. unfold addresses in Hv.
    repeat (apply lookup_insert_Some in Hv as [[<- <-] | [_ Hv]]; [done |]).
    by rewrite lookup_empty in Hv.
Defined.

(** The map with the values [vs] at consecutive addresses from [s]. *)
Lemma block_map_lookup (s : Z) (vs : list Z) (i : nat) (v : Z) :
  vs !! i = Some v ->
  (list_to_map (zip (seqZ s (Z.of_nat (length vs))) vs) : gmap Z Z)
    !! (s + Z.of_nat i) = Some v.
Proof.
  intros Hv. apply elem_of_list_to_map.
  - rewrite fst_zip by (rewrite length_seqZ; lia). apply NoDup_seqZ.
  - apply (list_elem_of_lookup_2 _ i). apply lookup_zip_with_Some.
    eexists _, _. split; [done |]. split; [| exact Hv].
    apply lookup_seqZ_lt. apply lookup_lt_Some in Hv. lia.
Qed.

Lemma block_map_keys (s : Z) (vs : list Z) (k : Z) :
  is_Some ((list_to_map (zip (seqZ s (Z.of_nat (length vs))) vs) : gmap Z Z)
             !! k)
  <-> s <= k < s + Z.of_nat (length vs).
Proof.
  rewrite <- elem_of_dom, dom_list_to_map_L.
  rewrite fst_zip by (rewrite length_seqZ; lia).
  by rewrite elem_of_list_to_set, elem_of_seqZ.
Qed.

Lemma block_map_size (s : Z) (vs : list Z) :
  size (list_to_map (zip (seqZ s (Z.of_nat (length vs))) vs) : gmap Z Z)
  = length vs.
Proof.
  rewrite <- size_dom, dom_list_to_map_L.
  rewrite fst_zip by (rewrite length_seqZ; lia).
  rewrite size_list_to_set by apply NoDup_seqZ.
  rewrite length_seqZ. lia.
Qed.

Lemma block_map_values (s : Z) (vs : list Z) :
  block_values (list_to_map (zip (seqZ s (Z.of_nat (length vs))) vs))
               s (length vs) = vs.
Proof.
  apply list_eq. intros i. unfold block_values. rewrite list_lookup_fmap.
  destruct (decide (i < length vs)%nat) as [Hi | Hi].
  - rewrite lookup_seqZ_lt by lia. cbn.
    destruct (lookup_lt_is_Some_2 vs i Hi) as [v Hv].
    by rewrite (block_map_lookup s vs i v Hv), Hv.
  - rewrite lookup_seqZ_ge by lia. cbn. symmetry. apply lookup_ge_None. lia.
Qed.

Lemma block_map_min_key (s : Z) (vs : list Z) :
  vs <> [] ->
  min_key (list_to_map (zip (seqZ s (Z.of_nat (length vs))) vs)) = Some s.
Proof.
  intros Hvs.
  assert (Hlen : (length vs <> 0)%nat) by (by destruct vs).
  destruct (min_key_is_Some
              (list_to_map (zip (seqZ s (Z.of_nat (length vs))) vs)))
    as [s' Hs']; [by rewrite block_map_size |].
  destruct (min_key_spec _ _ Hs') as [Hkey Hleast].
  apply block_map_keys in Hkey.
  specialize (Hleast s (proj2 (block_map_keys s vs s) ltac:(lia))).
  rewrite Hs'. f_equal. lia.
Qed.

(** [_mem_set] of the values [vs] at the addresses from [s] on. *)
Lemma _mem_set_list (s : Z) (vs : list Z) self resp rest :
  device_on self resp rest ->
  (1 <= length vs <= 10)%nat -> 0 <= s -> s + Z.of_nat (length vs) <= 256 ->
  forallb is_byte vs = true ->
  _mem_set (list_to_map (zip (seqZ s (Z.of_nat (length vs))) vs)) self
  = (Ok tt,
     after_mem_set self (MEM_SET_request s vs)
       (list_to_map (zip (seqZ s (Z.of_nat (length vs))) vs)) rest).
Proof.
  intros Hon Hlen Hs Hend Hbytes.
  rewrite (_mem_set_on _ _ resp rest s); try done.
  - by rewrite block_map_size, block_map_values.
  - by rewrite block_map_size.
  - apply block_map_min_key. by destruct vs; [cbn in Hlen; lia |].
  - intros k. rewrite block_map_size. apply block_map_keys.
  - intros k v Hkv.
    assert (Hk : s <= k < s + Z.of_nat (length vs))
      by (apply block_map_keys; by eexists).
    split; [apply is_byte_range; lia |].
    replace k with (s + Z.of_nat (Z.to_nat (k - s))) in Hkv by lia.
    destruct (lookup_lt_is_Some_2 vs (Z.to_nat (k - s))) as [v' Hv']; [lia |].
    rewrite (block_map_lookup s vs _ v' Hv') in Hkv. injection Hkv as <-.
    rewrite forallb_forall in Hbytes. apply Hbytes, list_elem_of_In.
    by eapply list_elem_of_lookup_2.
Qed.

Lemma checksum_byte v : 0 <= v <= 0x55 -> checksum [v] = 0x55 - v.
Proof.
  intros Hv. unfold checksum, sum. cbn [fold_left]. rewrite c_uint8_mod.
  Z.div_mod_to_equations. lia.
Qed.

Lemma after_mem_set_lookup self request addresses rest k v :
  addresses !! k = Some v ->
  settings_getitem k (after_mem_set self request addresses rest)
  = (Ok v, after_mem_set self request addresses rest).
Proof.
  intros Hk. unfold settings_getitem. cbn [after_mem_set settings].
  by rewrite (lookup_union_Some_l _ _ _ _ Hk).
Qed.

(** ** Setters and getters *)

Lemma pair_map (a v c : Z) :
  (<[a + 1 := c]> (<[a := v]> ∅) : gmap Z Z)
  = list_to_map (zip (seqZ a (Z.of_nat (length [v; c]))) [v; c]).
Proof.
  apply map_eq. intros k.
  destruct (decide (k = a + 1)) as [-> | Hk1].
  { rewrite lookup_insert_eq. symmetry.
    apply (block_map_lookup a [v; c] 1 c). done. }
  rewrite lookup_insert_ne by done.
  destruct (decide (k = a)) as [-> | Hk0].
  { rewrite lookup_insert_eq. symmetry.
    replace a with (a + Z.of_nat 0) at 1 by lia.
    apply (block_map_lookup a [v; c] 0 v). done. }
  rewrite lookup_insert_ne, lookup_empty by done. symmetry.
  apply eq_None_not_Some. rewrite block_map_keys. cbn. lia.
Qed.

Lemma pair_map_rev (a v c : Z) :
  (<[a := v]> (<[a + 1 := c]> ∅) : gmap Z Z)
  = list_to_map (zip (seqZ a (Z.of_nat (length [v; c]))) [v; c]).
Proof. rewrite insert_insert_ne by lia. apply pair_map. Qed.

(** A setter's call of [_mem_set] with a value and its checksum. *)
Lemma pair_set (a a' v : Z) self resp rest :
  a' = a + 1 -> 0 <= a -> a + 2 <= 256 -> 0 <= v <= 0x55 ->
  device_on self resp rest ->
  _mem_set (<[a' := checksum [v]]> (<[a := v]> ∅)) self
  = (Ok tt, after_pair_set self a v rest).
Proof.
  intros -> Ha Hend Hv Hon. rewrite checksum_byte by done.
  unfold after_pair_set. rewrite pair_map.
  apply (_mem_set_list a [v; 0x55 - v] self resp rest); try done.
  - cbn. lia.
  - cbn [forallb]. rewrite !(proj2 (is_byte_range _)) by lia. done.
Qed.

Lemma after_pair_set_value self a v rest :
  settings_getitem a (after_pair_set self a v rest)
  = (Ok v, after_pair_set self a v rest).
Proof.
  apply after_mem_set_lookup.
  rewrite lookup_insert_ne by lia. apply lookup_insert_eq.
Qed.

(** X14: with the device on, setting a DPI mode in range writes the mode and
    its checksum [0x55 - mode] as one two-byte block at address [0x04], and
    the getter then returns the mode that was set. *)
Theorem dpi_mode_set_then_get (value : Z) (self : PulsarX2V2Mini)
    (resp : list Z) (rest : list (list Z)) :
  DPI_MODE_MIN <= value <= DPI_MODE_MAX -> device_on self resp rest ->
  dpi_mode_set value self
  = (Ok tt, after_pair_set self ADDR_DPI_MODE value rest)
  /\ dpi_mode_get (after_pair_set self ADDR_DPI_MODE value rest)
     = (Ok value, after_pair_set self ADDR_DPI_MODE value rest).
Proof.
  intros [Hmin Hmax] Hon. split; [| apply after_pair_set_value].
  unfold dpi_mode_set. unfold DPI_MODE_MIN, DPI_MODE_MAX in *.
  rewrite (proj2 (Z.leb_le _ _) Hmin), (proj2 (Z.leb_le _ _) Hmax).
  cbn [andb negb]. rewrite insert_insert_ne by done.
  apply (pair_set _ _ _ _ resp); try done; lia.
Qed.

Lemma dpi_mode_set_then_get_witness :
  let status := [8; 3; 0; 0; 0; 0; 1; 0; 0; 0; 0; 0; 0; 0; 0; 0; 0x49] in
  let self := PulsarX2V2Mini_init
                {| written := []; incoming := [status; []] |} in
  dpi_mode_set 3 self = (Ok tt, after_pair_set self ADDR_DPI_MODE 3 [])
  /\ dpi_mode_get (after_pair_set self ADDR_DPI_MODE 3 [])
     = (Ok 3, after_pair_set self ADDR_DPI_MODE 3 []).
Proof.
  intros status self. apply (dpi_mode_set_then_get 3 self [] []).
  - unfold DPI_MODE_MIN, DPI_MODE_MAX. lia.
  - exists [], status. repeat split. constructor.
Defined.

(** X15: with the device on, setting a lift-off distance in range (1 or
    2) writes the value and its checksum [0x55 - value] as one two-byte
    block at address [0x0a], and the getter then returns the value that
    was set. *)
Theorem lod_mm_set_then_get (value : Z) (self : PulsarX2V2Mini)
    (resp : list Z) (rest : list (list Z)) :
  LOD_MM_MIN <= value <= LOD_MM_MAX -> device_on self resp rest ->
  lod_mm_set value self = (Ok tt, after_pair_set self ADDR_LOD_MM value rest)
  /\ lod_mm_get (after_pair_set self ADDR_LOD_MM value rest)
     = (Ok value, after_pair_set self ADDR_LOD_MM value rest).
Proof.
  intros [Hmin Hmax] Hon. split; [| apply after_pair_set_value].
  unfold lod_mm_set. unfold LOD_MM_MIN, LOD_MM_MAX in *.
  rewrite (proj2 (Z.leb_le _ _) Hmin), (proj2 (Z.leb_le _ _) Hmax).
  cbn [andb negb].
  apply (pair_set _ _ _ _ resp); try done; lia.
Qed.

Lemma lod_mm_set_then_get_witness :
  let status := [8; 3; 0; 0; 0; 0; 1; 0; 0; 0; 0; 0; 0; 0; 0; 0; 0x49] in
  let self := PulsarX2V2Mini_init
                {| written := []; incoming := [status; []] |} in
  lod_mm_set 2 self = (Ok tt, after_pair_set self ADDR_LOD_MM 2 [])
  /\ lod_mm_get (after_pair_set self ADDR_LOD_MM 2 [])
     = (Ok 2, after_pair_set self ADDR_LOD_MM 2 []).
Proof.
  intros status self. apply (lod_mm_set_then_get 2 self [] []).
  - unfold LOD_MM_MIN, LOD_MM_MAX. lia.
  - exists [], status. repeat split. constructor.
Defined.

Lemma flag_set (a a' enabled : Z) self resp rest :
  a' = a + 1 -> 0 <= a -> a + 2 <= 256 -> enabled = 0 \/ enabled = 1 ->
  device_on self resp rest ->
  (do! value := lift (Bool_call enabled) in
   _mem_set (<[a' := checksum [value]]> (<[a := value]> ∅))) self
  = (Ok tt, after_pair_set self a enabled rest).
Proof.
  intros Ha' Ha Hend Henabled Hon. unfold bind, lift.
  destruct Henabled as [-> | ->]; cbn [Bool_call Z.eqb];
    apply (pair_set _ _ _ _ resp); try done; lia.
Qed.

Lemma flag_get (a enabled : Z) self rest :
  enabled = 0 \/ enabled = 1 ->
  (do! raw := settings_getitem a in ret (bool_of_int raw))
    (after_pair_set self a enabled rest)
  = (Ok (enabled =? 1), after_pair_set self a enabled rest).
Proof.
  intros Henabled. unfold bind. rewrite after_pair_set_value.
  by destruct Henabled as [-> | ->].
Qed.

(** X16: the four flag setters ([motion_sync], [lod_ripple], [angle_snapping],
    [led_enabled]), called with [False] (0) or [True] (1) while the device
    is on: each writes the flag and its checksum as a two-byte block at its
    own address, and its getter then returns the flag that was set. *)
Theorem flag_setters_then_get (enabled : Z) (self : PulsarX2V2Mini)
    (resp : list Z) (rest : list (list Z)) :
  enabled = 0 \/ enabled = 1 -> device_on self resp rest ->
  (motion_sync_set enabled self
   = (Ok tt, after_pair_set self ADDR_MOTION_SYNC enabled rest)
   /\ motion_sync_get (after_pair_set self ADDR_MOTION_SYNC enabled rest)
      = (Ok (enabled =? 1),
         after_pair_set self ADDR_MOTION_SYNC enabled rest))
  /\ (lod_ripple_set enabled self
      = (Ok tt, after_pair_set self ADDR_LOD_RIPPLE enabled rest)
      /\ lod_ripple_get (after_pair_set self ADDR_LOD_RIPPLE enabled rest)
         = (Ok (enabled =? 1),
            after_pair_set self ADDR_LOD_RIPPLE enabled rest))
  /\ (angle_snapping_set enabled self
      = (Ok tt, after_pair_set self ADDR_ANGLE_SNAPPING enabled rest)
      /\ angle_snapping_get
           (after_pair_set self ADDR_ANGLE_SNAPPING enabled rest)
         = (Ok (enabled =? 1),
            after_pair_set self ADDR_ANGLE_SNAPPING enabled rest))
  /\ (led_enabled_set enabled self
      = (Ok tt, after_pair_set self ADDR_LED_ENABLED enabled rest)
      /\ led_enabled_get (after_pair_set self ADDR_LED_ENABLED enabled rest)
         = (Ok (enabled =? 1),
            after_pair_set self ADDR_LED_ENABLED enabled rest)).
Proof.
  intros Henabled Hon.
  repeat split; try (by apply flag_get);
    apply (flag_set _ _ _ _ resp); done.
Qed.

Lemma flag_setters_then_get_witness :
  let status := [8; 3; 0; 0; 0; 0; 1; 0; 0; 0; 0; 0; 0; 0; 0; 0; 0x49] in
  let self := PulsarX2V2Mini_init
                {| written := []; incoming := [status; []] |} in
  motion_sync_set 1 self
  = (Ok tt, after_pair_set self ADDR_MOTION_SYNC 1 [])
  /\ motion_sync_get (after_pair_set self ADDR_MOTION_SYNC 1 [])
     = (Ok true, after_pair_set self ADDR_MOTION_SYNC 1 []).
Proof.
  intros status self. apply (flag_setters_then_get 1 self [] []).
  - by right.
  - exists [], status. repeat split. constructor.
Defined.

(** X17: setting the LED effect to steady (1) or breathe (2) while the device is
    on writes the effect and its checksum at address [0x4c], and the getter
    then returns the effect that was set. *)
Theorem led_effect_set_then_get (value : Z) (self : PulsarX2V2Mini)
    (resp : list Z) (rest : list (list Z)) :
  value = 0x01 \/ value = 0x02 -> device_on self resp rest ->
  led_effect_set value self
  = (Ok tt, after_pair_set self ADDR_LED_EFFECT value rest)
  /\ led_effect_get (after_pair_set self ADDR_LED_EFFECT value rest)
     = (Ok value, after_pair_set self ADDR_LED_EFFECT value rest).
Proof.
  intros Hvalue Hon. split.
  - unfold led_effect_set, bind, lift.
    destruct Hvalue as [-> | ->]; cbn [LEDEffect_call Z.eqb];
      apply (pair_set _ _ _ _ resp); try done; lia.
  - unfold led_effect_get, bind. rewrite after_pair_set_value.
    by destruct Hvalue as [-> | ->].
Qed.

Lemma led_effect_set_then_get_witness :
  let status := [8; 3; 0; 0; 0; 0; 1; 0; 0; 0; 0; 0; 0; 0; 0; 0; 0x49] in
  let self := PulsarX2V2Mini_init
                {| written := []; incoming := [status; []] |} in
  led_effect_set 2 self = (Ok tt, after_pair_set self ADDR_LED_EFFECT 2 [])
  /\ led_effect_get (after_pair_set self ADDR_LED_EFFECT 2 [])
     = (Ok 2, after_pair_set self ADDR_LED_EFFECT 2 []).
Proof.
  intros status self. apply (led_effect_set_then_get 2 self [] []).
  - by right.
  - exists [], status. repeat split. constructor.
Defined.

(** ** Polling rate and [inverse] *)

Lemma dict_set_fresh d k v :
  k ∉ d.*1 -> dict_set d k v = d ++ [(k, v)].
Proof.
  induction d as [| [k' v'] d IH]; intros Hfresh; [done |].
  cbn [dict_set]. cbn in Hfresh.
  apply not_elem_of_cons in Hfresh as [Hne Hfresh].
  destruct (Z.eqb_spec k' k) as [-> | _]; [done |].
  by rewrite IH.
Qed.

Lemma inverse_from acc d :
  NoDup (acc.*1 ++ d.*2) ->
  foldl (fun d '(k, v) => dict_set d v k) acc d = acc ++ (prod_swap <$> d).
Proof.
  revert acc. induction d as [| [k v] d IH]; intros acc Hnodup.
  - by rewrite app_nil_r.
  - cbn [foldl fmap list_fmap]. cbn in Hnodup.
    apply NoDup_app in Hnodup as (Hacc & Hdisj & Hd).
    apply NoDup_cons in Hd as [Hv Hd].
    rewrite dict_set_fresh by (intros Hin; apply (Hdisj v Hin); by left).
    rewrite IH.
    + by rewrite <- app_assoc.
    + rewrite fmap_app. cbn. apply NoDup_app. split; [| split; [| done]].
      * apply NoDup_app. split; [done |]. split; [| apply NoDup_singleton].
        intros x Hx Hx'. apply list_elem_of_singleton in Hx' as ->.
        apply (Hdisj v Hx). by left.
      * intros x Hx Hx'. apply elem_of_app in Hx as [Hx | Hx].
        -- apply (Hdisj x Hx). by right.
        -- apply list_elem_of_singleton in Hx as ->. done.
Qed.

Lemma swap_swap (d : list (Z * Z)) : prod_swap <$> (prod_swap <$> d) = d.
Proof. induction d as [| [k v] d IH]; [done |]. cbn. by rewrite IH. Qed.

Lemma swap_values (d : list (Z * Z)) : (prod_swap <$> d).*2 = d.*1.
Proof. induction d as [| [k v] d IH]; [done |]. cbn. by rewrite IH. Qed.

(** X18: on a dictionary without two equal values [inverse] exchanges key and
    value of every item and keeps the order; applied twice to a dictionary
    with distinct keys and distinct values it gives the dictionary back. *)
Theorem inverse_swaps (dict_obj : list (Z * Z)) :
  NoDup dict_obj.*2 ->
  inverse dict_obj = prod_swap <$> dict_obj
  /\ (NoDup dict_obj.*1 -> inverse (inverse dict_obj) = dict_obj).
Proof.
  intros Hvalues.
  assert (Hswap : forall d : list (Z * Z),
            NoDup d.*2 -> inverse d = prod_swap <$> d).
  { intros d Hd. unfold inverse. by rewrite inverse_from. }
  split; [by apply Hswap |]. intros Hkeys.
  rewrite (Hswap dict_obj Hvalues), Hswap.
  - apply swap_swap.
  - by rewrite swap_values.
Qed.

Lemma inverse_swaps_witness :
  inverse PollingRateHz = prod_swap <$> PollingRateHz
  /\ (NoDup PollingRateHz.*1 -> inverse (inverse PollingRateHz) = PollingRateHz).
Proof.
  apply (inverse_swaps PollingRateHz).
  apply (bool_decide_unpack _). by vm_compute.
Defined.

(** Where two keys share a value the later key wins and the item stays at
    the place of the first one. *)
Example inverse_duplicate_value :
  inverse [(1, 5); (2, 6); (3, 5)] = [(5, 3); (6, 2)].
Proof. reflexivity. Qed.

(** X19: setting one of the four supported polling rates while the device is on
    writes its code and the checksum of the code at address [0x00], and
    the getter then returns the rate in Hz that was set. *)
Theorem polling_rate_set_then_get (rate val : Z) (self : PulsarX2V2Mini)
    (resp : list Z) (rest : list (list Z)) :
  dict_get PollingRateHz rate = Ok val -> device_on self resp rest ->
  polling_rate_set rate self
  = (Ok tt, after_pair_set self ADDR_POLLING_RATE val rest)
  /\ polling_rate_get (after_pair_set self ADDR_POLLING_RATE val rest)
     = (Ok rate, after_pair_set self ADDR_POLLING_RATE val rest).
Proof.
  intros Hrate Hon.
  assert (Hcases : (rate = 1000 /\ val = 1) \/ (rate = 500 /\ val = 2)
                   \/ (rate = 250 /\ val = 4) \/ (rate = 125 /\ val = 8)).
  { revert Hrate. unfold PollingRateHz. cbn [dict_get].
    repeat (match goal with
            | |- context [Z.eqb ?a rate] =>
                destruct (Z.eqb_spec a rate) as [<- | _];
                [intros [= <-]; tauto |]
            end).
    done. }
  split.
  - unfold polling_rate_set, bind, lift. rewrite Hrate.
    apply (pair_set _ _ _ _ resp); try done;
      destruct Hcases as [[_ ->] | [[_ ->] | [[_ ->] | [_ ->]]]]; lia.
  - unfold polling_rate_get, bind. rewrite after_pair_set_value.
    by destruct Hcases as [[-> ->] | [[-> ->] | [[-> ->] | [-> ->]]]].
Qed.

Lemma polling_rate_set_then_get_witness :
  let status := [8; 3; 0; 0; 0; 0; 1; 0; 0; 0; 0; 0; 0; 0; 0; 0; 0x49] in
  let self := PulsarX2V2Mini_init
                {| written := []; incoming := [status; []] |} in
  polling_rate_set 500 self
  = (Ok tt, after_pair_set self ADDR_POLLING_RATE 2 [])
  /\ polling_rate_get (after_pair_set self ADDR_POLLING_RATE 2 [])
     = (Ok 500, after_pair_set self ADDR_POLLING_RATE 2 []).
Proof.
  intros status self. apply (polling_rate_set_then_get 500 2 self [] []).
  - reflexivity.
  - exists [], status. repeat split. constructor.
Defined.

(** ** Mode addresses and DPI accessors *)

Lemma ADDR_MODE_getitem mode :
  -4 <= mode < 4 ->
  list_getitem ADDR_MODE mode
  = Ok (Build_ModeAddresses
          (dpi_base mode) (dpi_base mode + 1) (dpi_base mode + 2)
          (dpi_base mode + 3)
          (led_color_base mode) (led_color_base mode + 1)
          (led_color_base mode + 2) (led_color_base mode + 3)).
Proof.
  intros Hmode.
  assert (Hcases : mode = -4 \/ mode = -3 \/ mode = -2 \/ mode = -1
                   \/ mode = 0 \/ mode = 1 \/ mode = 2 \/ mode = 3) by lia.
  repeat (destruct Hcases as [-> | Hcases]; [reflexivity |]).
  by subst mode.
Qed.

Lemma ADDR_MODE_out_of_range mode :
  mode < -4 \/ 4 <= mode -> list_getitem ADDR_MODE mode = Raise IndexError.
Proof.
  intros Hmode. unfold list_getitem. cbn [ADDR_MODE length].
  change (Z.of_nat 4) with 4.
  destruct (Z.ltb_spec mode 0).
  - replace (0 <=? mode + 4) with false; [done |]. symmetry.
    apply Z.leb_gt. lia.
  - replace (mode <? 4) with false; [by rewrite andb_false_r |]. symmetry.
    apply Z.ltb_ge. lia.
Qed.

Lemma seqZ_4 b : seqZ b 4 = [b; b + 1; b + 2; b + 3].
Proof.
  unfold seqZ. change (Z.to_nat 4) with 4%nat. cbn [seq fmap list_fmap].
  change (Z.of_nat 0) with 0. change (Z.of_nat 1) with 1.
  change (Z.of_nat 2) with 2. change (Z.of_nat 3) with 3.
  by rewrite Z.add_0_l, !(Z.add_comm _ b).
Qed.

(** X20: [ADDR_MODE[mode]] for a mode from -4 to 3: the DPI bytes and their
    checksum are the four addresses from [0x0c + 4 * (mode mod 4)] on, the
    colour bytes and their checksum the four from [0x2c + 4 * (mode mod 4)]
    on; any other mode raises [IndexError]. *)
Theorem ADDR_MODE_blocks (mode : Z) :
  (-4 <= mode < 4 ->
   exists addrs,
     list_getitem ADDR_MODE mode = Ok addrs /\
     [dpi_index1 addrs; dpi_index2 addrs; dpi_index3 addrs;
      dpi_checksum addrs]
     = seqZ (0x0c + 4 * (mode mod 4)) 4 /\
     [led_color_r addrs; led_color_g addrs; led_color_b addrs;
      led_color_checksum addrs]
     = seqZ (0x2c + 4 * (mode mod 4)) 4)
  /\ (mode < -4 \/ 4 <= mode ->
      list_getitem ADDR_MODE mode = Raise IndexError).
Proof.
  split; [| apply ADDR_MODE_out_of_range].
  intros Hmode. eexists. split; [by apply ADDR_MODE_getitem |].
  cbn [dpi_index1 dpi_index2 dpi_index3 dpi_checksum led_color_r led_color_g
       led_color_b led_color_checksum].
  unfold dpi_base, led_color_base, ADDR_MODE0_DPI_INDEX1,
    ADDR_MODE0_LED_COLOR_R.
  by rewrite !seqZ_4.
Qed.

Lemma quad_map (b v0 v1 v2 v3 : Z) :
  (<[b + 3 := v3]> (<[b + 2 := v2]> (<[b + 1 := v1]> (<[b := v0]> ∅)))
   : gmap Z Z)
  = list_to_map (zip (seqZ b 4) [v0; v1; v2; v3]).
Proof.
  change 4 with (Z.of_nat (length [v0; v1; v2; v3])) at 1.
  apply map_eq. intros k.
  destruct (decide (k = b + 3)) as [-> | H3].
  { rewrite lookup_insert_eq. symmetry.
    apply (block_map_lookup b [v0; v1; v2; v3] 3 v3). done. }
  rewrite lookup_insert_ne by done.
  destruct (decide (k = b + 2)) as [-> | H2].
  { rewrite lookup_insert_eq. symmetry.
    apply (block_map_lookup b [v0; v1; v2; v3] 2 v2). done. }
  rewrite lookup_insert_ne by done.
  destruct (decide (k = b + 1)) as [-> | H1].
  { rewrite lookup_insert_eq. symmetry.
    apply (block_map_lookup b [v0; v1; v2; v3] 1 v1). done. }
  rewrite lookup_insert_ne by done.
  destruct (decide (k = b)) as [-> | H0].
  { rewrite lookup_insert_eq. symmetry.
    replace b with (b + Z.of_nat 0) at 1 by lia.
    apply (block_map_lookup b [v0; v1; v2; v3] 0 v0). done. }
  rewrite lookup_insert_ne, lookup_empty by done. symmetry.
  apply eq_None_not_Some. rewrite block_map_keys. cbn. lia.
Qed.

Lemma block_map_lookup_at (s : Z) (vs : list Z) (k : Z) (i : nat) (v : Z) :
  k = s + Z.of_nat i -> vs !! i = Some v ->
  (list_to_map (zip (seqZ s (Z.of_nat (length vs))) vs) : gmap Z Z) !! k
  = Some v.
Proof. intros ->. apply block_map_lookup. Qed.

Lemma dpi_int_to_raw_shape d raw :
  dpi_int_to_raw d = Ok raw ->
  50 <= d <= 26000 /\ d mod 50 = 0 /\
  exists r c, raw = [r; r; c] /\ forallb is_byte raw = true /\
              dpi_raw_to_int raw = Ok d.
Proof.
  intros Hraw.
  assert (Hd : 50 <= d <= 26000 /\ d mod 50 = 0).
  { revert Hraw. unfold dpi_int_to_raw, DPI_MIN, DPI_MAX.
    destruct (Z.leb_spec 50 d); [| done].
    destruct (Z.leb_spec d 26000); [| done]. cbn [andb negb].
    destruct (Z.eqb_spec (d mod 50) 0); [done | done]. }
  destruct Hd as [Hd Hrem]. split; [done |]. split; [done |].
  rewrite dpi_int_to_raw_packed in Hraw by done. injection Hraw as <-.
  eexists _, _. split; [done |].
  assert (Hr : 0 <= (d / 50 - 1) mod 256 < 256)
    by (Z.div_mod_to_equations; lia).
  assert (Hf : 0 <= (d / 50 - 1) / 256 <= 3)
    by (Z.div_mod_to_equations; lia).
  pose proof (dpi_raw_to_int_packed _ _ Hr Hf) as Hdecode.
  split.
  - revert Hdecode. unfold dpi_raw_to_int, bytearray.
    by destruct (forallb is_byte _).
  - rewrite Hdecode. f_equal. Z.div_mod_to_equations. lia.
Qed.

Lemma dpi_base_range mode : 0x0c <= dpi_base mode <= 0x18.
Proof.
  unfold dpi_base, ADDR_MODE0_DPI_INDEX1. Z.div_mod_to_equations. lia.
Qed.

Lemma set_dpi_run mode dpi raw self resp rest :
  -4 <= mode < 4 -> dpi_int_to_raw dpi = Ok raw ->
  device_on self resp rest ->
  set_dpi mode dpi self = (Ok tt, after_set_dpi self (dpi_base mode) raw rest).
Proof.
  intros Hmode Hraw Hon.
  destruct (dpi_int_to_raw_shape _ _ Hraw)
    as (_ & _ & r & c & -> & Hbytes & _).
  unfold set_dpi. rewrite Hraw, ADDR_MODE_getitem by done.
  unfold bind at 1. cbn [lift]. unfold bind at 1. cbn [lift].
  unfold bind at 1. cbn [lift getitem lookup list_lookup].
  unfold bind at 1. cbn [lift getitem lookup list_lookup].
  unfold bind at 1. cbn [lift getitem lookup list_lookup].
  cbn [dpi_index1 dpi_index2 dpi_index3 dpi_checksum].
  rewrite quad_map. unfold after_set_dpi. cbn [app].
  pose proof (dpi_base_range mode).
  apply (_mem_set_list (dpi_base mode) [r; r; c; checksum [r; r; c]]
           self resp rest); try done.
  - cbn. lia.
  - lia.
  - cbn [length]. lia.
  - cbn [forallb] in Hbytes |- *.
    apply andb_true_iff in Hbytes as [Hr Hbytes].
    apply andb_true_iff in Hbytes as [_ Hbytes].
    apply andb_true_iff in Hbytes as [Hc _].
    by rewrite Hr, Hc, checksum_is_byte.
Qed.

Lemma get_dpi_after_set mode dpi raw self rest :
  -4 <= mode < 4 -> dpi_int_to_raw dpi = Ok raw ->
  get_dpi mode (after_set_dpi self (dpi_base mode) raw rest)
  = (Ok dpi, after_set_dpi self (dpi_base mode) raw rest).
Proof.
  intros Hmode Hraw.
  destruct (dpi_int_to_raw_shape _ _ Hraw)
    as (_ & _ & r & c & -> & Hbytes & Hdecode).
  unfold get_dpi. rewrite ADDR_MODE_getitem by done.
  unfold bind at 1. cbn [lift dpi_index1 dpi_index2 dpi_index3].
  unfold after_set_dpi. cbn [app].
  change 4 with (Z.of_nat (length [r; r; c; checksum [r; r; c]])).
  unfold bind at 1.
  rewrite (after_mem_set_lookup _ _ _ _ (dpi_base mode) r)
    by (apply (block_map_lookup_at _ _ _ 0); [lia | done]).
  unfold bind at 1.
  rewrite (after_mem_set_lookup _ _ _ _ (dpi_base mode + 1) r)
    by (apply (block_map_lookup_at _ _ _ 1); [lia | done]).
  unfold bind at 1.
  rewrite (after_mem_set_lookup _ _ _ _ (dpi_base mode + 2) c)
    by (apply (block_map_lookup_at _ _ _ 2); [lia | done]).
  unfold bind, lift, bytearray. rewrite Hbytes. by rewrite Hdecode.
Qed.

(** X21: with the device on, [set_dpi] of a multiple of 50 from 50 to 26000 for
    a mode from -4 to 3 writes the three raw bytes and their checksum as one
    four-byte block at the DPI addresses of the mode, and [get_dpi] of that
    mode then returns the DPI that was set. *)
Theorem set_dpi_then_get_dpi (mode dpi : Z) (self : PulsarX2V2Mini)
    (resp : list Z) (rest : list (list Z)) :
  -4 <= mode < 4 -> 50 <= dpi <= 26000 -> dpi mod 50 = 0 ->
  device_on self resp rest ->
  exists raw,
    dpi_int_to_raw dpi = Ok raw /\
    set_dpi mode dpi self
    = (Ok tt, after_set_dpi self (dpi_base mode) raw rest) /\
    get_dpi mode (after_set_dpi self (dpi_base mode) raw rest)
    = (Ok dpi, after_set_dpi self (dpi_base mode) raw rest).
Proof.
  intros Hmode Hdpi Hrem Hon. eexists. split.
  - by apply dpi_int_to_raw_packed.
  - split.
    + apply (set_dpi_run _ _ _ _ resp); [done | | done].
      by apply dpi_int_to_raw_packed.
    + apply get_dpi_after_set; [done |]. by apply dpi_int_to_raw_packed.
Qed.

Lemma set_dpi_then_get_dpi_witness :
  let status := [8; 3; 0; 0; 0; 0; 1; 0; 0; 0; 0; 0; 0; 0; 0; 0; 0x49] in
  let self := PulsarX2V2Mini_init
                {| written := []; incoming := [status; []] |} in
  exists raw,
    dpi_int_to_raw 12850 = Ok raw /\
    set_dpi (-1) 12850 self
    = (Ok tt, after_set_dpi self (dpi_base (-1)) raw []) /\
    get_dpi (-1) (after_set_dpi self (dpi_base (-1)) raw [])
    = (Ok 12850, after_set_dpi self (dpi_base (-1)) raw []).
Proof.
  intros status self. apply (set_dpi_then_get_dpi (-1) 12850 self [] []).
  - lia.
  - lia.
  - reflexivity.
  - exists [], status. repeat split. constructor.
Defined.

(** X22: the [dpi] property works on the active mode of the mirror: with the
    device on, assigning a valid DPI stores it in the block of the mode the
    mirror holds at [ADDR_DPI_MODE], leaves that address alone, and reading
    the property afterwards returns the DPI that was assigned. *)
Theorem dpi_set_then_get (mode dpi : Z) (self : PulsarX2V2Mini)
    (resp : list Z) (rest : list (list Z)) :
  settings self !! ADDR_DPI_MODE = Some mode -> -4 <= mode < 4 ->
  50 <= dpi <= 26000 -> dpi mod 50 = 0 -> device_on self resp rest ->
  exists raw,
    dpi_int_to_raw dpi = Ok raw /\
    dpi_set dpi self = (Ok tt, after_set_dpi self (dpi_base mode) raw rest) /\
    dpi_mode_get (after_set_dpi self (dpi_base mode) raw rest)
    = (Ok mode, after_set_dpi self (dpi_base mode) raw rest) /\
    dpi_get (after_set_dpi self (dpi_base mode) raw rest)
    = (Ok dpi, after_set_dpi self (dpi_base mode) raw rest).
Proof.
  intros Hsettings Hmode Hdpi Hrem Hon.
  destruct (dpi_int_to_raw dpi) as [raw | e |] eqn:Hraw;
    [| by rewrite dpi_int_to_raw_packed in Hraw..].
  exists raw. split; [done |].
  assert (Hactive :
    dpi_mode_get (after_set_dpi self (dpi_base mode) raw rest)
    = (Ok mode, after_set_dpi self (dpi_base mode) raw rest)).
  { destruct (dpi_int_to_raw_shape _ _ Hraw) as (_ & _ & r & c & -> & _).
    unfold dpi_mode_get, settings_getitem, after_set_dpi.
    cbn [after_mem_set settings].
    rewrite lookup_union_r; [by rewrite Hsettings |].
    apply eq_None_not_Some.
    change 4 with (Z.of_nat (length ([r; r; c] ++ [checksum [r; r; c]]))) at 1.
    rewrite block_map_keys. pose proof (dpi_base_range mode).
    unfold ADDR_DPI_MODE. cbn [length app]. lia. }
  split; [| split; [exact Hactive |]].
  - unfold dpi_set, bind, dpi_mode_get, settings_getitem.
    rewrite Hsettings. by apply (set_dpi_run _ _ _ _ resp).
  - unfold dpi_get, bind. rewrite Hactive. by apply get_dpi_after_set.
Qed.

Lemma dpi_set_then_get_witness :
  let status := [8; 3; 0; 0; 0; 0; 1; 0; 0; 0; 0; 0; 0; 0; 0; 0; 0x49] in
  let self := {| dev := {| written := []; incoming := [status; []] |};
                 settings := <[ADDR_DPI_MODE := 2]> ∅;
                 _profile := None |} in
  exists raw,
    dpi_int_to_raw 800 = Ok raw /\
    dpi_set 800 self = (Ok tt, after_set_dpi self (dpi_base 2) raw []) /\
    dpi_mode_get (after_set_dpi self (dpi_base 2) raw [])
    = (Ok 2, after_set_dpi self (dpi_base 2) raw []) /\
    dpi_get (after_set_dpi self (dpi_base 2) raw [])
    = (Ok 800, after_set_dpi self (dpi_base 2) raw []).
Proof.
  intros status self. apply (dpi_set_then_get 2 800 self [] []).
  - reflexivity.
  - lia.
  - lia.
  - reflexivity.
  - exists [], status. repeat split. constructor.
Defined.

(** X23: every typed setter checks its argument before it touches the device:
    a value outside the range, a flag that is neither 0 nor 1, an effect
    that is neither 1 nor 2, a polling rate that is not in the table, a DPI
    that is out of range or not a multiple of 50, a mode outside -4..3 and
    a missing active mode each raise with nothing written, nothing read and
    the mirror as it was. *)
Theorem setters_validate_first (value : Z) (self : PulsarX2V2Mini) :
  (value < DPI_MODE_MIN \/ DPI_MODE_MAX < value ->
   dpi_mode_set value self = (Raise (ValueError None), self))
  /\ (value < LOD_MM_MIN \/ LOD_MM_MAX < value ->
      lod_mm_set value self = (Raise (ValueError None), self))
  /\ (value <> 0 -> value <> 1 ->
      motion_sync_set value self = (Raise (ValueError None), self) /\
      lod_ripple_set value self = (Raise (ValueError None), self) /\
      angle_snapping_set value self = (Raise (ValueError None), self) /\
      led_enabled_set value self = (Raise (ValueError None), self))
  /\ (value <> 1 -> value <> 2 ->
      led_effect_set value self = (Raise (ValueError None), self))
  /\ (dict_get PollingRateHz value = Raise KeyError ->
      polling_rate_set value self = (Raise KeyError, self))
  /\ (forall mode e, dpi_int_to_raw value = Raise e ->
        set_dpi mode value self = (Raise e, self))
  /\ (forall mode raw, dpi_int_to_raw value = Ok raw ->
        mode < -4 \/ 4 <= mode ->
        set_dpi mode value self = (Raise IndexError, self))
  /\ (settings self !! ADDR_DPI_MODE = None ->
      dpi_set value self = (Raise KeyError, self) /\
      dpi_get self = (Raise KeyError, self)).
Proof.
  repeat apply conj.
  - apply dpi_mode_set_rejects_out_of_range.
  - intros Hout. unfold lod_mm_set.
    replace ((LOD_MM_MIN <=? value) && (value <=? LOD_MM_MAX)) with false;
      [done |].
    symmetry. apply andb_false_iff.
    destruct Hout; [left | right]; apply Z.leb_gt; lia.
  - intros H0 H1. apply Z.eqb_neq in H0, H1.
    unfold motion_sync_set, lod_ripple_set, angle_snapping_set,
      led_enabled_set, bind, lift, Bool_call.
    by rewrite H1, H0.
  - intros H1 H2. apply Z.eqb_neq in H1, H2.
    unfold led_effect_set, bind, lift, LEDEffect_call. by rewrite H2, H1.
  - intros Hrate. unfold polling_rate_set, bind, lift. by rewrite Hrate.
  - intros mode e Hraw. unfold set_dpi, bind, lift. by rewrite Hraw.
  - intros mode raw Hraw Hmode. unfold set_dpi, bind, lift.
    by rewrite Hraw, ADDR_MODE_out_of_range.
  - intros Hnone.
    unfold dpi_set, dpi_get, bind, dpi_mode_get, settings_getitem.
    by rewrite Hnone.
Qed.

(** ** Active profile *)

Lemma Device_read_expect_ok expect d pre frame rest inst :
  incoming d = pre ++ frame :: rest ->
  Forall (fun f => exists v, from_payload f = Ok v /\ expect v = false) pre ->
  from_payload frame = Ok inst -> expect inst = true ->
  Device_read_expect expect d
  = (Ok inst, {| written := written d; incoming := rest |}).
Proof.
  intros Hin Hpre Hinst Hexpect.
  unfold Device_read_expect, Device_read_loop. rewrite Hin.
  rewrite read_loop_skip by (by apply expect_skips).
  cbn [read_loop]. rewrite Hinst. cbn [obind]. by rewrite Hexpect.
Qed.

Lemma SetActiveProfilePayload_init_frame profile frame :
  SetActiveProfilePayload_init profile = Ok (SetActiveProfilePayload frame) ->
  is_byte profile = true /\ frame !! 6%nat = Some profile.
Proof.
  unfold SetActiveProfilePayload_init. rewrite build_payload_profile.
  destruct (is_byte profile); cbn [obind]; [| done].
  by intros [= <-].
Qed.

Lemma CurrentActiveProfilePayload_init_frame profile frame :
  CurrentActiveProfilePayload_init profile
  = Ok (CurrentActiveProfilePayload frame) ->
  is_byte profile = true /\ frame !! 6%nat = Some profile.
Proof.
  unfold CurrentActiveProfilePayload_init. rewrite build_payload_profile.
  destruct (is_byte profile); cbn [obind]; [| done].
  by intros [= <-].
Qed.

Lemma profile_set_run value p self pre request echo rest :
  SetActiveProfilePayload_init value = Ok (SetActiveProfilePayload request) ->
  SetActiveProfilePayload_init p = Ok (SetActiveProfilePayload echo) ->
  incoming (dev self) = pre ++ echo :: rest ->
  Forall (fun f => exists v, from_payload f = Ok v
                             /\ is_SetActiveProfilePayload v = false) pre ->
  profile_set value self
  = (if p =? value then Ok tt else Raise AssertionError,
     {| dev := {| written := written (dev self) ++ [request];
                  incoming := rest |};
        settings := settings self;
        _profile := if p =? value then Some value else _profile self |}).
Proof.
  intros Hvalue Hp Hin Hpre.
  destruct (SetActiveProfilePayload_init_frame _ _ Hvalue) as [_ Hv6].
  destruct (SetActiveProfilePayload_init_frame _ _ Hp) as [_ Hp6].
  destruct (SetActiveProfilePayload_roundtrip _ _ Hp) as [_ Hparse].
  unfold profile_set. rewrite Hvalue.
  unfold bind at 1. cbn [lift]. unfold bind at 1.
  unfold on_dev at 1, Device_write_payload, bind at 1.
  cbn [lift Payload_bytes Payload_payload Device_write].
  unfold bind at 1. unfold on_dev at 1.
  cbn [dev written incoming settings _profile].
  rewrite (Device_read_expect_ok _ _ pre echo rest
             (SetActiveProfilePayload echo)); [| done | done | done | done].
  unfold bind, lift. cbn [Payload_profile]. unfold getitem.
  rewrite Hp6, Hv6. by destruct (p =? value).
Qed.

(** X24: the profile setter writes the [SetActiveProfile] frame for the value
    and waits for the first frame that parses as a [SetActiveProfile]: when
    that frame carries the same profile the value is cached, when it carries
    another profile the setter raises [AssertionError] and the cache keeps
    what it held. *)
Theorem profile_set_checks_echo (value p : Z) (self : PulsarX2V2Mini)
    (pre : list (list Z)) (request echo : list Z) (rest : list (list Z)) :
  SetActiveProfilePayload_init value = Ok (SetActiveProfilePayload request) ->
  SetActiveProfilePayload_init p = Ok (SetActiveProfilePayload echo) ->
  incoming (dev self) = pre ++ echo :: rest ->
  Forall (fun f => exists v, from_payload f = Ok v
                             /\ is_SetActiveProfilePayload v = false) pre ->
  profile_set value self
  = (if p =? value then Ok tt else Raise AssertionError,
     {| dev := {| written := written (dev self) ++ [request];
                  incoming := rest |};
        settings := settings self;
        _profile := if p =? value then Some value else _profile self |}).
Proof. apply profile_set_run. Qed.

Lemma profile_set_checks_echo_witness :
  let request := [8; 15; 0; 0; 0; 1; 3; 0; 0; 0; 0; 0; 0; 0; 0; 0; 0x3a] in
  let echo := [8; 15; 0; 0; 0; 1; 2; 0; 0; 0; 0; 0; 0; 0; 0; 0; 0x3b] in
  let event := [8; 10; 0; 0; 0; 10; 4; 0; 0; 0; 0; 0; 0; 0; 0; 0; 0x35] in
  let self := {| dev := {| written := []; incoming := [event; echo] |};
                 settings := ∅; _profile := Some 1 |} in
  profile_set 3 self
  = (Raise AssertionError,
     {| dev := {| written := [request]; incoming := [] |};
        settings := ∅; _profile := Some 1 |}).
Proof.
  intros request echo event self.
  apply (profile_set_checks_echo 3 2 self [event] request echo []).
  - reflexivity.
  - reflexivity.
  - reflexivity.
  - repeat constructor. by eexists.
Defined.

(** X25: reading the profile with an empty cache does two exchanges: the
    [ACTIVE_PROFILE_GET] request, answered by the current profile, and then,
    because [read_profile] assigns through the property, a
    [SetActiveProfile] frame for that same profile, whose echo it waits
    for.  Afterwards the profile is cached and a second read touches
    nothing. *)
Theorem profile_get_sets_profile (p : Z) (self : PulsarX2V2Mini)
    (current echo : list Z) (rest : list (list Z)) :
  _profile self = None ->
  CurrentActiveProfilePayload_init p
  = Ok (CurrentActiveProfilePayload current) ->
  SetActiveProfilePayload_init p = Ok (SetActiveProfilePayload echo) ->
  incoming (dev self) = current :: echo :: rest ->
  let self' :=
    {| dev := {| written := written (dev self)
                            ++ [ACTIVE_PROFILE_GET_request; echo];
                 incoming := rest |};
       settings := settings self; _profile := Some p |} in
  profile_get self = (Ok (Some p), self') /\
  profile_get self' = (Ok (Some p), self').
Proof.
  intros Hcache Hcurrent Hecho Hin self'. split; [| done].
  destruct (CurrentActiveProfilePayload_init_frame _ _ Hcurrent) as [_ Hc6].
  destruct (CurrentActiveProfilePayload_roundtrip _ _ Hcurrent)
    as [_ Hparse].
  unfold profile_get. unfold bind at 1. unfold get__profile at 1.
  rewrite Hcache. unfold bind at 1. unfold read_profile.
  unfold bind at 1. unfold on_dev at 1, Device_write_payload, bind at 1.
  change (lift (Payload_bytes RequestActiveProfilePayload))
    with (@lift Device _ (Ok ACTIVE_PROFILE_GET_request)).
  cbn [lift Device_write]. unfold bind at 1. unfold on_dev at 1.
  cbn [dev written incoming settings _profile].
  rewrite (Device_read_expect_ok _ _ [] current (echo :: rest)
             (CurrentActiveProfilePayload current));
    [| done | constructor | done | done].
  unfold bind at 1. cbn [lift Payload_profile]. unfold getitem.
  rewrite Hc6.
  rewrite (profile_set_run p p _ [] echo echo rest); [| done | done | done |
                                                      constructor].
  rewrite Z.eqb_refl. unfold get__profile. cbn [_profile dev written].
  subst self'. by rewrite <- app_assoc.
Qed.

Lemma profile_get_sets_profile_witness :
  let current := [8; 14; 0; 0; 0; 1; 2; 0; 0; 0; 0; 0; 0; 0; 0; 0; 0x3c] in
  let echo := [8; 15; 0; 0; 0; 1; 2; 0; 0; 0; 0; 0; 0; 0; 0; 0; 0x3b] in
  let self := PulsarX2V2Mini_init
                {| written := []; incoming := [current; echo] |} in
  let self' :=
    {| dev := {| written := [ACTIVE_PROFILE_GET_request; echo];
                 incoming := [] |};
       settings := ∅; _profile := Some 2 |} in
  profile_get self = (Ok (Some 2), self') /\
  profile_get self' = (Ok (Some 2), self').
Proof.
  intros current echo self self'.
  apply (profile_get_sets_profile 2 self current echo []); reflexivity.
Defined.

(** ** Reading the settings *)

Lemma store_window_lookup (vs : list Z) (c : Z) (st : gmap Z Z) (k : Z) :
  foldl (fun settings '(k, v) => <[k := v]> settings) st
        (zip (seqZ c (Z.of_nat (length vs))) vs) !! k
  = if decide (c <= k < c + Z.of_nat (length vs))
    then vs !! Z.to_nat (k - c) else st !! k.
Proof.
  revert c st. induction vs as [| v vs IH]; intros c st.
  - cbn. case_decide; [lia | done].
  - rewrite seqZ_cons by (cbn [length]; lia).
    cbn [zip zip_with foldl].
    replace (Z.pred (Z.of_nat (length (v :: vs)))) with (Z.of_nat (length vs))
      by (cbn [length]; lia).
    rewrite IH. cbn [length].
    destruct (decide (k = c)) as [-> | Hne].
    + rewrite lookup_insert_eq. repeat case_decide; try lia.
      rewrite Z.sub_diag. reflexivity.
    + rewrite lookup_insert_ne by done.
      repeat case_decide; try lia; [| done].
      replace (Z.to_nat (k - c)) with (S (Z.to_nat (k - Z.succ c))) by lia.
      done.
Qed.

Lemma windows_lookup_out frames c st k :
  k < c \/ c + 10 * Z.of_nat (length frames) <= k ->
  windows_map c frames st !! k = st !! k.
Proof.
  revert c st. induction frames as [| f frames IH]; intros c st Hk; [done |].
  cbn [windows_map]. cbn [length] in Hk. rewrite IH by lia.
  rewrite store_window_lookup. case_decide; [| done].
  rewrite length_take in *. lia.
Qed.

Lemma windows_lookup_in frames c st (j i : nat) f :
  Forall (fun f => length f = 17%nat) frames ->
  frames !! j = Some f -> (i < 10)%nat ->
  windows_map c frames st !! (c + 10 * Z.of_nat j + Z.of_nat i)
  = f !! (6 + i)%nat.
Proof.
  intros Hlen. revert c st j.
  induction Hlen as [| f' frames Hf' _ IH]; intros c st j Hj Hi; [done |].
  cbn [windows_map]. destruct j as [| j].
  - injection Hj as ->. rewrite windows_lookup_out by lia.
    rewrite store_window_lookup.
    rewrite length_take, length_drop, Hf'. cbn [Nat.sub Nat.min].
    case_decide; [| lia].
    replace (Z.to_nat (c + 10 * Z.of_nat 0 + Z.of_nat i - c)) with i by lia.
    rewrite lookup_take. case_decide; [| lia]. by rewrite lookup_drop.
  - cbn [lookup list_lookup] in Hj.
    replace (c + 10 * Z.of_nat (S j) + Z.of_nat i)
      with (c + 10 + 10 * Z.of_nat j + Z.of_nat i) by lia.
    by apply IH.
Qed.

Lemma params_MEM_GET (P : Z -> bool) current :
  P 0 = true -> P 10 = true ->
  forallb (fun i => P (kwarg (<[5%nat := 10]> (<[4%nat := current]> ∅)) i))
          (seq 2 14) = P current.
Proof.
  intros H0 H10. vm_compute. rewrite ?H0, ?H10. by destruct (P current).
Qed.

Lemma build_payload_MEM_GET current :
  is_byte current = true ->
  build_payload MEM_GET (<[5%nat := 10]> (<[4%nat := current]> ∅))
  = Ok (MEM_GET_request current).
Proof.
  intros Hbyte. rewrite build_payload_cases. unfold params_are_bytes.
  rewrite params_MEM_GET by done. rewrite Hbyte. reflexivity.
Qed.

Lemma read_settings_window_run current st self f rest :
  0 <= current < 256 -> incoming (dev self) = f :: rest ->
  f !! 4%nat = Some current -> f !! 5%nat = Some 10 ->
  read_settings_window current st self
  = (Ok (foldl (fun st '(k, v) => <[k := v]> st) st
               (zip (seqZ current (Z.of_nat (length (take 10 (drop 6 f)))))
                    (take 10 (drop 6 f)))),
     {| dev := {| written := written (dev self) ++ [MEM_GET_request current];
                  incoming := rest |};
        settings := settings self;
        _profile := _profile self |}).
Proof.
  intros Hcurrent Hin H4 H5. unfold read_settings_window.
  rewrite build_payload_MEM_GET by (by apply is_byte_range).
  unfold bind at 1. cbn [lift]. unfold bind at 1.
  cbn [on_dev Device_write dev settings _profile].
  unfold bind at 1. unfold on_dev, Device_read, Device_read_loop.
  cbn [dev written incoming settings _profile]. rewrite Hin.
  cbn [read_loop]. unfold bind at 1. unfold getitem. rewrite H4.
  cbn [lift]. rewrite Z.eqb_refl. cbn [negb].
  unfold bind at 1. rewrite H5. cbn [lift]. reflexivity.
Qed.

Lemma read_settings_loop_run frames :
  forall fuel max_addr current st self rest,
    incoming (dev self) = frames ++ rest ->
    (length frames <= fuel)%nat -> 0 <= current -> max_addr + 10 < 256 ->
    max_addr + 10 < current + 10 * Z.of_nat (length frames) <= max_addr + 20 ->
    (forall (j : nat) f, frames !! j = Some f ->
       f !! 4%nat = Some (current + 10 * Z.of_nat j) /\ f !! 5%nat = Some 10) ->
    read_settings_loop fuel max_addr current st self
    = (Ok (windows_map current frames st),
       {| dev := {| written := written (dev self)
                               ++ window_requests current (length frames);
                    incoming := rest |};
          settings := settings self; _profile := _profile self |}).
Proof.
  induction frames as [| f frames IH];
    intros fuel max_addr current st self rest Hin Hfuel Hcurrent Hmax Hend
           Hframes.
  - cbn [length] in Hend.
    assert (Hguard : (current <=? max_addr + 10) = false)
      by (apply Z.leb_gt; lia).
    destruct fuel; cbn [read_settings_loop]; rewrite Hguard;
      cbn [windows_map window_requests length]; rewrite app_nil_r;
      unfold ret; cbn [app] in Hin; rewrite <- Hin;
      by destruct self as [[] ? ?].
  - cbn [length] in Hend, Hfuel.
    assert (Hguard : (current <=? max_addr + 10) = true)
      by (apply Z.leb_le; lia).
    destruct fuel as [| fuel]; [lia |].
    cbn [read_settings_loop]. rewrite Hguard. unfold bind.
    destruct (Hframes 0%nat f eq_refl) as [H4 H5].
    rewrite (read_settings_window_run current st self f (frames ++ rest));
      [| lia | done | by rewrite H4; f_equal; lia | done].
    rewrite (IH fuel max_addr (current + 10) _ _ rest); cbn [dev incoming];
      [| done | lia | lia | lia | lia |].
    + cbn [written settings _profile windows_map window_requests length].
      by rewrite <- app_assoc.
    + intros j f' Hj. destruct (Hframes (S j) f' Hj) as [H4' H5'].
      split; [| done]. rewrite H4'. f_equal. lia.
Qed.

(** X26: [read_settings] asks for the twenty windows of ten addresses from
    [0x00], [0x0a], ... up to [0xbe], each in one [MEM_GET] request.  When
    every reply is a 17-byte frame that echoes the start address and the
    length 10 of its window, the call returns and the mirror is replaced:
    address [10*j + i] holds byte [6 + i] of reply [j], and nothing is
    stored below 0 or from 200 on, whatever the mirror held before. *)
Theorem read_settings_replaces_mirror (self : PulsarX2V2Mini)
    (frames : list (list Z)) (rest : list (list Z)) :
  incoming (dev self) = frames ++ rest -> length frames = 20%nat ->
  (forall (j : nat) f, frames !! j = Some f ->
     length f = 17%nat /\ f !! 4%nat = Some (10 * Z.of_nat j)
     /\ f !! 5%nat = Some 10) ->
  exists mirror,
    read_settings self
    = (Ok tt,
       {| dev := {| written := written (dev self) ++ window_requests 0 20;
                    incoming := rest |};
          settings := mirror; _profile := _profile self |}) /\
    (forall (j i : nat) f, frames !! j = Some f -> (i < 10)%nat ->
       mirror !! (10 * Z.of_nat j + Z.of_nat i) = f !! (6 + i)%nat) /\
    (forall k, k < 0 \/ 200 <= k -> mirror !! k = None).
Proof.
  intros Hin Hlen Hframes. exists (windows_map 0 frames ∅).
  split; [| split].
  - unfold read_settings, bind.
    rewrite (read_settings_loop_run frames _ _ _ _ _ rest Hin);
      rewrite ?Hlen; try (cbn; lia).
    + done.
    + intros j f Hj. destruct (Hframes j f Hj) as (_ & H4 & H5). done.
  - intros j i f Hj Hi.
    rewrite <- (windows_lookup_in frames 0 ∅ j i f); [f_equal; lia | | done
                                                     | done].
    apply Forall_forall. intros f' Hf'.
    apply list_elem_of_lookup in Hf' as [j' Hj'].
    by destruct (Hframes j' f' Hj') as (Hlen' & _).
  - intros k Hk. rewrite windows_lookup_out by (rewrite Hlen; lia).
    apply lookup_empty.
Qed.

Lemma read_settings_replaces_mirror_witness :
  let reply (j : nat) : list Z :=
    [8; 8; 0; 0; 10 * Z.of_nat j; 10; 1; 2; 3; 4; 5; 6; 7; 8; 9; 10; 0] in
  let frames := reply <$> seq 0 20 in
  let self := {| dev := {| written := []; incoming := frames |};
                 settings := <[0xff := 1]> ∅; _profile := None |} in
  exists mirror,
    read_settings self
    = (Ok tt,
       {| dev := {| written := [] ++ window_requests 0 20; incoming := [] |};
          settings := mirror; _profile := None |}) /\
    (forall (j i : nat) f, frames !! j = Some f -> (i < 10)%nat ->
       mirror !! (10 * Z.of_nat j + Z.of_nat i) = f !! (6 + i)%nat) /\
    (forall k, k < 0 \/ 200 <= k -> mirror !! k = None).
Proof.
  intros reply frames self.
  apply (read_settings_replaces_mirror self frames []).
  - by rewrite app_nil_r.
  - reflexivity.
  - intros j f Hj. unfold frames in Hj.
    rewrite list_lookup_fmap in Hj.
    destruct (seq 0 20 !! j) as [j' |] eqn:Hseq; [| done].
    apply lookup_seq in Hseq as [-> _]. by injection Hj as <-.
Defined.

Lemma keeps_bind {A B} (m : M PulsarX2V2Mini A) (k : A -> M PulsarX2V2Mini B) :
  keeps_mirror m -> (forall a, keeps_mirror (k a)) -> keeps_mirror (bind m k).
Proof.
  intros Hm Hk self. unfold bind. destruct (Hm self) as [H1 H2].
  destruct (m self) as [[a | e |] self1]; cbn [snd] in *; [| done | done].
  destruct (Hk a self1) as [H3 H4]. by rewrite H3, H4.
Qed.

Lemma keeps_lift {A} (o : outcome A) : keeps_mirror (lift o).
Proof. done. Qed.

Lemma keeps_raise {A} e : keeps_mirror (@raise PulsarX2V2Mini A e).
Proof. done. Qed.

Lemma keeps_ret {A} (a : A) : keeps_mirror (@ret PulsarX2V2Mini A a).
Proof. done. Qed.

Lemma keeps_on_dev {A} (m : M Device A) : keeps_mirror (on_dev m).
Proof. intros self. unfold on_dev. by destruct (m (dev self)). Qed.

Lemma keeps_read_settings_window current st :
  keeps_mirror (read_settings_window current st).
Proof.
  unfold read_settings_window.
  apply keeps_bind; [apply keeps_lift | intros payload].
  apply keeps_bind; [apply keeps_on_dev | intros _].
  apply keeps_bind; [apply keeps_on_dev | intros resp].
  apply keeps_bind; [apply keeps_lift | intros echoed_address].
  destruct (negb _); [apply keeps_raise |].
  apply keeps_bind; [apply keeps_lift | intros echoed_length].
  destruct (negb _); [apply keeps_raise | apply keeps_ret].
Qed.

Lemma keeps_read_settings_loop fuel max_addr current st :
  keeps_mirror (read_settings_loop fuel max_addr current st).
Proof.
  revert current st. induction fuel as [| fuel IH]; intros current st;
    cbn [read_settings_loop]; destruct (current <=? max_addr + 10);
    try apply keeps_ret; [done |].
  apply keeps_bind; [apply keeps_read_settings_window | intros st'].
  apply IH.
Qed.

(** X27: [read_settings] builds the new mirror aside and installs it at the
    end: a call that does not return (a reply that echoes another address
    or length, a short frame, a device that stops answering) leaves the
    mirror exactly as it was, and no call touches the cached profile. *)
Theorem read_settings_all_or_nothing (self : PulsarX2V2Mini) :
  _profile (read_settings self).2 = _profile self /\
  ((read_settings self).1 <> Ok tt ->
   settings (read_settings self).2 = settings self).
Proof.
  unfold read_settings, bind.
  destruct (keeps_read_settings_loop
              (Z.to_nat (0xb8 + 10 - 0x00 + 1)) 0xb8 0x00 ∅ self)
    as [Hsettings Hprofile].
  destruct (read_settings_loop _ _ _ _ self) as [[st | e |] self1];
    cbn [fst snd set_settings _profile settings] in *; by split.
Qed.

(** ** LED colour and brightness *)

Example format_02x_values :
  format_02x 0 = "00"%string /\ format_02x 10 = "0a"%string /\
  format_02x 255 = "ff"%string /\ format_02x 256 = "100"%string /\
  format_02x (-1) = "-1"%string.
Proof. repeat split. Qed.

(** X28: [get_led_color] formats the three colour addresses of the mode, not
    the bytes stored at them: for every controller state, an empty mirror
    included, it returns the same string for a mode, and it never raises
    [KeyError]. *)
Theorem get_led_color_ignores_mirror (mode : Z) (self : PulsarX2V2Mini) :
  -4 <= mode < 4 ->
  get_led_color mode self
  = (Ok (nth (Z.to_nat (mode mod 4))
             ["#2c2d2e"; "#303132"; "#343536"; "#38393a"]%string
             EmptyString),
     self).
Proof.
  intros Hmode.
  assert (Hcases : mode = -4 \/ mode = -3 \/ mode = -2 \/ mode = -1
                   \/ mode = 0 \/ mode = 1 \/ mode = 2 \/ mode = 3) by lia.
  repeat (destruct Hcases as [-> | Hcases]; [reflexivity |]).
  by subst mode.
Qed.

Lemma get_led_color_ignores_mirror_witness :
  let self := {| dev := {| written := []; incoming := [] |};
                 settings := <[ADDR_MODE1_LED_COLOR_R := 0xff]> ∅;
                 _profile := None |} in
  get_led_color 1 self = (Ok "#303132"%string, self).
Proof.
  intros self. apply (get_led_color_ignores_mirror 1 self). lia.
Defined.

(** X29: no value can be written through the [led_brightness] setter: a value
    from 0 to 255 is rejected by the range check, and any other value is
    not a byte, so that building the frame raises; either way the result
    is [ValueError] with nothing written and the mirror as it was. *)
Theorem led_brightness_set_never_writes (value : Z)
    (self : PulsarX2V2Mini) :
  led_brightness_set value self = (Raise (ValueError None), self).
Proof.
  destruct (decide (LED_BRIGHTNESS_MIN <= value <= LED_BRIGHTNESS_MAX))
    as [[Hmin Hmax] | Hout].
  - unfold led_brightness_set.
    apply Z.leb_le in Hmin, Hmax. by rewrite Hmin, Hmax.
  - apply led_brightness_set_out_of_range. lia.
Qed.

(** X30: when the device is on but sends nothing after the status reply,
    [_mem_set] has written the [MEM_SET] frame and then waits forever for
    the response: the device holds the new values while the mirror still
    holds the old ones. *)
Theorem _mem_set_blocks_after_write (addresses : gmap Z Z)
    (self : PulsarX2V2Mini) (pre : list (list Z)) (status : list Z) :
  incoming (dev self) = pre ++ [status] ->
  Forall (fun f : list Z => exists c : Z, f !! 1%nat = Some c /\ c <> STATUS)
         pre ->
  status !! 1%nat = Some (Command_value STATUS) ->
  status !! 6%nat = Some 1 ->
  (1 <= size addresses <= 10)%nat -> contiguous_block addresses ->
  encodable addresses ->
  exists start,
    min_key addresses = Some start /\
    _mem_set addresses self
    = (Blocked,
       {| dev := {| written :=
                      written (dev self)
                      ++ [STATUS_request;
                          MEM_SET_request start
                            (block_values addresses start (size addresses))];
                    incoming := [] |};
          settings := settings self; _profile := _profile self |}).
Proof.
  intros Hin Hpre Hstatus Hflag Hsize Hblock Henc.
  destruct (contiguous_block_min addresses) as (s & Hs & Hkeys);
    [lia | done |].
  exists s. split; [done |].
  (* the run with one more frame tells which frame is written *)
  pose (self2 := {| dev := {| written := written (dev self);
                              incoming := pre ++ status :: [[]] |};
                    settings := settings self; _profile := _profile self |}).
  assert (Hon : device_on self2 [] []) by (by exists pre, status).
  pose proof (_mem_set_on addresses self2 [] [] s Hon Hsize Hs Hkeys Henc)
    as Hrun.
  rewrite (_mem_set_steps _ self2 s) in Hrun by done.
  rewrite (_mem_set_steps _ self s) by done.
  destruct (fill_kwargs _ _ _) as [kw | |]; [| done | done].
  destruct (build_payload MEM_SET kw) as [payload | |]; [| done | done].
  rewrite (is_on_stream self pre status [] 1) by done.
  rewrite (is_on_stream self2 pre status [[]] 1) in Hrun by done.
  change (1 =? 0) with false in *. change (1 =? 1) with true in *.
  cbv iota in *. cbn [dev incoming written settings _profile] in *.
  injection Hrun as Hwritten. rewrite <- app_assoc in Hwritten.
  apply app_inv_head in Hwritten.
  injection Hwritten as ->. by rewrite <- app_assoc.
Qed.

Lemma _mem_set_blocks_after_write_witness :
  let status := [8; 3; 0; 0; 0; 0; 1; 0; 0; 0; 0; 0; 0; 0; 0; 0; 0x49] in
  let addresses : gmap Z Z := <[0x0a := 2]> (<[0x0b := 0x53]> ∅) in
  let self := PulsarX2V2Mini_init
                {| written := []; incoming := [status] |} in
  exists start,
    min_key addresses = Some start /\
    _mem_set addresses self
    = (Blocked,
       {| dev := {| written :=
                      [] ++ [STATUS_request;
                             MEM_SET_request start
                               (block_values addresses start (size addresses))];
                    incoming := [] |};
          settings := ∅; _profile := None |}).
Proof.
  intros status addresses self.
  apply (_mem_set_blocks_after_write addresses self [] status).
  - reflexivity.
  - constructor.
  - reflexivity.
  - reflexivity.
  - vm_compute. lia.
  - unfold addresses. rewrite pair_map_rev. exists 0x0a.
    split; [by eexists |]. split.
    + intros k Hk. apply block_map_keys in Hk. lia.
    + intros k. rewrite block_map_size. apply block_map_keys.
  - intros k v Hv. unfold addresses in Hv.
    repeat (apply lookup_insert_Some in Hv as [[<- <-] | [_ Hv]]; [done |]).
    by rewrite lookup_empty in Hv.
Defined.
